(** * Snake on an entity-component-system core: a shallow embedding of
    [snake.py] and the properties of its tick pipeline.

    Python values are modelled as follows.
    - [int] is [Z] (unbounded); [%] with the sign of the divisor is [Z.modulo],
      [//] is [Z.div]; a zero divisor raises [ZeroDivisionError].
    - A [dict] that is only looked up is a [gmap]; the per-kind store, whose
      keys are iterated, is an association list in insertion order.
    - An exception ends the computation ([Raise]); the unbounded
      [while True] of the food respawn is bounded by a number of extra
      iterations and reports [Diverge] when the bound is used up.
    - Each class is a module holding its methods ([World.get_component],
      [CollisionSystem._respawn_food], [SnakeGame.__init__], ...).
    - [Subject] objects live in a store shared by everything in the process;
      a component refers to its channel by a reference into that store.
    - [random.randint] reads the next number of an arbitrary oracle. *)

From stdpp Require Import gmap list fin_maps strings pretty.
From Stdlib Require Import ZArith Lia Ascii.

Local Open Scope Z_scope.

(** ** Outcomes of a call *)

Inductive Exception : Set :=
  | KeyError | AttributeError | IndexError | ValueError | ZeroDivisionError.

Inductive Outcome (A : Type) : Type :=
  | Ok (a : A)
  | Raise (e : Exception)
  | Diverge.

Arguments Ok {A} a.
Arguments Raise {A} e.
Arguments Diverge {A}.

#[global] Instance Outcome_ret : MRet Outcome := fun A a => Ok a.

#[global] Instance Outcome_bind : MBind Outcome := fun A B k m =>
  match m with
  | Ok a => k a
  | Raise e => Raise e
  | Diverge => Diverge
  end.

(** ** Game components *)

Inductive Direction : Set := UP | DOWN | LEFT | RIGHT.

Definition Direction_eqb (a b : Direction) : bool :=
  match a, b with
  | UP, UP | DOWN, DOWN | LEFT, LEFT | RIGHT, RIGHT => true
  | _, _ => false
  end.

Definition Cell : Type := Z * Z.

Definition Cell_eqb (a b : Cell) : bool :=
  (fst a =? fst b) && (snd a =? snd b).

(** [c in cells] for a list of tuples. *)
Fixpoint cell_in (c : Cell) (cells : list Cell) : bool :=
  match cells with
  | [] => false
  | d :: rest => Cell_eqb c d || cell_in c rest
  end.

Record Position := mkPosition { x : Z; y : Z }.
Record Velocity := mkVelocity { direction : Direction }.
Record Snake := mkSnake { body : list Cell; growth_pending : Z }.
Record Food := mkFood { position : Position }.
(** A reference to a [Subject] object of the process. *)
Definition SubjectRef : Set := nat.
Record Score := mkScore { value : Z; score_changed : SubjectRef }.
Record Grid := mkGrid { width : Z; height : Z }.
Record GameState := mkGameState { is_game_over : bool; game_over_subject : SubjectRef }.

(** The component classes, used as dictionary keys ([type(component)]). *)
Inductive Kind : Set := KGrid | KSnake | KVelocity | KFood | KScore | KGameState.

Inductive Component : Type :=
  | CGrid (g : Grid)
  | CSnake (s : Snake)
  | CVelocity (v : Velocity)
  | CFood (f : Food)
  | CScore (s : Score)
  | CGameState (g : GameState).

Definition type (c : Component) : Kind :=
  match c with
  | CGrid _ => KGrid
  | CSnake _ => KSnake
  | CVelocity _ => KVelocity
  | CFood _ => KFood
  | CScore _ => KScore
  | CGameState _ => KGameState
  end.

#[global] Instance Kind_eq_dec : EqDecision Kind.
Proof. solve_decision. Defined.

Definition Kind_code (k : Kind) : positive :=
  match k with
  | KGrid => 1 | KSnake => 2 | KVelocity => 3
  | KFood => 4 | KScore => 5 | KGameState => 6
  end%positive.

Definition Kind_decode (p : positive) : option Kind :=
  match p with
  | 1 => Some KGrid | 2 => Some KSnake | 3 => Some KVelocity
  | 4 => Some KFood | 5 => Some KScore | 6 => Some KGameState
  | _ => None
  end%positive.

#[global] Program Instance Kind_countable : Countable Kind :=
  {| encode := Kind_code; decode := Kind_decode |}.
Next Obligation. by intros []. Qed.

(** Typed views of a looked-up component; a value of another class has no
    such attributes. *)
Definition as_grid (o : option Component) : Outcome Grid :=
  match o with Some (CGrid g) => Ok g | _ => Raise AttributeError end.
Definition as_snake (o : option Component) : Outcome Snake :=
  match o with Some (CSnake s) => Ok s | _ => Raise AttributeError end.
Definition as_velocity (o : option Component) : Outcome Velocity :=
  match o with Some (CVelocity v) => Ok v | _ => Raise AttributeError end.
Definition as_food (o : option Component) : Outcome Food :=
  match o with Some (CFood f) => Ok f | _ => Raise AttributeError end.
Definition as_score (o : option Component) : Outcome Score :=
  match o with Some (CScore s) => Ok s | _ => Raise AttributeError end.
Definition as_game_state (o : option Component) : Outcome GameState :=
  match o with Some (CGameState g) => Ok g | _ => Raise AttributeError end.

(** ** The process: notification channels and the random source *)

Inductive PyValue : Set := VInt (z : Z) | VBool (b : bool).

Definition Observer : Set := nat.

Inductive Event : Set :=
  | Emitted (s : SubjectRef) (v : PyValue)
  | Delivered (s : SubjectRef) (o : Observer) (v : PyValue).

Record Runtime := mkRuntime {
  (** the [Subject] objects: the observers subscribed to each *)
  subjects : list (list Observer);
  (** every [on_next] call and every delivery it makes, oldest first *)
  trace : list Event;
  (** the numbers the random generator will produce, and how many were used *)
  draws : nat -> Z;
  cursor : nat
}.

(** [Subject()] *)
Definition Subject_new (rt : Runtime) : Runtime * SubjectRef :=
  (mkRuntime (subjects rt ++ [[]]) (trace rt) (draws rt) (cursor rt),
   length (subjects rt)).

(** [subject.subscribe(observer)] *)
Definition subscribe (s : SubjectRef) (o : Observer) (rt : Runtime) : Runtime :=
  mkRuntime (alter (fun obs => obs ++ [o]) s (subjects rt))
            (trace rt) (draws rt) (cursor rt).

(** What one [on_next] adds to the trace: the call, then one delivery per
    subscribed observer, in subscription order. *)
Definition events_of (subs : list (list Observer)) (s : SubjectRef)
    (v : PyValue) : list Event :=
  Emitted s v :: map (fun o => Delivered s o v) (default [] (subs !! s)).

(** [subject.on_next(v)]: every subscribed observer is called, synchronously. *)
Definition on_next (s : SubjectRef) (v : PyValue) (rt : Runtime) : Runtime :=
  mkRuntime (subjects rt) (trace rt ++ events_of (subjects rt) s v)
            (draws rt) (cursor rt).

(** [random.randint(a, b)]: [randrange(a, b + 1)] raises [ValueError] on an
    empty range, and otherwise returns some integer of [a..b]. *)
Definition randint (a b : Z) (rt : Runtime) : Outcome (Z * Runtime) :=
  if b <? a then Raise ValueError
  else Ok (a + draws rt (cursor rt) mod (b - a + 1),
           mkRuntime (subjects rt) (trace rt) (draws rt) (S (cursor rt))).

(** The two [Subject()] default values of the dataclass fields
    [Score.score_changed] and [GameState.game_over_subject] are evaluated
    once, when the class bodies run at import: the first and the second
    [Subject] object of the process. *)
Definition Score_score_changed_default : SubjectRef := 0%nat.
Definition GameState_game_over_subject_default : SubjectRef := 1%nat.

(** The process after [snake.py] has been imported. *)
Definition Runtime_init (draws : nat -> Z) : Runtime :=
  let rt0 := mkRuntime [] [] draws 0%nat in
  let '(rt1, _) := Subject_new rt0 in
  let '(rt2, _) := Subject_new rt1 in
  rt2.

(** [Score()] and [GameState()] *)
Definition Score_new : Score := mkScore 0 Score_score_changed_default.
Definition GameState_new : GameState :=
  mkGameState false GameState_game_over_subject_default.

(** ** ECS core *)

Record Entity := mkEntity { id : Z; components : gmap Kind Component }.

(** The system objects: [InputSystem], [MovementSystem], [CollisionSystem].
    Only the input system has an attribute. *)
Inductive System : Type :=
  | InputSystem (pending_direction : option Direction)
  | MovementSystem
  | CollisionSystem.

(** [World].  Its [components] dictionary is the field [store] here (an
    entity has a field of that name too): per kind, the entity ids in
    insertion order, each with the component object that the entity's own
    dictionary holds as well. *)
Record World := mkWorld {
  entities : gmap Z Entity;
  next_entity_id : Z;
  store : gmap Kind (list (Z * Component));
  systems : list System
}.

(** [d[k] = v] on an insertion-ordered dictionary: an existing key keeps its
    place. *)
Fixpoint assoc_set (k : Z) (v : Component) (d : list (Z * Component))
  : list (Z * Component) :=
  match d with
  | [] => [(k, v)]
  | (k', v') :: rest =>
      if k' =? k then (k, v) :: rest else (k', v') :: assoc_set k v rest
  end.

(** A system assigns to an attribute of a component it looked up.  The
    object is the one held by both dictionaries of the world, so the new
    state is seen through both.  (Each component object is attached to one
    entity, as [SnakeGame] does.) *)
Definition mutate (w : World) (entity_id : Z) (c : Component) : World :=
  {| entities :=
       alter (fun e => mkEntity (id e) (<[type c := c]> (components e)))
             entity_id (entities w);
     next_entity_id := next_entity_id w;
     store := alter (assoc_set entity_id c) (type c) (store w);
     systems := systems w |}.

(** The system object at index [i] of [world.systems] gets a new state. *)
Definition set_system (w : World) (i : nat) (s : System) : World :=
  {| entities := entities w; next_entity_id := next_entity_id w;
     store := store w; systems := <[i := s]> (systems w) |}.

(** [for x in xs: body], where the body may raise. *)
Fixpoint for_each {S : Type} (xs : list Z) (f : Z -> S -> Outcome S) (s : S)
  : Outcome S :=
  match xs with
  | [] => Ok s
  | i :: rest => s' ← f i s; for_each rest f s'
  end.

Module World.

(** [World()] *)
Definition __init__ : World :=
  {| entities := ∅; next_entity_id := 0; store := ∅; systems := [] |}.

Definition create_entity (w : World) : World * Z :=
  let entity_id := next_entity_id w in
  ({| entities := <[entity_id := mkEntity entity_id ∅]> (entities w);
      next_entity_id := next_entity_id w + 1;
      store := store w;
      systems := systems w |}, entity_id).

Definition add_component (w : World) (entity_id : Z) (component : Component)
  : Outcome World :=
  let component_type := type component in
  match entities w !! entity_id with
  | None => Raise KeyError
  | Some e =>
      let e' := mkEntity (id e) (<[component_type := component]> (components e)) in
      let d := default [] (store w !! component_type) in
      Ok {| entities := <[entity_id := e']> (entities w);
            next_entity_id := next_entity_id w;
            store := <[component_type := assoc_set entity_id component d]> (store w);
            systems := systems w |}
  end.

(** [self.entities[entity_id].components.get(component_type)] *)
Definition get_component (w : World) (entity_id : Z) (component_type : Kind)
  : Outcome (option Component) :=
  match entities w !! entity_id with
  | None => Raise KeyError
  | Some e => Ok (components e !! component_type)
  end.

Definition get_entities_with_component (w : World) (component_type : Kind)
  : list Z :=
  (default [] (store w !! component_type)).*1.

Definition add_system (w : World) (s : System) : World :=
  {| entities := entities w; next_entity_id := next_entity_id w;
     store := store w; systems := systems w ++ [s] |}.

(** [for system in self.systems: system.update(self, dt)], from index [i]
    on; [system_update] is the method the system object dispatches to.  No
    system reads [dt]. *)
Fixpoint run_systems
    (system_update : nat -> System -> World * Runtime -> Outcome (World * Runtime))
    (i : nat) (ss : list System) (st : World * Runtime)
  : Outcome (World * Runtime) :=
  match ss with
  | [] => Ok st
  | s :: rest =>
      st' ← system_update i s st; run_systems system_update (S i) rest st'
  end.

Definition update
    (system_update : nat -> System -> World * Runtime -> Outcome (World * Runtime))
    (w : World) (rt : Runtime) : Outcome (World * Runtime) :=
  run_systems system_update 0%nat (systems w) (w, rt).

End World.

(** ** Game systems *)

(** [a % n] *)
Definition pymod (a n : Z) : Outcome Z :=
  if n =? 0 then Raise ZeroDivisionError else Ok (a mod n).

(** [snake.body[0]] *)
Definition body_head (s : Snake) : Outcome Cell :=
  match body s with
  | [] => Raise IndexError
  | h :: _ => Ok h
  end.

Module MovementSystem.

(** The new head cell.  The velocity and the grid are the looked-up values;
    their attributes are read in source order. *)
Definition new_head (velocity_o grid_o : option Component) (head : Cell)
  : Outcome Cell :=
  velocity ← as_velocity velocity_o;
  match direction velocity with
  | UP =>
      grid ← as_grid grid_o;
      y' ← pymod (snd head - 1) (height grid); Ok (fst head, y')
  | DOWN =>
      grid ← as_grid grid_o;
      y' ← pymod (snd head + 1) (height grid); Ok (fst head, y')
  | LEFT =>
      grid ← as_grid grid_o;
      x' ← pymod (fst head - 1) (width grid); Ok (x', snd head)
  | RIGHT =>
      grid ← as_grid grid_o;
      x' ← pymod (fst head + 1) (width grid); Ok (x', snd head)
  end.

(** The body of the loop over the entities with a snake. *)
Definition update_entity (entity_id : Z) (w : World) : Outcome World :=
  snake_o ← World.get_component w entity_id KSnake;
  velocity_o ← World.get_component w entity_id KVelocity;
  grid_o ← World.get_component w entity_id KGrid;
  (* Move the snake *)
  snake ← as_snake snake_o;
  head ← body_head snake;
  nh ← new_head velocity_o grid_o head;
  let inserted := nh :: body snake in
  let snake' :=
    if growth_pending snake >? 0
    then mkSnake inserted (growth_pending snake - 1)
    else mkSnake (removelast inserted) (growth_pending snake) in
  Ok (mutate w entity_id (CSnake snake')).

Definition update (w : World) : Outcome World :=
  for_each (World.get_entities_with_component w KSnake) update_entity w.

End MovementSystem.

Module CollisionSystem.

(** One pass of the [while True] loop of [_respawn_food], and [fuel] more. *)
Fixpoint respawn_loop (fuel : nat) (snake_o food_o grid_o : option Component)
    (w : World) (entity_id : Z) (rt : Runtime) : Outcome (World * Runtime) :=
  grid ← as_grid grid_o;
  '(new_x, rt1) ← randint 0 (width grid - 1) rt;
  '(new_y, rt2) ← randint 0 (height grid - 1) rt1;
  snake ← as_snake snake_o;
  if negb (cell_in (new_x, new_y) (body snake)) then
    _ ← as_food food_o;
    Ok (mutate w entity_id (CFood (mkFood (mkPosition new_x new_y))), rt2)
  else
    match fuel with
    | O => Diverge
    | S fuel' => respawn_loop fuel' snake_o food_o grid_o w entity_id rt2
    end.

Definition _respawn_food (fuel : nat) (w : World) (entity_id : Z)
    (rt : Runtime) : Outcome (World * Runtime) :=
  snake_o ← World.get_component w entity_id KSnake;
  food_o ← World.get_component w entity_id KFood;
  grid_o ← World.get_component w entity_id KGrid;
  respawn_loop fuel snake_o food_o grid_o w entity_id rt.

(** The body of the loop over the entities with a snake. *)
Definition update_entity (fuel : nat) (entity_id : Z) (st : World * Runtime)
  : Outcome (World * Runtime) :=
  let '(w, rt) := st in
  snake_o ← World.get_component w entity_id KSnake;
  food_o ← World.get_component w entity_id KFood;
  score_o ← World.get_component w entity_id KScore;
  game_state_o ← World.get_component w entity_id KGameState;
  (* Check for collision with food *)
  snake ← as_snake snake_o;
  head ← body_head snake;
  food ← as_food food_o;
  '(snake, w, rt) ←
    (if Cell_eqb head (x (position food), y (position food)) then
       let snake := mkSnake (body snake) (growth_pending snake + 1) in
       let w := mutate w entity_id (CSnake snake) in
       score ← as_score score_o;
       let score := mkScore (value score + 1) (score_changed score) in
       let w := mutate w entity_id (CScore score) in
       let rt := on_next (score_changed score) (VInt (value score)) rt in
       '(w, rt) ← _respawn_food fuel w entity_id rt;
       Ok (snake, w, rt)
     else Ok (snake, w, rt));
  (* Check for collision with self *)
  head ← body_head snake;
  if cell_in head (tail (body snake)) then
    game_state ← as_game_state game_state_o;
    let game_state := mkGameState true (game_over_subject game_state) in
    let w := mutate w entity_id (CGameState game_state) in
    Ok (w, on_next (game_over_subject game_state) (VBool true) rt)
  else Ok (w, rt).

Definition update (fuel : nat) (st : World * Runtime)
  : Outcome (World * Runtime) :=
  for_each (World.get_entities_with_component (fst st) KSnake)
           (update_entity fuel) st.

End CollisionSystem.

Module InputSystem.

(** [InputSystem()] *)
Definition __init__ : System := InputSystem None.

(** [self.pending_direction = direction]: the new state of the object. *)
Definition set_direction (d : Direction) : System := InputSystem (Some d).

(** The test that prevents 180-degree turns. *)
Definition turn_allowed (pending current : Direction) : bool :=
  (Direction_eqb pending UP && negb (Direction_eqb current DOWN))
  || (Direction_eqb pending DOWN && negb (Direction_eqb current UP))
  || (Direction_eqb pending LEFT && negb (Direction_eqb current RIGHT))
  || (Direction_eqb pending RIGHT && negb (Direction_eqb current LEFT)).

(** The body of the loop over the entities with a velocity. *)
Definition update_entity (pending : Direction) (entity_id : Z) (w : World)
  : Outcome World :=
  velocity_o ← World.get_component w entity_id KVelocity;
  velocity ← as_velocity velocity_o;
  if turn_allowed pending (direction velocity)
  then Ok (mutate w entity_id (CVelocity (mkVelocity pending)))
  else Ok w.

(** Returns the new [self.pending_direction] too. *)
Definition update (pending_direction : option Direction) (w : World)
  : Outcome (option Direction * World) :=
  match pending_direction with
  | Some d =>
      w' ← for_each (World.get_entities_with_component w KVelocity)
                    (update_entity d) w;
      Ok (None, w')
  | None => Ok (None, w)
  end.

End InputSystem.

(** ** The world's tick and the game session *)

(** [system.update(world, dt)] for the system object at index [i]. *)
Definition System_update (fuel : nat) (i : nat) (s : System)
    (st : World * Runtime) : Outcome (World * Runtime) :=
  match s with
  | InputSystem pending_direction =>
      '(pending', w) ← InputSystem.update pending_direction (fst st);
      Ok (set_system w i (InputSystem pending'), snd st)
  | MovementSystem =>
      w ← MovementSystem.update (fst st); Ok (w, snd st)
  | CollisionSystem => CollisionSystem.update fuel st
  end.

(** A [SnakeGame] object: its world, and its [input_system] attribute, which
    is the object at that index of [world.systems]. *)
Record SnakeGame := mkSnakeGame { world : World; input_system : nat }.

Module SnakeGame.

Definition __init__ (fuel : nat) (width height : Z) (rt : Runtime)
  : Outcome (SnakeGame * Runtime) :=
  let w := World.__init__ in
  let input_system := length (systems w) in
  (* Create systems *)
  let w := World.add_system w InputSystem.__init__ in
  let w := World.add_system w MovementSystem in
  let w := World.add_system w CollisionSystem in
  (* Create game entity *)
  let '(w, game_entity) := World.create_entity w in
  w ← World.add_component w game_entity (CGrid (mkGrid width height));
  w ← World.add_component w game_entity
        (CSnake (mkSnake [(width `div` 2, height `div` 2)] 0));
  w ← World.add_component w game_entity (CVelocity (mkVelocity RIGHT));
  w ← World.add_component w game_entity (CFood (mkFood (mkPosition 0 0)));
  w ← World.add_component w game_entity (CScore Score_new);
  w ← World.add_component w game_entity (CGameState GameState_new);
  (* Spawn initial food *)
  '(w, rt) ← CollisionSystem._respawn_food fuel w game_entity rt;
  Ok (mkSnakeGame w input_system, rt).

Definition update (fuel : nat) (g : SnakeGame) (rt : Runtime)
  : Outcome (SnakeGame * Runtime * bool) :=
  '(w, rt) ← World.update (System_update fuel) (world g) rt;
  game_state_o ← World.get_component w 0 KGameState;
  game_state ← as_game_state game_state_o;
  Ok (mkSnakeGame w (input_system g), rt, is_game_over game_state).

Definition set_direction (g : SnakeGame) (d : Direction) : SnakeGame :=
  mkSnakeGame
    (set_system (world g) (input_system g) (InputSystem.set_direction d))
    (input_system g).

End SnakeGame.

(** ** Sessions in canonical form

    The world of a session: one entity, [0], with one component of each
    kind, and the three systems in their fixed order. *)
Definition game_world (grid : Grid) (snake : Snake) (velocity : Velocity)
    (food : Food) (score : Score) (game_state : GameState)
    (pending : option Direction) : World :=
  {| entities :=
       {[ 0 := mkEntity 0
                 (<[KGameState := CGameState game_state]>
                 (<[KScore := CScore score]>
                 (<[KFood := CFood food]>
                 (<[KVelocity := CVelocity velocity]>
                 (<[KSnake := CSnake snake]>
                 (<[KGrid := CGrid grid]> ∅)))))) ]};
     next_entity_id := 1;
     store :=
       <[KGameState := [(0, CGameState game_state)]]>
       (<[KScore := [(0, CScore score)]]>
       (<[KFood := [(0, CFood food)]]>
       (<[KVelocity := [(0, CVelocity velocity)]]>
       (<[KSnake := [(0, CSnake snake)]]>
       (<[KGrid := [(0, CGrid grid)]]> ∅)))));
     systems := [InputSystem pending; MovementSystem; CollisionSystem] |}.

Definition session (grid : Grid) (snake : Snake) (velocity : Velocity)
    (food : Food) (score : Score) (game_state : GameState)
    (pending : option Direction) : SnakeGame :=
  mkSnakeGame (game_world grid snake velocity food score game_state pending) 0.

(** The session's components, read the way the driver reads them:
    [game.world.get_component(0, kind)]. *)
Definition the_grid (g : SnakeGame) : Outcome Grid :=
  o ← World.get_component (world g) 0 KGrid; as_grid o.
Definition the_snake (g : SnakeGame) : Outcome Snake :=
  o ← World.get_component (world g) 0 KSnake; as_snake o.
Definition the_velocity (g : SnakeGame) : Outcome Velocity :=
  o ← World.get_component (world g) 0 KVelocity; as_velocity o.
Definition the_food (g : SnakeGame) : Outcome Food :=
  o ← World.get_component (world g) 0 KFood; as_food o.
Definition the_score (g : SnakeGame) : Outcome Score :=
  o ← World.get_component (world g) 0 KScore; as_score o.
Definition the_game_state (g : SnakeGame) : Outcome GameState :=
  o ← World.get_component (world g) 0 KGameState; as_game_state o.
(** [game.input_system.pending_direction] *)
Definition the_pending (g : SnakeGame) : Outcome (option Direction) :=
  match systems (world g) !! input_system g with
  | Some (InputSystem p) => Ok p
  | Some _ => Raise AttributeError
  | None => Raise IndexError
  end.

(** What the driver does between two ticks: it may call [set_direction]. *)
Definition steer (i : option Direction) (g : SnakeGame) : SnakeGame :=
  match i with
  | Some d => SnakeGame.set_direction g d
  | None => g
  end.

(** The driver's loop: steer, then tick.  (The terminal driver stops at the
    first tick that reports game over; this one keeps calling.) *)
Fixpoint drive (fuel : nat) (inputs : list (option Direction))
    (st : SnakeGame * Runtime) : Outcome (SnakeGame * Runtime) :=
  match inputs with
  | [] => Ok st
  | i :: rest =>
      '(g', rt', _) ← SnakeGame.update fuel (steer i (fst st)) (snd st);
      drive fuel rest (g', rt')
  end.

(** How often [on_next] was called on a subject. *)
Fixpoint emissions (s : SubjectRef) (tr : list Event) : nat :=
  match tr with
  | [] => 0
  | Emitted s' _ :: rest =>
      if Nat.eqb s' s then S (emissions s rest) else emissions s rest
  | Delivered _ _ _ :: rest => emissions s rest
  end.

(** What an observer received, oldest first. *)
Fixpoint received (o : Observer) (tr : list Event) : list PyValue :=
  match tr with
  | [] => []
  | Delivered _ o' v :: rest =>
      if Nat.eqb o' o then v :: received o rest else received o rest
  | Emitted _ _ :: rest => received o rest
  end.

(** ** Pure descriptions of one tick on a canonical session

    These say in closed form what the systems do to the game entity of a
    session when nothing raises; the lemmas [InputSystem_update_canon],
    [MovementSystem_update_canon], [CollisionSystem_update_canon] and
    [SnakeGame_update_canon] below prove that the systems compute them. *)

(** The 180-degree reverse of a heading. *)
Definition opposite (d : Direction) : Direction :=
  match d with UP => DOWN | DOWN => UP | LEFT => RIGHT | RIGHT => LEFT end.

(** One cell further in heading [d], wrapping on each axis. *)
Definition step_cell (d : Direction) (g : Grid) (head : Cell) : Cell :=
  match d with
  | UP => (fst head, (snd head - 1) mod height g)
  | DOWN => (fst head, (snd head + 1) mod height g)
  | LEFT => ((fst head - 1) mod width g, snd head)
  | RIGHT => ((fst head + 1) mod width g, snd head)
  end.

(** The velocity after the input system has consumed the pending slot. *)
Definition turned (p : option Direction) (v : Velocity) : Velocity :=
  match p with
  | Some d => if InputSystem.turn_allowed d (direction v) then mkVelocity d else v
  | None => v
  end.

(** The snake after the movement system: new head in front, and either one
    pending growth used up or the tail removed. *)
Definition moved (g : Grid) (v : Velocity) (s : Snake) : Snake :=
  match body s with
  | [] => s
  | h :: _ =>
      let inserted := step_cell (direction v) g h :: body s in
      if growth_pending s >? 0
      then mkSnake inserted (growth_pending s - 1)
      else mkSnake (removelast inserted) (growth_pending s)
  end.

(** [(food.position.x, food.position.y)] *)
Definition food_cell (f : Food) : Cell := (x (position f), y (position f)).

(** [snake.body[0] == (food.position.x, food.position.y)] *)
Definition eats (s : Snake) (f : Food) : bool :=
  match body s with
  | [] => false
  | h :: _ => Cell_eqb h (food_cell f)
  end.

(** [snake.body[0] in snake.body[1:]] *)
Definition self_hit (s : Snake) : bool :=
  match body s with
  | [] => false
  | h :: t => cell_in h t
  end.

(** The cell the respawn loop settles on: the loop of [_respawn_food] without
    the world. *)
Fixpoint respawn_cell (fuel : nat) (g : Grid) (cells : list Cell) (rt : Runtime)
  : Outcome (Cell * Runtime) :=
  '(new_x, rt1) ← randint 0 (width g - 1) rt;
  '(new_y, rt2) ← randint 0 (height g - 1) rt1;
  if negb (cell_in (new_x, new_y) cells) then Ok ((new_x, new_y), rt2)
  else
    match fuel with
    | O => Diverge
    | S fuel' => respawn_cell fuel' g cells rt2
    end.

(** [Food(Position(c[0], c[1]))] *)
Definition food_at (c : Cell) : Food := mkFood (mkPosition (fst c) (snd c)).

(** [snake.growth_pending += 1] *)
Definition fed (s : Snake) : Snake := mkSnake (body s) (growth_pending s + 1).

(** [score.value += 1] *)
Definition scored (sc : Score) : Score :=
  mkScore (value sc + 1) (score_changed sc).

(** [game_state.is_game_over = True] *)
Definition ended (gs : GameState) : GameState :=
  mkGameState true (game_over_subject gs).

(** What the collision system does to the game entity of a session. *)
Definition collide (fuel : nat) (g : Grid) (s : Snake) (f : Food) (sc : Score)
    (gs : GameState) (rt : Runtime)
  : Outcome (Snake * Food * Score * GameState * Runtime) :=
  '(s1, f1, sc1, rt1) ←
    (if eats s f then
       let rt1 := on_next (score_changed sc) (VInt (value sc + 1)) rt in
       '(c, rt2) ← respawn_cell fuel g (body s) rt1;
       Ok (fed s, food_at c, scored sc, rt2)
     else Ok (s, f, sc, rt));
  if self_hit s1
  then Ok (s1, f1, sc1, ended gs,
           on_next (game_over_subject gs) (VBool true) rt1)
  else Ok (s1, f1, sc1, gs, rt1).

(** One [SnakeGame.update] on a canonical session. *)
Definition tick (fuel : nat) (g : Grid) (s : Snake) (v : Velocity) (f : Food)
    (sc : Score) (gs : GameState) (p : option Direction) (rt : Runtime)
  : Outcome (SnakeGame * Runtime * bool) :=
  let v1 := turned p v in
  '(s2, f2, sc2, gs2, rt2) ← collide fuel g (moved g v1 s) f sc gs rt;
  Ok (session g s2 v1 f2 sc2 gs2 None, rt2, is_game_over gs2).

(** ** Notions used in the statements *)

(** [rt'] is [rt] after some draws: channels and trace are untouched. *)
Definition only_drew (rt rt' : Runtime) : Prop :=
  subjects rt' = subjects rt /\ trace rt' = trace rt /\
  draws rt' = draws rt /\ (cursor rt <= cursor rt')%nat.

(** The cell drawn by pass [k] of the loop (passes are numbered from 0). *)
Definition drawn_cell (g : Grid) (rt : Runtime) (k : nat) : Cell :=
  (draws rt (cursor rt + 2 * k)%nat mod width g,
   draws rt (cursor rt + 2 * k + 1)%nat mod height g).

(** The process after [n] more draws. *)
Definition after_draws (rt : Runtime) (n : nat) : Runtime :=
  mkRuntime (subjects rt) (trace rt) (draws rt) (cursor rt + n)%nat.

(** What every play keeps true of a session on grid [g]; [base] is the
    number of score notifications there were before the session started. *)
Definition playing (g : Grid) (base : nat) (G : SnakeGame) (rt : Runtime)
  : Prop :=
  exists s v f sc gs p,
    G = session g s v f sc gs p /\
    body s ≠ [] /\ 0 <= growth_pending s <= 1 /\
    score_changed sc = Score_score_changed_default /\
    game_over_subject gs = GameState_game_over_subject_default /\
    (length (body s) + Z.to_nat (growth_pending s) + base)%nat
    = (1 + emissions Score_score_changed_default (trace rt))%nat /\
    value sc + Z.of_nat base
    = Z.of_nat (emissions Score_score_changed_default (trace rt)).

(** ** Worlds built through the interface *)

(** Every entity id in use is below the next id to be handed out. *)
Definition ids_below (w : World) : Prop :=
  forall entity_id, is_Some (entities w !! entity_id) ->
                    entity_id < next_entity_id w.

(** What can be made of [World()] with the methods of [World] and by
    assigning to the attributes of components that are attached. *)
Inductive built : World -> Prop :=
  | built_init : built World.__init__
  | built_create_entity w : built w -> built (World.create_entity w).1
  | built_add_component w entity_id c w' :
      built w -> World.add_component w entity_id c = Ok w' -> built w'
  | built_add_system w s : built w -> built (World.add_system w s)
  | built_set_system w i s : built w -> built (set_system w i s)
  | built_mutate w entity_id c c0 :
      built w ->
      World.get_component w entity_id (type c) = Ok (Some c0) ->
      built (mutate w entity_id c).

(** The two dictionaries of a world agree: a kind's store lists an id with
    a component exactly when the entity of that id holds that component
    under that kind, once; and an entity is stored under its own id. *)
Definition indexed (w : World) : Prop :=
  (forall k, NoDup (default [] (store w !! k)).*1) /\
  (forall k entity_id c,
     (entity_id, c) ∈ default [] (store w !! k) <->
     exists e, entities w !! entity_id = Some e /\ components e !! k = Some c) /\
  (forall entity_id e, entities w !! entity_id = Some e -> id e = entity_id).

(** Every component is stored under its own class. *)
Definition well_keyed (w : World) : Prop :=
  forall entity_id e k c,
    entities w !! entity_id = Some e -> components e !! k = Some c ->
    type c = k.

(** [w'] differs from [w] at most in components of the given kinds: every
    other lookup, the ids in use, the next id and the systems are the same. *)
Definition touches_only (kinds : list Kind) (w w' : World) : Prop :=
  (forall j k, k ∉ kinds ->
     World.get_component w' j k = World.get_component w j k) /\
  (forall j, is_Some (entities w' !! j) <-> is_Some (entities w !! j)) /\
  next_entity_id w' = next_entity_id w /\ systems w' = systems w.


(** A world whose one entity has a snake and a food and nothing else: what
    [create_entity] and two calls of [add_component] make of [World()]. *)
Definition lone_snake (s : Snake) (f : Food) : World :=
  {| entities :=
       {[ 0 := mkEntity 0 (<[KFood := CFood f]> (<[KSnake := CSnake s]> ∅)) ]};
     next_entity_id := 1;
     store := <[KFood := [(0, CFood f)]]> (<[KSnake := [(0, CSnake s)]]> ∅);
     systems := [] |}.

(** A cell of the grid. *)
Definition in_grid (g : Grid) (c : Cell) : Prop :=
  0 <= fst c < width g /\ 0 <= snd c < height g.

(** What every play keeps true of the cells of a session on grid [g]: body
    and food are inside the grid, the food is on no body cell, and the body
    does not overlap itself unless the game is over. *)
Definition tidy (g : Grid) (G : SnakeGame) : Prop :=
  exists s v f sc gs p,
    G = session g s v f sc gs p /\
    body s ≠ [] /\
    Forall (in_grid g) (body s) /\
    in_grid g (food_cell f) /\
    ~ In (food_cell f) (body s) /\
    (is_game_over gs = false -> NoDup (body s)).

(** ** Game UI *)

(** What the UI does to the terminal: [os.system('clear')] (or ['cls']),
    [print(line)], and the prompt that [input(text)] writes. *)
Inductive Output : Set :=
  | Clear
  | Print (line : string)
  | Prompt (text : string).

(** The position that index [i] means in a Python list of length [len]:
    negative indices count from the end, anything else raises. *)
Definition py_index (len : nat) (i : Z) : Outcome nat :=
  if (0 <=? i) && (i <? Z.of_nat len) then Ok (Z.to_nat i)
  else if (- Z.of_nat len <=? i) && (i <? 0) then Ok (Z.to_nat (Z.of_nat len + i))
  else Raise IndexError.

(** [l[i]] *)
Definition getitem {A : Type} (l : list A) (i : Z) : Outcome A :=
  n ← py_index (length l) i;
  match l !! n with
  | Some a => Ok a
  | None => Raise IndexError
  end.

(** [l[i] = a] *)
Definition setitem {A : Type} (l : list A) (i : Z) (a : A) : Outcome (list A) :=
  n ← py_index (length l) i; Ok (<[n := a]> l).

(** [grid[c[1]][c[0]] = ch].  The rows are list objects of their own, so
    only the row looked up changes. *)
Definition paint (grid : list (list Ascii.ascii)) (c : Cell) (ch : Ascii.ascii)
  : Outcome (list (list Ascii.ascii)) :=
  row ← getitem grid (snd c);
  row' ← setitem row (fst c) ch;
  setitem grid (snd c) row'.

(** [for segment in cells: grid[segment[1]][segment[0]] = ch] *)
Fixpoint paint_all (grid : list (list Ascii.ascii)) (cells : list Cell) (ch : Ascii.ascii)
  : Outcome (list (list Ascii.ascii)) :=
  match cells with
  | [] => Ok grid
  | c :: rest => grid' ← paint grid c ch; paint_all grid' rest ch
  end.

(** A [SnakeGameUI] object; its [width] and [height] attributes are
    [ui_width] and [ui_height] here (the grid has fields of those names). *)
Record SnakeGameUI := mkSnakeGameUI {
  game : SnakeGame;
  ui_width : Z;
  ui_height : Z
}.

Module SnakeGameUI.

Definition __init__ (fuel : nat) (width height : Z) (rt : Runtime)
  : Outcome (SnakeGameUI * Runtime) :=
  '(g, rt) ← SnakeGame.__init__ fuel width height rt;
  Ok (mkSnakeGameUI g width height, rt).

(** [render]: what it sends to the terminal.  (Of a call that raises,
    nothing is recorded.) *)
Definition render (self : SnakeGameUI) : Outcome (list Output) :=
  let grid :=
    replicate (Z.to_nat (ui_height self))
      (replicate (Z.to_nat (ui_width self)) "."%char) in
  snake_o ← World.get_component (world (game self)) 0 KSnake;
  food_o ← World.get_component (world (game self)) 0 KFood;
  score_o ← World.get_component (world (game self)) 0 KScore;
  snake ← as_snake snake_o;
  grid ← paint_all grid (body snake) "O"%char;
  head ← body_head snake;
  grid ← paint grid head "@"%char;
  food ← as_food food_o;
  grid ← paint grid (x (position food), y (position food)) "F"%char;
  score ← as_score score_o;
  Ok (Clear
        :: Print ("Score: " +:+ pretty (value score))
        :: map (fun row => Print (String.string_of_list_ascii row)) grid).

End SnakeGameUI.

(** The character the screen shows for a cell: the food, else the head,
    else the rest of the body, else empty. *)
Definition glyph (s : Snake) (f : Food) (c : Cell) : Ascii.ascii :=
  if Cell_eqb c (food_cell f) then "F"%char
  else if match body s with h :: _ => Cell_eqb c h | [] => false end
       then "@"%char
  else if cell_in c (body s) then "O"%char
  else "."%char.

(** The rows of a screen of [w] by [h] cells. *)
Definition screen_rows (w h : Z) (pic : Cell -> Ascii.ascii) : list string :=
  map (fun y => String.string_of_list_ascii (map (fun x => pic (x, y)) (seqZ 0 w)))
      (seqZ 0 h).

(** A grid of [h] rows of [w] characters that shows [pic]. *)
Definition shows (w h : nat) (grid : list (list Ascii.ascii))
    (pic : Cell -> Ascii.ascii) : Prop :=
  length grid = h /\
  forall y row, grid !! y = Some row ->
    length row = w /\
    forall x, (x < w)%nat -> row !! x = Some (pic (Z.of_nat x, Z.of_nat y)).

(** The two observers that [start] subscribes:
    [lambda s: print(f"Score: {s}")] and [lambda _: print("Game Over!")]. *)
Inductive Callback : Set := PrintScore | PrintGameOver.

(** The process as the UI sees it: the channels and the random source, the
    observer objects made so far (an observer's reference is its position),
    what was sent to the terminal, oldest first, and the lines the user
    types, with the number of lines read. *)
Record Process := mkProcess {
  runtime : Runtime;
  callbacks : list Callback;
  stdout : list Output;
  keys : nat -> string;
  typed : nat
}.

(** A process that has imported the module and done nothing else. *)
Definition Process_init (draws : nat -> Z) (keys : nat -> string) : Process :=
  mkProcess (Runtime_init draws) [] [] keys 0.

Definition with_runtime (p : Process) (rt : Runtime) : Process :=
  mkProcess rt (callbacks p) (stdout p) (keys p) (typed p).

(** Output is appended to the terminal. *)
Definition emit (p : Process) (out : list Output) : Process :=
  mkProcess (runtime p) (callbacks p) (stdout p ++ out) (keys p) (typed p).

(** [subject.subscribe(lambda ...)]: a new observer object, subscribed. *)
Definition subscribe_callback (s : SubjectRef) (cb : Callback) (p : Process)
  : Process :=
  mkProcess (subscribe s (length (callbacks p)) (runtime p))
            (callbacks p ++ [cb]) (stdout p) (keys p) (typed p).

(** [f"{v}"] *)
Definition format (v : PyValue) : string :=
  match v with
  | VInt z => pretty z
  | VBool true => "True"
  | VBool false => "False"
  end.

(** What an event makes the observers print. *)
Definition say (cbs : list Callback) (ev : Event) : list Output :=
  match ev with
  | Delivered _ o v =>
      match cbs !! o with
      | Some PrintScore => [Print ("Score: " +:+ format v)]
      | Some PrintGameOver => [Print "Game Over!"]
      | None => []
      end
  | Emitted _ _ => []
  end.

(** [self.game.update()] in the process: the observers print while it
    runs. *)
Definition update_in (fuel : nat) (g : SnakeGame) (p : Process)
  : Outcome (SnakeGame * Process * bool) :=
  '(g', rt', is_game_over) ← SnakeGame.update fuel g (runtime p);
  let news := drop (length (trace (runtime p))) (trace rt') in
  Ok (g', emit (with_runtime p rt') (concat (map (say (callbacks p)) news)),
      is_game_over).

(** [str.lower()], on the letters A to Z.  (No other character lowers to
    one of the five letters the UI tests for.) *)
Definition lower_char (c : Ascii.ascii) : Ascii.ascii :=
  let n := Ascii.N_of_ascii c in
  if (65 <=? n)%N && (n <=? 90)%N then Ascii.ascii_of_N (n + 32) else c.

Fixpoint lower (s : string) : string :=
  match s with
  | EmptyString => EmptyString
  | String c rest => String (lower_char c) (lower rest)
  end.

(** [{'w': UP, 'a': LEFT, 's': DOWN, 'd': RIGHT}[key]] for a key of that
    list, and no direction for any other key. *)
Definition key_direction (key : string) : option Direction :=
  if String.eqb key "w" then Some UP
  else if String.eqb key "a" then Some LEFT
  else if String.eqb key "s" then Some DOWN
  else if String.eqb key "d" then Some RIGHT
  else None.

Definition prompt : string := "Enter direction (w/a/s/d) or q to quit: ".

Module UI.

(** The game loop of [start]: at most [rounds] rounds. *)
Fixpoint loop (rounds fuel : nat) (self : SnakeGameUI) (p : Process)
  : Outcome (SnakeGameUI * Process) :=
  match rounds with
  | O => Diverge
  | S rounds' =>
      out ← SnakeGameUI.render self;
      let p := emit p out in
      let p := emit p [Prompt prompt] in
      let key := lower (keys p (typed p)) in
      let p := mkProcess (runtime p) (callbacks p) (stdout p) (keys p)
                 (S (typed p)) in
      if String.eqb key "q" then Ok (self, p)
      else
        let g := match key_direction key with
                 | Some direction => SnakeGame.set_direction (game self) direction
                 | None => game self
                 end in
        '(g, p, is_game_over) ← update_in fuel g p;
        let self := mkSnakeGameUI g (ui_width self) (ui_height self) in
        if is_game_over : bool then
          out ← SnakeGameUI.render self;
          Ok (self, emit (emit p out) [Print "Game Over!"])
        else loop rounds' fuel self p
  end.

(** [SnakeGameUI.start] *)
Definition start (rounds fuel : nat) (self : SnakeGameUI) (p : Process)
  : Outcome (SnakeGameUI * Process) :=
  (* Set up reactive subscribers *)
  score_o ← World.get_component (world (game self)) 0 KScore;
  score ← as_score score_o;
  let p := subscribe_callback (score_changed score) PrintScore p in
  game_state_o ← World.get_component (world (game self)) 0 KGameState;
  game_state ← as_game_state game_state_o;
  let p := subscribe_callback (game_over_subject game_state) PrintGameOver p in
  (* Start the game loop *)
  loop rounds fuel self p.

(** [game_ui = SnakeGameUI(w, h); game_ui.start()] in a new process. *)
Definition run (rounds fuel : nat) (width height : Z) (draws : nat -> Z)
    (keys : nat -> string) : Outcome (SnakeGameUI * Process) :=
  '(ui, rt) ← SnakeGameUI.__init__ fuel width height (Runtime_init draws);
  start rounds fuel ui (with_runtime (Process_init draws keys) rt).

End UI.

(** The lines of a list, then empty lines. *)
Definition typing (l : list string) : nat -> string := fun n => nth n l "".

(** The directions that the typed lines [from], ..., [from + n - 1] ask
    for, as [start] reads them. *)
Definition typed_inputs (keys : nat -> string) (from n : nat)
  : list (option Direction) :=
  map (fun k => key_direction (lower (keys k))) (seq from n).

(** How often a line was printed. *)
Fixpoint printed (line : string) (out : list Output) : nat :=
  match out with
  | [] => 0
  | Print s :: rest =>
      if String.eqb s line then S (printed line rest) else printed line rest
  | _ :: rest => printed line rest
  end.

(** A session in play under [start] on a grid of [w] by [h]: the session is
    not over, and the two observers of [start] are the subscribers. *)
Definition in_play (w h : Z) (base : nat) (G : SnakeGame) (p : Process)
  : Prop :=
  tidy (mkGrid w h) G /\ playing (mkGrid w h) base G (runtime p) /\
  (exists gs, the_game_state G = Ok gs /\ is_game_over gs = false) /\
  callbacks p = [PrintScore; PrintGameOver] /\
  subjects (runtime p) = [[0%nat]; [1%nat]].

(** The process after [render] and [input] in a round of the loop. *)
Definition prompted (p : Process) (screen : list Output) : Process :=
  mkProcess (runtime p) (callbacks p)
            ((stdout p ++ screen) ++ [Prompt prompt]) (keys p) (S (typed p)).

(** The process when [start] enters its loop: its two observers, the first
    observer objects of the process, are subscribed to the two channels. *)
Definition subscribed (rt : Runtime) : Runtime :=
  subscribe GameState_game_over_subject_default 1%nat
    (subscribe Score_score_changed_default 0%nat rt).

Definition started (rt : Runtime) (keys : nat -> string) : Process :=
  mkProcess (subscribed rt) [PrintScore; PrintGameOver] [] keys 0.

(** Lines that play the circling game at the terminal: the snake runs
    right for five ticks, then turns down, left and up into its body. *)
Definition circling_lines : list string :=
  [""; "x"; ""; ""; ""; "S"; "a"; "w"; "d"; "q"].

(** ** Concrete plays *)

(** A random source that yields the numbers of a list, then zeros. *)
Definition oracle (l : list Z) : nat -> Z := fun n => nth n l 0.

(** Import the module, construct a session, and drive it. *)
Definition play (fuel : nat) (width height : Z) (l : list Z)
    (inputs : list (option Direction)) : Outcome (SnakeGame * Runtime) :=
  st ← SnakeGame.__init__ fuel width height (Runtime_init (oracle l));
  drive fuel inputs st.

(** On a 5 x 5 grid the snake eats on each of its first four ticks (the food
    is respawned right in front of it), moves on once, then turns Down,
    Left, Up into its own body, and is driven on to the Right. *)
Definition circling_draws : list Z := [3; 2; 4; 2; 0; 2; 1; 2; 0; 0].
Definition circling_inputs : list (option Direction) :=
  [None; None; None; None; None; Some DOWN; Some LEFT; Some UP; Some RIGHT].

(** The session and the process after the first [n] ticks of that play,
    for [n] = 0, 1, 2, 8 and 9. *)
Definition circling_after (n : nat) : SnakeGame :=
  match n with
  | 0%nat =>
      session (mkGrid 5 5) (mkSnake [(2, 2)] 0) (mkVelocity RIGHT)
        (food_at (3, 2)) Score_new GameState_new None
  | 1%nat =>
      session (mkGrid 5 5) (mkSnake [(3, 2)] 1) (mkVelocity RIGHT)
        (food_at (4, 2)) (mkScore 1 Score_score_changed_default)
        GameState_new None
  | 2%nat =>
      session (mkGrid 5 5) (mkSnake [(4, 2); (3, 2)] 1) (mkVelocity RIGHT)
        (food_at (0, 2)) (mkScore 2 Score_score_changed_default)
        GameState_new None
  | 8%nat =>
      session (mkGrid 5 5)
        (mkSnake [(1, 2); (1, 3); (2, 3); (2, 2); (1, 2)] 0) (mkVelocity UP)
        (food_at (0, 0)) (mkScore 4 Score_score_changed_default)
        (mkGameState true GameState_game_over_subject_default) None
  | _ =>
      session (mkGrid 5 5)
        (mkSnake [(2, 2); (1, 2); (1, 3); (2, 3); (2, 2)] 0) (mkVelocity RIGHT)
        (food_at (0, 0)) (mkScore 4 Score_score_changed_default)
        (mkGameState true GameState_game_over_subject_default) None
  end.

Definition circling_runtime (n : nat) : Runtime :=
  match n with
  | 0%nat => mkRuntime [[]; []] [] (oracle circling_draws) 2
  | 1%nat =>
      mkRuntime [[]; []] [Emitted 0%nat (VInt 1)] (oracle circling_draws) 4
  | 2%nat =>
      mkRuntime [[]; []] [Emitted 0%nat (VInt 1); Emitted 0%nat (VInt 2)]
        (oracle circling_draws) 6
  | 8%nat =>
      mkRuntime [[]; []]
        [Emitted 0%nat (VInt 1); Emitted 0%nat (VInt 2);
         Emitted 0%nat (VInt 3); Emitted 0%nat (VInt 4);
         Emitted 1%nat (VBool true)]
        (oracle circling_draws) 10
  | _ =>
      mkRuntime [[]; []]
        [Emitted 0%nat (VInt 1); Emitted 0%nat (VInt 2);
         Emitted 0%nat (VInt 3); Emitted 0%nat (VInt 4);
         Emitted 1%nat (VBool true); Emitted 1%nat (VBool true)]
        (oracle circling_draws) 10
  end.

(** What a driver reads from a session after a play. *)
Definition snapshot (st : SnakeGame * Runtime)
  : Outcome (list Cell * Z * Z * bool * list Event) :=
  s ← the_snake (fst st);
  sc ← the_score (fst st);
  gs ← the_game_state (fst st);
  Ok (body s, growth_pending s, value sc, is_game_over gs, trace (snd st)).

(** Two sessions in one process: an observer subscribes to the score channel
    of the first, then the second is driven. *)
Definition two_sessions (fuel : nat) (l : list Z) (o : Observer)
    (inputs : list (option Direction))
  : Outcome (SnakeGame * SnakeGame * Runtime) :=
  '(a, rt) ← SnakeGame.__init__ fuel 5 5 (Runtime_init (oracle l));
  '(b, rt) ← SnakeGame.__init__ fuel 5 5 rt;
  score_a ← the_score a;
  let rt := subscribe (score_changed score_a) o rt in
  '(b, rt) ← drive fuel inputs (b, rt);
  Ok (a, b, rt).

(** ** Lemmas on the canonical world *)

(** Reduce the binds and the typed views, nothing else. *)
Ltac run_bind :=
  cbn [mbind Outcome_bind mret Outcome_ret as_snake as_grid as_velocity
       as_food as_score as_game_state fst snd].


Section Canonical.
Variables (grid : Grid) (snake : Snake) (velocity : Velocity)
    (food : Food) (score : Score) (game_state : GameState)
    (pending : option Direction).

Let W := game_world grid snake velocity food score game_state pending.

Lemma get_grid : World.get_component W 0 KGrid = Ok (Some (CGrid grid)).
Proof. reflexivity. Qed.
Lemma get_snake : World.get_component W 0 KSnake = Ok (Some (CSnake snake)).
Proof. reflexivity. Qed.
Lemma get_velocity : World.get_component W 0 KVelocity = Ok (Some (CVelocity velocity)).
Proof. reflexivity. Qed.
Lemma get_food : World.get_component W 0 KFood = Ok (Some (CFood food)).
Proof. reflexivity. Qed.
Lemma get_score : World.get_component W 0 KScore = Ok (Some (CScore score)).
Proof. reflexivity. Qed.
Lemma get_game_state :
  World.get_component W 0 KGameState = Ok (Some (CGameState game_state)).
Proof. reflexivity. Qed.

Lemma with_snake : World.get_entities_with_component W KSnake = [0].
Proof. reflexivity. Qed.
Lemma with_velocity : World.get_entities_with_component W KVelocity = [0].
Proof. reflexivity. Qed.
Lemma systems_canon :
  systems W = [InputSystem pending; MovementSystem; CollisionSystem].
Proof. reflexivity. Qed.

Lemma mutate_snake s' :
  mutate W 0 (CSnake s')
  = game_world grid s' velocity food score game_state pending.
Proof. vm_compute. reflexivity. Qed.
Lemma mutate_velocity v' :
  mutate W 0 (CVelocity v')
  = game_world grid snake v' food score game_state pending.
Proof. vm_compute. reflexivity. Qed.
Lemma mutate_food f' :
  mutate W 0 (CFood f')
  = game_world grid snake velocity f' score game_state pending.
Proof. vm_compute. reflexivity. Qed.
Lemma mutate_score sc' :
  mutate W 0 (CScore sc')
  = game_world grid snake velocity food sc' game_state pending.
Proof. vm_compute. reflexivity. Qed.
Lemma mutate_game_state gs' :
  mutate W 0 (CGameState gs')
  = game_world grid snake velocity food score gs' pending.
Proof. vm_compute. reflexivity. Qed.
Lemma set_input p' :
  set_system W 0 (InputSystem p')
  = game_world grid snake velocity food score game_state p'.
Proof. reflexivity. Qed.

End Canonical.

#[global] Opaque game_world.

Section CanonicalSystems.
Variables (grid : Grid) (snake : Snake) (velocity : Velocity)
    (food : Food) (score : Score) (game_state : GameState)
    (pending : option Direction).

Lemma InputSystem_update_canon p :
  InputSystem.update p
    (game_world grid snake velocity food score game_state pending)
  = Ok (None,
        game_world grid snake (turned p velocity) food score game_state pending).
Proof.
  destruct p as [d|]; [|reflexivity].
  unfold InputSystem.update. rewrite with_velocity. cbn [for_each].
  unfold InputSystem.update_entity. rewrite get_velocity. cbn.
  destruct (InputSystem.turn_allowed d (direction velocity)); cbn; [|reflexivity].
  by rewrite mutate_velocity.
Qed.

Lemma new_head_canon h :
  width grid ≠ 0 -> height grid ≠ 0 ->
  MovementSystem.new_head (Some (CVelocity velocity)) (Some (CGrid grid)) h
  = Ok (step_cell (direction velocity) grid h).
Proof.
  intros Hw Hh. unfold MovementSystem.new_head, step_cell, pymod. cbn.
  apply Z.eqb_neq in Hw, Hh.
  destruct (direction velocity); cbn; rewrite ?Hw, ?Hh; reflexivity.
Qed.

Lemma MovementSystem_update_canon :
  width grid ≠ 0 -> height grid ≠ 0 -> body snake ≠ [] ->
  MovementSystem.update
    (game_world grid snake velocity food score game_state pending)
  = Ok (game_world grid (moved grid velocity snake) velocity food score
          game_state pending).
Proof.
  intros Hw Hh Hb. unfold MovementSystem.update. rewrite with_snake.
  cbn [for_each]. unfold MovementSystem.update_entity.
  rewrite get_snake, get_velocity, get_grid. run_bind.
  unfold body_head, moved. destruct (body snake) as [|h t] eqn:E; [done|].
  run_bind. rewrite new_head_canon by done. run_bind.
  by rewrite mutate_snake.
Qed.

End CanonicalSystems.

(** ** The random source and the respawn loop *)

Lemma only_drew_refl rt : only_drew rt rt.
Proof. by repeat split. Qed.

Lemma only_drew_trans a b c : only_drew a b -> only_drew b c -> only_drew a c.
Proof.
  intros (?&?&?&?) (?&?&?&?). repeat split; try congruence. lia.
Qed.

Lemma randint_ok a b rt v rt' :
  randint a b rt = Ok (v, rt') ->
  a <= v <= b /\ v = a + (draws rt (cursor rt) mod (b - a + 1)) /\
  rt' = mkRuntime (subjects rt) (trace rt) (draws rt) (S (cursor rt)).
Proof.
  unfold randint. destruct (b <? a) eqn:E; [done|].
  apply Z.ltb_ge in E. intros [= <- <-]. split; [|done].
  pose proof (Z.mod_pos_bound (draws rt (cursor rt)) (b - a + 1)). lia.
Qed.

Lemma randint_empty a b rt : b < a -> randint a b rt = Raise ValueError.
Proof. intros H. unfold randint. by apply Z.ltb_lt in H as ->. Qed.

Lemma randint_below n rt :
  0 < n ->
  randint 0 (n - 1) rt
  = Ok (draws rt (cursor rt) mod n,
        mkRuntime (subjects rt) (trace rt) (draws rt) (S (cursor rt))).
Proof.
  intros H. unfold randint.
  assert ((n - 1 <? 0) = false) as -> by (apply Z.ltb_ge; lia).
  replace (n - 1 - 0 + 1) with n by lia. reflexivity.
Qed.

Lemma cell_in_spec c cells : cell_in c cells = true <-> In c cells.
Proof.
  induction cells as [|d rest IH]; cbn; [done|].
  rewrite orb_true_iff, IH. unfold Cell_eqb.
  rewrite andb_true_iff, !Z.eqb_eq. destruct c as [cx cy], d as [dx dy]; cbn.
  split; (intros [H|H]; [left|by right]).
  - destruct H. congruence.
  - by injection H as -> ->.
Qed.

(** Whatever the loop returns was drawn inside the grid, off the body. *)
Lemma respawn_loop_ok fuel : forall snake_o food_o grid_o w entity_id rt w' rt',
  CollisionSystem.respawn_loop fuel snake_o food_o grid_o w entity_id rt = Ok (w', rt') ->
  exists s f g nx ny,
    snake_o = Some (CSnake s) /\ food_o = Some (CFood f) /\
    grid_o = Some (CGrid g) /\
    w' = mutate w entity_id (CFood (mkFood (mkPosition nx ny))) /\
    cell_in (nx, ny) (body s) = false /\
    0 <= nx < width g /\ 0 <= ny < height g /\ only_drew rt rt'.
Proof.
  induction fuel as [|fuel IH]; intros snake_o food_o grid_o w i rt w' rt';
    cbn [CollisionSystem.respawn_loop];
    (destruct grid_o as [[g| | | | |]|]; try done);
    run_bind;
    (destruct (randint 0 (width g - 1) rt) as [[nx rt1]| |] eqn:Ex; try done);
    run_bind;
    (destruct (randint 0 (height g - 1) rt1) as [[ny rt2]| |] eqn:Ey; try done);
    run_bind;
    (destruct snake_o as [[|s| | | |]|]; try done);
    run_bind;
    apply randint_ok in Ex as (Hx & _ & ->);
    apply randint_ok in Ey as (Hy & _ & ->);
    (destruct (cell_in (nx, ny) (body s)) eqn:Ein; cbn [negb]).
  - done.
  - destruct food_o as [[| | |f| |]|]; try done. run_bind.
    intros [= <- <-]. exists s, f, g, nx, ny.
    repeat split; try done; cbn; lia.
  - intros H. apply IH in H as (s' & f & g' & nx' & ny' & Hs & -> & Hg & -> & ? & ? & ? & Hd).
    injection Hs as <-. injection Hg as <-.
    exists s, f, g, nx', ny'. repeat split; try done; try lia.
    all: destruct Hd as (?&?&?&Hc); cbn in *; try done; lia.
  - destruct food_o as [[| | |f| |]|]; try done. run_bind.
    intros [= <- <-]. exists s, f, g, nx, ny.
    repeat split; try done; cbn; lia.
Qed.

Lemma respawn_cell_ok g cells : forall fuel rt c rt',
  respawn_cell fuel g cells rt = Ok (c, rt') ->
  cell_in c cells = false /\
  0 <= fst c < width g /\ 0 <= snd c < height g /\ only_drew rt rt'.
Proof.
  induction fuel as [|fuel IH]; intros rt c rt';
    cbn [respawn_cell]; run_bind;
    (destruct (randint 0 (width g - 1) rt) as [[nx rt1]| |] eqn:Ex; try done);
    run_bind;
    (destruct (randint 0 (height g - 1) rt1) as [[ny rt2]| |] eqn:Ey; try done);
    run_bind;
    apply randint_ok in Ex as (Hx & _ & ->);
    apply randint_ok in Ey as (Hy & _ & ->);
    (destruct (cell_in (nx, ny) cells) eqn:Ein; cbn [negb]); try done.
  - intros [= <- <-]. repeat split; try done; cbn; lia.
  - intros H. apply IH in H as (? & ? & ? & Hd). repeat split; try done.
    all: destruct Hd as (?&?&?&Hc); cbn in *; try done; lia.
  - intros [= <- <-]. repeat split; try done; cbn; lia.
Qed.

(** If pass [k] is the first to draw a free cell and the bound allows [k]
    repeats, the loop settles on that cell. *)
Lemma respawn_cell_first_free g cells : forall k fuel rt,
  0 < width g -> 0 < height g ->
  (forall j, (j < k)%nat -> cell_in (drawn_cell g rt j) cells = true) ->
  cell_in (drawn_cell g rt k) cells = false ->
  (k <= fuel)%nat ->
  respawn_cell fuel g cells rt
  = Ok (drawn_cell g rt k, after_draws rt (2 * (k + 1))).
Proof.
  induction k as [|k IH]; intros fuel rt Hw Hh Hbefore Hfree Hfuel.
  - unfold drawn_cell in Hfree |- *. rewrite !Nat.add_0_r in Hfree |- *.
    replace (cursor rt + 1)%nat with (S (cursor rt)) in Hfree |- * by lia.
    destruct fuel; cbn [respawn_cell]; run_bind;
      rewrite (randint_below _ _ Hw); run_bind;
      rewrite (randint_below _ _ Hh); run_bind; cbn [draws cursor];
      rewrite Hfree; cbn [negb];
      unfold after_draws;
      replace (cursor rt + 2 * (0 + 1))%nat with (S (S (cursor rt))) by lia;
      reflexivity.
  - destruct fuel as [|fuel]; [lia|].
    cbn [respawn_cell]. run_bind.
    rewrite (randint_below _ _ Hw). run_bind.
    rewrite (randint_below _ _ Hh). run_bind. cbn [draws cursor].
    pose proof (Hbefore 0%nat ltac:(lia)) as H0.
    unfold drawn_cell in H0. rewrite !Nat.add_0_r in H0.
    replace (cursor rt + 1)%nat with (S (cursor rt)) in H0 by lia.
    rewrite H0. cbn [negb].
    set (rt2 := mkRuntime _ _ _ _).
    assert (Hshift : forall j, drawn_cell g rt2 j = drawn_cell g rt (S j)).
    { intros j. unfold drawn_cell, rt2. cbn [draws cursor].
      replace (S (S (cursor rt)) + 2 * j)%nat
        with (cursor rt + 2 * S j)%nat by lia.
      reflexivity. }
    rewrite IH; try done; try lia.
    + rewrite Hshift. unfold after_draws, rt2. cbn [subjects trace draws cursor].
      replace (S (S (cursor rt)) + 2 * (k + 1))%nat
        with (cursor rt + 2 * (S k + 1))%nat by lia.
      reflexivity.
    + intros j Hj. rewrite Hshift. apply Hbefore. lia.
    + by rewrite Hshift.
Qed.

(** On a grid the cells cover, the loop never returns. *)
Lemma respawn_cell_full g cells : forall fuel rt,
  0 < width g -> 0 < height g ->
  (forall cx cy, 0 <= cx < width g -> 0 <= cy < height g ->
                 cell_in (cx, cy) cells = true) ->
  respawn_cell fuel g cells rt = Diverge.
Proof.
  induction fuel as [|fuel IH]; intros rt Hw Hh Hfull;
    cbn [respawn_cell]; run_bind;
    rewrite (randint_below _ _ Hw); run_bind;
    rewrite (randint_below _ _ Hh); run_bind;
    (rewrite Hfull by (apply Z.mod_pos_bound; lia)); cbn [negb]; [done|].
  by apply IH.
Qed.

(** With a non-positive dimension the first pass raises. *)
Lemma respawn_cell_nonpositive g cells fuel rt :
  width g <= 0 \/ height g <= 0 ->
  respawn_cell fuel g cells rt = Raise ValueError.
Proof.
  intros H. destruct (Z_lt_le_dec 0 (width g)) as [Hw|Hw].
  - assert (Hh : height g <= 0) by lia.
    destruct fuel; cbn [respawn_cell]; run_bind;
      rewrite (randint_below _ _ Hw); run_bind;
      rewrite randint_empty by lia; reflexivity.
  - destruct fuel; cbn [respawn_cell]; run_bind;
      rewrite randint_empty by lia; reflexivity.
Qed.

Lemma respawn_loop_cell s f g w entity_id : forall fuel rt,
  CollisionSystem.respawn_loop fuel (Some (CSnake s)) (Some (CFood f)) (Some (CGrid g))
    w entity_id rt
  = '(c, rt') ← respawn_cell fuel g (body s) rt;
    Ok (mutate w entity_id (CFood (food_at c)), rt').
Proof.
  induction fuel as [|fuel IH]; intros rt;
    cbn [CollisionSystem.respawn_loop respawn_cell]; run_bind;
    (destruct (randint 0 (width g - 1) rt) as [[nx rt1]| |]; [|done..]);
    run_bind;
    (destruct (randint 0 (height g - 1) rt1) as [[ny rt2]| |]; [|done..]);
    run_bind;
    (destruct (cell_in (nx, ny) (body s)); cbn [negb]; [|done]).
  - done.
  - apply IH.
Qed.

Lemma respawn_food_canon grid snake velocity food score game_state pending
    fuel rt :
  CollisionSystem._respawn_food fuel
    (game_world grid snake velocity food score game_state pending) 0 rt
  = '(c, rt') ← respawn_cell fuel grid (body snake) rt;
    Ok (game_world grid snake velocity (food_at c) score game_state pending,
        rt').
Proof.
  unfold CollisionSystem._respawn_food. rewrite get_snake, get_food, get_grid. run_bind.
  rewrite respawn_loop_cell.
  destruct (respawn_cell fuel grid (body snake) rt) as [[c rt']| |]; [|done..].
  run_bind. by rewrite mutate_food.
Qed.

Section CanonicalTick.
Variables (grid : Grid) (snake : Snake) (velocity : Velocity)
    (food : Food) (score : Score) (game_state : GameState)
    (pending : option Direction).

Lemma CollisionSystem_update_canon fuel rt :
  body snake ≠ [] ->
  CollisionSystem.update fuel
    (game_world grid snake velocity food score game_state pending, rt)
  = '(s, f, sc, gs, rt') ← collide fuel grid snake food score game_state rt;
    Ok (game_world grid s velocity f sc gs pending, rt').
Proof.
  intros Hb. unfold CollisionSystem.update. cbn [fst]. rewrite with_snake.
  cbn [for_each]. unfold CollisionSystem.update_entity.
  rewrite get_snake, get_food, get_score, get_game_state. run_bind.
  unfold collide, eats, self_hit, body_head, fed, scored, ended.
  destruct (body snake) as [|h t] eqn:E; [done|]. run_bind.
  change (x (position food), y (position food)) with (food_cell food).
  destruct (Cell_eqb h (food_cell food)).
  - rewrite mutate_snake. run_bind. rewrite mutate_score.
    rewrite respawn_food_canon. cbn [body value score_changed].
    destruct (respawn_cell _ _ _ _) as [[c rt']| |]; [|done..].
    run_bind. cbn [tail body]. run_bind.
    destruct (cell_in h t); run_bind; [|done].
    by rewrite mutate_game_state.
  - run_bind. rewrite E. cbn [tail body]. run_bind.
    destruct (cell_in h t); run_bind; [|done].
    by rewrite mutate_game_state.
Qed.

End CanonicalTick.

Lemma moved_body_nonempty g v s : body s ≠ [] -> body (moved g v s) ≠ [].
Proof.
  unfold moved. destruct (body s) as [|h t] eqn:E; [done|]. intros _.
  destruct (growth_pending s >? 0); cbn [body]; [done|].
  destruct t; cbn; [done|]. discriminate.
Qed.

(** One tick of a canonical session is [tick]. *)
Lemma SnakeGame_update_canon fuel g s v f sc gs p rt :
  width g ≠ 0 -> height g ≠ 0 -> body s ≠ [] ->
  SnakeGame.update fuel (session g s v f sc gs p) rt
  = tick fuel g s v f sc gs p rt.
Proof.
  intros Hw Hh Hb. unfold SnakeGame.update, session, World.update, tick.
  cbn [world input_system]. rewrite systems_canon.
  cbn [World.run_systems System_update fst snd].
  rewrite InputSystem_update_canon. run_bind. rewrite set_input.
  rewrite MovementSystem_update_canon by done. run_bind.
  rewrite CollisionSystem_update_canon by (by apply moved_body_nonempty).
  destruct (collide _ _ _ _ _ _ _) as [[[[[s2 f2] sc2] gs2] rt2]| |]; [|done..].
  run_bind. rewrite get_game_state. run_bind. reflexivity.
Qed.

Lemma set_direction_canon g s v f sc gs p d :
  SnakeGame.set_direction (session g s v f sc gs p) d
  = session g s v f sc gs (Some d).
Proof. reflexivity. Qed.

(** [SnakeGame.__init__] builds a canonical session. *)
Lemma SnakeGame_init_canon fuel w h rt :
  SnakeGame.__init__ fuel w h rt
  = '(c, rt') ← respawn_cell fuel (mkGrid w h) [(w `div` 2, h `div` 2)] rt;
    Ok (session (mkGrid w h) (mkSnake [(w `div` 2, h `div` 2)] 0)
          (mkVelocity RIGHT) (food_at c) Score_new GameState_new None, rt').
Proof.
  unfold SnakeGame.__init__. generalize (w `div` 2) (h `div` 2). intros cx cy.
  cbn [World.create_entity World.__init__ next_entity_id World.add_system systems length].
  do 6 (match goal with
        | |- context [World.add_component ?w0 ?i ?c] =>
            let r := eval vm_compute in (World.add_component w0 i c) in
            change (World.add_component w0 i c) with r; run_bind
        end).
  match goal with
  | |- context [CollisionSystem._respawn_food _ ?w0 _ _] =>
      change w0 with (game_world (mkGrid w h) (mkSnake [(cx, cy)] 0)
                        (mkVelocity RIGHT) (mkFood (mkPosition 0 0)) Score_new
                        GameState_new None)
  end.
  rewrite respawn_food_canon. cbn [body].
  destruct (respawn_cell _ _ _ _) as [[c rt']| |]; done.
Qed.

(** ** Component lookup *)

Lemma get_component_mutate_same w entity_id c :
  is_Some (entities w !! entity_id) ->
  World.get_component (mutate w entity_id c) entity_id (type c) = Ok (Some c).
Proof.
  intros [e He]. unfold World.get_component, mutate. cbn [entities].
  rewrite lookup_alter_eq, He. cbn. by rewrite lookup_insert_eq.
Qed.

Lemma get_component_mutate_other w entity_id c k :
  k ≠ type c ->
  World.get_component (mutate w entity_id c) entity_id k
  = World.get_component w entity_id k.
Proof.
  intros Hk. unfold World.get_component, mutate. cbn [entities].
  rewrite lookup_alter_eq. destruct (entities w !! entity_id) as [e|]; [|done].
  cbn. by rewrite lookup_insert_ne.
Qed.

Lemma get_component_is_Some w entity_id k o :
  World.get_component w entity_id k = Ok o -> is_Some (entities w !! entity_id).
Proof.
  unfold World.get_component. destruct (entities w !! entity_id); [eauto|done].
Qed.

(** C2 (as amended): [get_component] returns the component, or absent when
    the entity has none of that kind, for every id that exists in the world
    (a new entity has no component of any kind, and what [add_component]
    attached last is what is returned); on an id that does not exist it
    raises [KeyError]. *)
Theorem C2_get_component (w : World) (entity_id : Z) (k : Kind) :
  (forall e, entities w !! entity_id = Some e ->
     World.get_component w entity_id k = Ok (components e !! k)) /\
  (entities w !! entity_id = None ->
     World.get_component w entity_id k = Raise KeyError) /\
  World.get_component (World.create_entity w).1 (World.create_entity w).2 k
  = Ok None /\
  (forall c w',
     World.add_component w entity_id c = Ok w' ->
     World.get_component w' entity_id (type c) = Ok (Some c)).
Proof.
  unfold World.get_component. split; [|split; [|split]].
  - by intros e ->.
  - by intros ->.
  - cbn. by rewrite lookup_insert_eq.
  - intros c w'. unfold World.add_component.
    destruct (entities w !! entity_id) as [e|]; [|done].
    intros [= <-]. cbn [entities]. rewrite lookup_insert_eq.
    cbn [components]. by rewrite lookup_insert_eq.
Qed.

Lemma C2_get_component_witness :
  World.get_component World.__init__ 3 KFood = Raise KeyError /\
  World.get_component (World.create_entity World.__init__).1 0 KFood = Ok None /\
  World.get_component
    (game_world (mkGrid 5 5) (mkSnake [(2, 2)] 0) (mkVelocity RIGHT)
       (mkFood (mkPosition 0 0)) Score_new GameState_new None) 1 KSnake
  = Raise KeyError.
Proof.
  split; [|split].
  - apply (proj1 (proj2 (C2_get_component World.__init__ 3 KFood))). reflexivity.
  - apply (proj1 (proj2 (proj2 (C2_get_component World.__init__ 0 KFood)))).
  - apply (C2_get_component _ 1 KSnake). reflexivity.
Defined.

(** C2, the claim as stated fails: looking up an id that does not exist
    raises [KeyError], in an empty world and in the world of a session. *)
Lemma C2_missing_id_raises :
  entities World.__init__ !! 0 = None /\
  World.get_component World.__init__ 0 KSnake = Raise KeyError /\
  World.get_component World.__init__ 0 KSnake ≠ Ok None /\
  World.get_component
    (game_world (mkGrid 5 5) (mkSnake [(2, 2)] 0) (mkVelocity RIGHT)
       (mkFood (mkPosition 0 0)) Score_new GameState_new None) 1 KSnake
  = Raise KeyError.
Proof. repeat split; try done. Qed.

(** ** Movement *)

Lemma step_cell_in_grid d g hx hy :
  0 < width g -> 0 < height g ->
  0 <= hx < width g -> 0 <= hy < height g ->
  0 <= fst (step_cell d g (hx, hy)) < width g /\
  0 <= snd (step_cell d g (hx, hy)) < height g.
Proof.
  intros Hw Hh Hx Hy.
  pose proof (Z.mod_pos_bound (hx - 1) _ Hw).
  pose proof (Z.mod_pos_bound (hx + 1) _ Hw).
  pose proof (Z.mod_pos_bound (hy - 1) _ Hh).
  pose proof (Z.mod_pos_bound (hy + 1) _ Hh).
  destruct d; cbn; lia.
Qed.

(** C3: on a grid of positive width and height, one step of the movement
    system from a head inside the grid, in any of the four headings, puts a
    new head at the front of the body whose x is in [0, width) and whose y
    is in [0, height). *)
Theorem C3_movement_wraps (g : Grid) (d : Direction) (hx hy : Z)
    (rest : list Cell) (gp : Z) (f : Food) (sc : Score) (gs : GameState)
    (p : option Direction) :
  0 < width g -> 0 < height g ->
  0 <= hx < width g -> 0 <= hy < height g ->
  exists nx ny rest' gp',
    MovementSystem.new_head (Some (CVelocity (mkVelocity d))) (Some (CGrid g)) (hx, hy)
      = Ok (nx, ny) /\
    MovementSystem.update
      (game_world g (mkSnake ((hx, hy) :: rest) gp) (mkVelocity d) f sc gs p)
      = Ok (game_world g (mkSnake ((nx, ny) :: rest') gp') (mkVelocity d)
              f sc gs p) /\
    0 <= nx < width g /\ 0 <= ny < height g.
Proof.
  intros Hw Hh Hx Hy.
  destruct (step_cell d g (hx, hy)) as [nx ny] eqn:E.
  pose proof (step_cell_in_grid d g hx hy Hw Hh Hx Hy) as Hin.
  rewrite E in Hin. cbn [fst snd] in Hin.
  exists nx, ny.
  exists (if gp >? 0 then (hx, hy) :: rest else removelast ((hx, hy) :: rest)).
  exists (if gp >? 0 then gp - 1 else gp).
  split; [|split; [|done]].
  - rewrite new_head_canon by lia. by rewrite <- E.
  - rewrite MovementSystem_update_canon by (cbn; first [lia | done]).
    unfold moved. cbn [body growth_pending direction]. rewrite E.
    destruct (gp >? 0); [done|].
    cbn [removelast]. reflexivity.
Qed.

Lemma C3_movement_wraps_witness :
  exists nx ny rest' gp',
    MovementSystem.new_head (Some (CVelocity (mkVelocity LEFT))) (Some (CGrid (mkGrid 5 5)))
      (0, 3) = Ok (nx, ny) /\
    MovementSystem.update
      (game_world (mkGrid 5 5) (mkSnake [(0, 3); (1, 3)] 0) (mkVelocity LEFT)
         (mkFood (mkPosition 2 2)) Score_new GameState_new None)
      = Ok (game_world (mkGrid 5 5) (mkSnake ((nx, ny) :: rest') gp')
              (mkVelocity LEFT) (mkFood (mkPosition 2 2)) Score_new
              GameState_new None) /\
    0 <= nx < 5 /\ 0 <= ny < 5.
Proof.
  apply (C3_movement_wraps (mkGrid 5 5) LEFT 0 3 [(1, 3)] 0); cbn; lia.
Defined.

(** ** Input *)

Lemma turn_allowed_opposite h : InputSystem.turn_allowed (opposite h) h = false.
Proof. by destruct h. Qed.

Lemma turn_allowed_iff d h : InputSystem.turn_allowed d h = true <-> d ≠ opposite h.
Proof. destruct d, h; cbn; split; done. Qed.

Lemma the_velocity_session g s v f sc gs p :
  the_velocity (session g s v f sc gs p) = Ok v.
Proof. unfold the_velocity, session. cbn [world]. by rewrite get_velocity. Qed.

Lemma the_snake_session g s v f sc gs p :
  the_snake (session g s v f sc gs p) = Ok s.
Proof. unfold the_snake, session. cbn [world]. by rewrite get_snake. Qed.

Lemma the_food_session g s v f sc gs p :
  the_food (session g s v f sc gs p) = Ok f.
Proof. unfold the_food, session. cbn [world]. by rewrite get_food. Qed.

Lemma the_score_session g s v f sc gs p :
  the_score (session g s v f sc gs p) = Ok sc.
Proof. unfold the_score, session. cbn [world]. by rewrite get_score. Qed.

Lemma the_game_state_session g s v f sc gs p :
  the_game_state (session g s v f sc gs p) = Ok gs.
Proof.
  unfold the_game_state, session. cbn [world]. by rewrite get_game_state.
Qed.

Lemma the_grid_session g s v f sc gs p :
  the_grid (session g s v f sc gs p) = Ok g.
Proof. unfold the_grid, session. cbn [world]. by rewrite get_grid. Qed.

Lemma the_pending_session g s v f sc gs p :
  the_pending (session g s v f sc gs p) = Ok p.
Proof.
  unfold the_pending, session. cbn [world input_system].
  by rewrite systems_canon.
Qed.

(** What a tick that returns has done, field by field. *)
Lemma tick_ok fuel g s v f sc gs p rt G rt' b :
  tick fuel g s v f sc gs p rt = Ok (G, rt', b) ->
  exists s2 f2 sc2 gs2,
    collide fuel g (moved g (turned p v) s) f sc gs rt
      = Ok (s2, f2, sc2, gs2, rt') /\
    G = session g s2 (turned p v) f2 sc2 gs2 None /\
    b = is_game_over gs2.
Proof.
  unfold tick.
  destruct (collide _ _ _ _ _ _ _) as [[[[[s2 f2] sc2] gs2] rt2]| |]; [|done..].
  run_bind. intros [= <- <- <-]. by exists s2, f2, sc2, gs2.
Qed.

(** C5: when the pending direction is the reverse of the current heading,
    the input system leaves the velocity as it is, and after the tick the
    velocity is still that heading; the pending slot is cleared by the input
    system whether or not the direction was applied. *)
Theorem C5_no_reverse (fuel : nat) (g : Grid) (s : Snake) (v : Velocity)
    (f : Food) (sc : Score) (gs : GameState) (p0 : option Direction)
    (rt : Runtime) :
  0 < width g -> 0 < height g -> body s ≠ [] ->
  let reversed :=
    SnakeGame.set_direction (session g s v f sc gs p0) (opposite (direction v)) in
  (* the input system alone *)
  InputSystem.update (Some (opposite (direction v)))
    (game_world g s v f sc gs (Some (opposite (direction v))))
    = Ok (None, game_world g s v f sc gs (Some (opposite (direction v)))) /\
  (* the whole tick *)
  (forall G rt' b,
     SnakeGame.update fuel reversed rt = Ok (G, rt', b) ->
     the_velocity G = Ok v /\ the_pending G = Ok None) /\
  (* the slot is cleared in all cases *)
  (forall p G rt' b,
     SnakeGame.update fuel (session g s v f sc gs p) rt = Ok (G, rt', b) ->
     the_pending G = Ok None) /\
  (forall p, exists w,
     InputSystem.update p (game_world g s v f sc gs p) = Ok (None, w)).
Proof.
  intros Hw Hh Hb reversed.
  assert (Hturn : turned (Some (opposite (direction v))) v = v).
  { unfold turned. by rewrite turn_allowed_opposite. }
  split; [|split; [|split]].
  - by rewrite InputSystem_update_canon, Hturn.
  - intros G rt' b H. unfold reversed in H. rewrite set_direction_canon in H.
    rewrite SnakeGame_update_canon in H by lia || done.
    apply tick_ok in H as (s2 & f2 & sc2 & gs2 & _ & -> & _).
    by rewrite the_velocity_session, the_pending_session, Hturn.
  - intros p G rt' b H.
    rewrite SnakeGame_update_canon in H by lia || done.
    apply tick_ok in H as (s2 & f2 & sc2 & gs2 & _ & -> & _).
    by rewrite the_pending_session.
  - intros p. rewrite InputSystem_update_canon. eauto.
Qed.

Lemma C5_no_reverse_witness :
  match
    SnakeGame.update 0
      (SnakeGame.set_direction
         (session (mkGrid 5 5) (mkSnake [(2, 2)] 0) (mkVelocity UP)
            (mkFood (mkPosition 0 0)) Score_new GameState_new None) DOWN)
      (Runtime_init (fun _ => 0))
  with
  | Ok (G, _, _) => the_velocity G = Ok (mkVelocity UP) /\ the_pending G = Ok None
  | _ => False
  end.
Proof.
  destruct (SnakeGame.update _ _ _) as [[[G rt'] b]| |] eqn:E.
  - refine (proj1 (proj2 (C5_no_reverse 0 (mkGrid 5 5) (mkSnake [(2, 2)] 0)
              (mkVelocity UP) (mkFood (mkPosition 0 0)) Score_new
              GameState_new None (Runtime_init (fun _ => 0)) _ _ _)) G rt' b E);
      cbn; first [lia | done].
  - vm_compute in E. discriminate E.
  - vm_compute in E. discriminate E.
Defined.

(** ** Food respawn *)

(** C6: whenever the respawn procedure returns, for any world and entity,
    the food it has placed is on no cell of the snake's body (which it
    leaves as it was) and inside the grid.  ([respawn_food_returns] and
    [respawn_food_full_grid] below say when it returns: as soon as a pass
    draws a free cell, and never on a body that covers the grid.) *)
Theorem C6_respawn_off_body (fuel : nat) (w : World) (entity_id : Z)
    (rt : Runtime) (w' : World) (rt' : Runtime) :
  CollisionSystem._respawn_food fuel w entity_id rt = Ok (w', rt') ->
  exists s g f',
    World.get_component w entity_id KSnake = Ok (Some (CSnake s)) /\
    World.get_component w entity_id KGrid = Ok (Some (CGrid g)) /\
    World.get_component w' entity_id KSnake = Ok (Some (CSnake s)) /\
    World.get_component w' entity_id KFood = Ok (Some (CFood f')) /\
    ~ In (food_cell f') (body s) /\
    0 <= x (position f') < width g /\ 0 <= y (position f') < height g.
Proof.
  unfold CollisionSystem._respawn_food.
  destruct (World.get_component w entity_id KSnake) as [snake_o| |] eqn:Es; [|done..].
  destruct (World.get_component w entity_id KFood) as [food_o| |] eqn:Ef; [|done..].
  destruct (World.get_component w entity_id KGrid) as [grid_o| |] eqn:Eg; [|done..].
  run_bind. intros H.
  apply respawn_loop_ok in H
    as (s & f & g & nx & ny & -> & -> & -> & -> & Hfree & Hx & Hy & _).
  exists s, g, (mkFood (mkPosition nx ny)).
  pose proof (get_component_is_Some _ _ _ _ Es) as Hsome.
  repeat split; try done; try (cbn; lia).
  - by rewrite get_component_mutate_other, Es.
  - by rewrite (get_component_mutate_same w entity_id (CFood _)).
  - intros Hin. apply cell_in_spec in Hin. unfold food_cell in Hin.
    cbn in Hin. congruence.
Qed.

(** The respawn returns once a pass draws a free cell. *)
Lemma respawn_food_returns g s v f sc gs p k fuel rt :
  0 < width g -> 0 < height g ->
  (forall j, (j < k)%nat -> cell_in (drawn_cell g rt j) (body s) = true) ->
  cell_in (drawn_cell g rt k) (body s) = false ->
  (k <= fuel)%nat ->
  CollisionSystem._respawn_food fuel (game_world g s v f sc gs p) 0 rt
  = Ok (game_world g s v (food_at (drawn_cell g rt k)) sc gs p,
        after_draws rt (2 * (k + 1))).
Proof.
  intros. rewrite respawn_food_canon.
  by rewrite (respawn_cell_first_free g (body s) k).
Qed.

(** On a body that covers the grid the respawn does not return. *)
Lemma respawn_food_full_grid g s v f sc gs p fuel rt :
  0 < width g -> 0 < height g ->
  (forall cx cy, 0 <= cx < width g -> 0 <= cy < height g ->
                 cell_in (cx, cy) (body s) = true) ->
  CollisionSystem._respawn_food fuel (game_world g s v f sc gs p) 0 rt = Diverge.
Proof.
  intros. rewrite respawn_food_canon. by rewrite respawn_cell_full.
Qed.

Lemma C6_respawn_off_body_witness :
  exists s g f',
    World.get_component
      (game_world (mkGrid 5 5) (mkSnake [(2, 1); (1, 1)] 1) (mkVelocity RIGHT)
         (mkFood (mkPosition 2 1)) (mkScore 1 0%nat) GameState_new None)
      0 KSnake = Ok (Some (CSnake s)) /\
    World.get_component
      (game_world (mkGrid 5 5) (mkSnake [(2, 1); (1, 1)] 1) (mkVelocity RIGHT)
         (mkFood (mkPosition 2 1)) (mkScore 1 0%nat) GameState_new None)
      0 KGrid = Ok (Some (CGrid g)) /\
    World.get_component
      (game_world (mkGrid 5 5) (mkSnake [(2, 1); (1, 1)] 1) (mkVelocity RIGHT)
         (mkFood (mkPosition 4 3)) (mkScore 1 0%nat) GameState_new None)
      0 KSnake = Ok (Some (CSnake s)) /\
    World.get_component
      (game_world (mkGrid 5 5) (mkSnake [(2, 1); (1, 1)] 1) (mkVelocity RIGHT)
         (mkFood (mkPosition 4 3)) (mkScore 1 0%nat) GameState_new None)
      0 KFood = Ok (Some (CFood f')) /\
    ~ In (food_cell f') (body s) /\
    0 <= x (position f') < width g /\ 0 <= y (position f') < height g.
Proof.
  apply (C6_respawn_off_body 3
           (game_world (mkGrid 5 5) (mkSnake [(2, 1); (1, 1)] 1)
              (mkVelocity RIGHT) (mkFood (mkPosition 2 1)) (mkScore 1 0%nat)
              GameState_new None)
           0 (Runtime_init (fun n => nth n [2; 1; 1; 1; 4; 3] 0))
           _ (after_draws (Runtime_init (fun n => nth n [2; 1; 1; 1; 4; 3] 0)) 6)).
  vm_compute. reflexivity.
Defined.

(** ** Session construction *)

(** C7: with a width or a height that is not positive, constructing a
    session fails: the first pass of the initial food respawn raises
    [ValueError] ([random.randint] on an empty range), whatever the random
    source, and no session is produced. *)
Theorem C7_nonpositive_grid_rejected (fuel : nat) (width height : Z)
    (rt : Runtime) :
  width <= 0 \/ height <= 0 ->
  SnakeGame.__init__ fuel width height rt = Raise ValueError.
Proof.
  intros H. rewrite SnakeGame_init_canon.
  by rewrite respawn_cell_nonpositive.
Qed.

Lemma C7_nonpositive_grid_rejected_witness :
  SnakeGame.__init__ 10 0 15 (Runtime_init (fun _ => 0)) = Raise ValueError /\
  SnakeGame.__init__ 10 20 (-3) (Runtime_init (fun _ => 0)) = Raise ValueError.
Proof.
  split; apply C7_nonpositive_grid_rejected; [left|right]; lia.
Defined.

Lemma cell_in_single c d : cell_in c [d] = false <-> c ≠ d.
Proof.
  split.
  - intros H E. subst d. assert (In c [c]) as Hin by (by left).
    apply cell_in_spec in Hin. congruence.
  - intros H. destruct (cell_in c [d]) eqn:E; [|done].
    apply cell_in_spec in E as [E|[]]. congruence.
Qed.

(** C8 (as amended): for every positive width and height, whatever
    [SnakeGame.__init__] returns is a session with the body on the single
    centre cell, heading Right, score 0, not over, no pending direction and
    the food on a cell of the grid that is not the centre; and on every grid
    other than 1 x 1 it does return: as soon as a pass of the respawn draws
    a cell other than the centre, for instance at once when the random
    source yields zeros. *)
Theorem C8_initial_session (fuel : nat) (w h : Z) (rt : Runtime) :
  0 < w -> 0 < h ->
  (forall G rt',
     SnakeGame.__init__ fuel w h rt = Ok (G, rt') ->
     the_grid G = Ok (mkGrid w h) /\
     the_snake G = Ok (mkSnake [(w `div` 2, h `div` 2)] 0) /\
     the_velocity G = Ok (mkVelocity RIGHT) /\
     the_score G = Ok (mkScore 0 Score_score_changed_default) /\
     the_game_state G
       = Ok (mkGameState false GameState_game_over_subject_default) /\
     the_pending G = Ok None /\
     exists f,
       the_food G = Ok f /\ food_cell f ≠ (w `div` 2, h `div` 2) /\
       0 <= x (position f) < w /\ 0 <= y (position f) < h) /\
  (forall k,
     (forall j, (j < k)%nat ->
        drawn_cell (mkGrid w h) rt j = (w `div` 2, h `div` 2)) ->
     drawn_cell (mkGrid w h) rt k ≠ (w `div` 2, h `div` 2) ->
     (k <= fuel)%nat ->
     exists G, SnakeGame.__init__ fuel w h rt
               = Ok (G, after_draws rt (2 * (k + 1)))) /\
  ((w, h) ≠ (1, 1) ->
   exists G rt',
     SnakeGame.__init__ fuel w h
       (mkRuntime (subjects rt) (trace rt) (fun _ => 0) (cursor rt))
     = Ok (G, rt')).
Proof.
  intros Hw Hh. set (centre := (w `div` 2, h `div` 2)).
  assert (Hfirst : forall rt0 k,
     (forall j, (j < k)%nat -> drawn_cell (mkGrid w h) rt0 j = centre) ->
     drawn_cell (mkGrid w h) rt0 k ≠ centre ->
     (k <= fuel)%nat ->
     exists G, SnakeGame.__init__ fuel w h rt0
               = Ok (G, after_draws rt0 (2 * (k + 1)))).
  { intros rt0 k Hbefore Hfree Hk. rewrite SnakeGame_init_canon.
    rewrite (respawn_cell_first_free _ _ k); try done.
    - run_bind. eauto.
    - intros j Hj. rewrite (Hbefore j Hj).
      destruct (cell_in centre [centre]) eqn:E; [done|].
      by apply cell_in_single in E.
    - by apply cell_in_single. }
  split; [|split].
  - intros G rt'. rewrite SnakeGame_init_canon.
    destruct (respawn_cell _ _ _ _) as [[c rt1]| |] eqn:E; [|done..].
    run_bind. intros [= <- <-].
    apply respawn_cell_ok in E as (Hfree & Hx & Hy & _).
    rewrite the_grid_session, the_snake_session, the_velocity_session,
      the_score_session, the_game_state_session, the_pending_session,
      the_food_session.
    repeat split; try done.
    exists (food_at c). repeat split; try done; try (cbn in *; lia).
    apply cell_in_single in Hfree. by destruct c.
  - apply Hfirst.
  - intros Hne. 
    destruct (Hfirst (mkRuntime (subjects rt) (trace rt) (fun _ => 0) (cursor rt))
                0%nat) as [G HG]; [intros; lia| |lia|eauto].
    unfold drawn_cell, centre. cbn [draws width height].
    rewrite !Z.mod_0_l by lia. intros [= Ex Ey].
    apply Hne. f_equal.
    + destruct (Z.eq_dec w 1) as [|]; [done|].
      assert (1 <= w `div` 2) by (apply Z.div_le_lower_bound; lia). lia.
    + destruct (Z.eq_dec h 1) as [|]; [done|].
      assert (1 <= h `div` 2) by (apply Z.div_le_lower_bound; lia). lia.
Qed.

Lemma C8_initial_session_witness :
  exists G rt',
    SnakeGame.__init__ 0 5 5 (mkRuntime [[]; []] [] (fun _ => 0) 0) = Ok (G, rt').
Proof.
  refine (proj2 (proj2 (C8_initial_session 0 5 5
            (mkRuntime [[]; []] [] (fun _ => 0) 0) _ _)) _);
    [lia | lia | intros [=]].
Defined.

(** C8, the claim as stated fails on the 1 x 1 grid: the body covers the
    grid, every pass of the respawn draws the body's cell, and construction
    never produces a session. *)
Lemma C8_one_by_one_never_returns :
  (forall fuel rt, SnakeGame.__init__ fuel 1 1 rt = Diverge) /\
  ~ (exists fuel rt out, SnakeGame.__init__ fuel 1 1 rt = Ok out).
Proof.
  assert (H : forall fuel rt, SnakeGame.__init__ fuel 1 1 rt = Diverge).
  { intros fuel rt. rewrite SnakeGame_init_canon.
    rewrite respawn_cell_full; [done|cbn; lia..|].
    intros cx cy Hx Hy. cbn in Hx, Hy.
    assert (cx = 0) as -> by lia. assert (cy = 0) as -> by lia. reflexivity. }
  split; [exact H|].
  intros (fuel & rt & out & E). rewrite H in E. discriminate E.
Qed.

(** ** Notifications *)

Lemma emissions_app s a b :
  emissions s (a ++ b) = (emissions s a + emissions s b)%nat.
Proof.
  induction a as [|[s' v|s' o v] a IH]; cbn; [done| |done].
  destruct (Nat.eqb s' s); cbn; by rewrite IH.
Qed.

Lemma emissions_deliveries s s' v obs :
  emissions s (map (fun o => Delivered s' o v) obs) = 0%nat.
Proof. induction obs; cbn; done. Qed.

Lemma emissions_events_of s subs s' v :
  emissions s (events_of subs s' v) = if Nat.eqb s' s then 1%nat else 0%nat.
Proof.
  unfold events_of. cbn. rewrite emissions_deliveries.
  by destruct (Nat.eqb s' s).
Qed.

Lemma emissions_on_next s s' v rt :
  emissions s (trace (on_next s' v rt))
  = (emissions s (trace rt) + if Nat.eqb s' s then 1 else 0)%nat.
Proof. cbn. by rewrite emissions_app, emissions_events_of. Qed.

(** ** The collision system on a session *)

Lemma food_cell_food_at c : food_cell (food_at c) = c.
Proof. by destruct c. Qed.

Lemma removelast_cons_length {A : Type} (a : A) l :
  length (removelast (a :: l)) = length l.
Proof.
  revert a. induction l as [|b l IH]; intros a; [done|].
  change (removelast (a :: b :: l)) with (a :: removelast (b :: l)).
  cbn [length]. by rewrite IH.
Qed.

Lemma collide_ok fuel g s f sc gs rt s2 f2 sc2 gs2 rt2 :
  collide fuel g s f sc gs rt = Ok (s2, f2, sc2, gs2, rt2) ->
  body s2 = body s /\
  growth_pending s2 = growth_pending s + (if eats s f then 1 else 0) /\
  value sc2 = value sc + (if eats s f then 1 else 0) /\
  score_changed sc2 = score_changed sc /\
  (if eats s f
   then ~ In (food_cell f2) (body s) /\
        0 <= x (position f2) < width g /\ 0 <= y (position f2) < height g
   else f2 = f) /\
  gs2 = (if self_hit s then ended gs else gs) /\
  subjects rt2 = subjects rt /\ draws rt2 = draws rt /\
  trace rt2
  = trace rt
    ++ (if eats s f
        then events_of (subjects rt) (score_changed sc) (VInt (value sc + 1))
        else [])
    ++ (if self_hit s
        then events_of (subjects rt) (game_over_subject gs) (VBool true)
        else []).
Proof.
  unfold collide. destruct (eats s f) eqn:Eat.
  - destruct (respawn_cell _ _ _ _) as [[c rt1]| |] eqn:E; [|done..].
    apply respawn_cell_ok in E as (Hfree & Hx & Hy & Hs & Ht & Hd & _).
    cbn [subjects trace draws on_next] in Hs, Ht, Hd.
    run_bind. unfold self_hit. cbn [fed body].
    assert (Hoff : ~ In (food_cell (food_at c)) (body s)).
    { rewrite food_cell_food_at. intros Hin. apply cell_in_spec in Hin.
      congruence. }
    fold (self_hit s).
    destruct (self_hit s); intros [= <- <- <- <- <-];
      cbn [body growth_pending value score_changed fed scored subjects trace
           draws on_next];
      rewrite Hs, Ht, ?app_nil_r, <- ?app_assoc; repeat split; try done;
      cbn [food_at position x y]; lia.
  - run_bind. destruct (self_hit s); intros [= <- <- <- <- <-];
      cbn [subjects trace draws on_next];
      rewrite ?Z.add_0_r, ?app_nil_r; repeat split; done.
Qed.

Lemma moved_length g v s :
  body s ≠ [] ->
  length (body (moved g v s))
  = (length (body s) + if growth_pending s >? 0 then 1 else 0)%nat /\
  growth_pending (moved g v s)
  = growth_pending s - (if growth_pending s >? 0 then 1 else 0).
Proof.
  unfold moved. destruct (body s) as [|h t] eqn:E; [done|]. intros _.
  destruct (growth_pending s >? 0); cbn [body growth_pending].
  - cbn [length]. split; lia.
  - split; [|lia]. rewrite removelast_cons_length. cbn [length]. lia.
Qed.

Lemma moved_head g v s h t :
  body s = h :: t ->
  exists t', body (moved g v s) = step_cell (direction v) g h :: t'.
Proof.
  unfold moved. intros ->. destruct (growth_pending s >? 0); cbn [body].
  - eauto.
  - cbn [removelast]. eauto.
Qed.

(** ** Game over *)

(** The game-over side of one tick of a canonical session. *)
Lemma tick_game_over (fuel : nat) (g : Grid) (s : Snake)
    (v : Velocity) (f : Food) (sc : Score) (gs : GameState)
    (p : option Direction) (rt : Runtime) (G : SnakeGame) (rt' : Runtime)
    (b : bool) :
  0 < width g -> 0 < height g -> body s ≠ [] ->
  score_changed sc ≠ game_over_subject gs ->
  SnakeGame.update fuel (session g s v f sc gs p) rt = Ok (G, rt', b) ->
  exists s' gs',
    the_snake G = Ok s' /\ the_game_state G = Ok gs' /\
    body s' = body (moved g (turned p v) s) /\
    is_game_over gs' = is_game_over gs || self_hit s' /\
    b = is_game_over gs' /\
    game_over_subject gs' = game_over_subject gs /\
    emissions (game_over_subject gs) (trace rt')
    = (emissions (game_over_subject gs) (trace rt)
       + if self_hit s' then 1 else 0)%nat.
Proof.
  intros Hw Hh Hb Hsubj H.
  rewrite SnakeGame_update_canon in H by lia || done.
  apply tick_ok in H as (s2 & f2 & sc2 & gs2 & Hc & -> & ->).
  apply collide_ok in Hc
    as (Hbody & _ & _ & _ & _ & -> & _ & _ & Htrace).
  exists s2, (if self_hit (moved g (turned p v) s) then ended gs else gs).
  rewrite the_snake_session, the_game_state_session.
  assert (Hhit : self_hit s2 = self_hit (moved g (turned p v) s)).
  { unfold self_hit. by rewrite Hbody. }
  rewrite Hhit, Htrace, !emissions_app.
  assert (Hscore :
    emissions (game_over_subject gs)
      (if eats (moved g (turned p v) s) f
       then events_of (subjects rt) (score_changed sc) (VInt (value sc + 1))
       else []) = 0%nat).
  { destruct (eats _ _); [|done]. rewrite emissions_events_of.
    by apply Nat.eqb_neq in Hsubj as ->. }
  rewrite Hscore.
  destruct (self_hit (moved g (turned p v) s)).
  - rewrite emissions_events_of, Nat.eqb_refl. cbn [ended is_game_over game_over_subject].
    repeat split; try done. by rewrite orb_true_r.
  - cbn [emissions]. repeat split; try done. by rewrite orb_false_r.
Qed.

(** C1, the claim as stated fails: on a 5 x 5 grid a snake of length 5 that
    has turned into its own body on the eighth tick (the first game-over
    notification) and is driven one more tick to the Right is on its own
    body again, and the notification is emitted a second time. *)
Lemma C1_game_over_emitted_twice :
  (st ← play 0 5 5 circling_draws (firstn 8 circling_inputs); snapshot st)
  = Ok ([(1, 2); (1, 3); (2, 3); (2, 2); (1, 2)], 0, 4, true,
        [Emitted 0%nat (VInt 1); Emitted 0%nat (VInt 2);
         Emitted 0%nat (VInt 3); Emitted 0%nat (VInt 4);
         Emitted 1%nat (VBool true)]) /\
  (st ← play 0 5 5 circling_draws circling_inputs; snapshot st)
  = Ok ([(2, 2); (1, 2); (1, 3); (2, 3); (2, 2)], 0, 4, true,
        [Emitted 0%nat (VInt 1); Emitted 0%nat (VInt 2);
         Emitted 0%nat (VInt 3); Emitted 0%nat (VInt 4);
         Emitted 1%nat (VBool true); Emitted 1%nat (VBool true)]) /\
  (st ← play 0 5 5 circling_draws circling_inputs;
   Ok (emissions GameState_game_over_subject_default (trace (snd st))))
  = Ok 2%nat.
Proof. repeat split; vm_compute; reflexivity. Qed.

(** The same on a 3 x 1 grid, where heading Up leaves the head where it is:
    a snake of length 2 is on its own body on every tick. *)
Example game_over_emitted_twice_flat :
  (st ← play 0 3 1 [2] [None; Some UP; None]; snapshot st)
  = Ok ([(2, 0); (2, 0)], 0, 1, true,
        [Emitted 0%nat (VInt 1); Emitted 1%nat (VBool true);
         Emitted 1%nat (VBool true)]).
Proof. vm_compute. reflexivity. Qed.

(** The flag is read by nothing: the collision system does the same with
    the flag set as with it clear, and only ever sets it. *)
Lemma collide_flag fuel g s f sc subj rt b :
  collide fuel g s f sc (mkGameState b subj) rt
  = '(s2, f2, sc2, gs2, rt2) ← collide fuel g s f sc (mkGameState false subj) rt;
    Ok (s2, f2, sc2, mkGameState (b || is_game_over gs2) subj, rt2).
Proof.
  unfold collide.
  destruct (eats s f).
  - destruct (respawn_cell _ _ _ _) as [[c rt1]| |]; [|done..]. run_bind.
    destruct (self_hit (fed s)); run_bind;
      cbn [ended is_game_over game_over_subject];
      by rewrite ?orb_true_r, ?orb_false_r.
  - run_bind. destruct (self_hit s); run_bind;
      cbn [ended is_game_over game_over_subject];
      by rewrite ?orb_true_r, ?orb_false_r.
Qed.

Lemma collide_returns_without_food fuel g s f sc gs rt :
  eats s f = false ->
  exists gs2 rt2, collide fuel g s f sc gs rt = Ok (s, f, sc, gs2, rt2).
Proof.
  intros E. unfold collide. rewrite E. run_bind.
  destruct (self_hit s); eauto.
Qed.

(** C10: [SnakeGame.update] does not look at the flag before running the
    systems.  On a session that is already over, a tick that returns reports
    true and has run input, movement and collision: the pending direction is
    consumed, the head has moved one cell in the heading, and snake, food,
    score, trace and random source end up exactly as they do from the same
    session with the flag clear.  The tick returns whenever the one with the
    flag clear does, and always when no food is eaten. *)
Theorem C10_ticks_after_game_over (fuel : nat) (g : Grid) (s : Snake)
    (v : Velocity) (f : Food) (sc : Score) (subj : SubjectRef)
    (p : option Direction) (rt : Runtime) (h : Cell) (t : list Cell) :
  0 < width g -> 0 < height g -> body s = h :: t ->
  let over := session g s v f sc (mkGameState true subj) p in
  let live := session g s v f sc (mkGameState false subj) p in
  (forall G rt' b,
     SnakeGame.update fuel over rt = Ok (G, rt', b) ->
     b = true /\
     the_velocity G = Ok (turned p v) /\ the_pending G = Ok None /\
     (exists s' t',
        the_snake G = Ok s' /\
        body s' = step_cell (direction (turned p v)) g h :: t' /\
        body s' = body (moved g (turned p v) s)) /\
     exists G0 b0,
       SnakeGame.update fuel live rt = Ok (G0, rt', b0) /\
       the_snake G0 = the_snake G /\ the_velocity G0 = the_velocity G /\
       the_food G0 = the_food G /\ the_score G0 = the_score G) /\
  (forall G0 rt' b0,
     SnakeGame.update fuel live rt = Ok (G0, rt', b0) ->
     exists G, SnakeGame.update fuel over rt = Ok (G, rt', true)) /\
  (eats (moved g (turned p v) s) f = false ->
   exists G rt', SnakeGame.update fuel over rt = Ok (G, rt', true)).
Proof.
  intros Hw Hh Hb over live.
  assert (Hne : body s ≠ []) by (by rewrite Hb).
  unfold over, live.
  rewrite !SnakeGame_update_canon by lia || done.
  unfold tick. rewrite (collide_flag _ _ _ _ _ _ _ true).
  split; [|split].
  - intros G rt' b.
    destruct (collide _ _ _ _ _ _ _) as [[[[[s2 f2] sc2] gs2] rt2]| |] eqn:Ec;
      [|done..].
    run_bind. cbn [is_game_over orb]. intros [= <- <- <-].
    rewrite the_velocity_session, the_pending_session, the_snake_session.
    apply collide_ok in Ec as (Hbody & _).
    destruct (moved_head g (turned p v) s h t Hb) as [t' Ht'].
    repeat split; try done.
    + exists s2, t'. by rewrite Hbody.
    + eexists _, _. split; [reflexivity|].
      by rewrite !the_snake_session, !the_velocity_session, !the_food_session,
        !the_score_session.
  - intros G0 rt' b0.
    destruct (collide _ _ _ _ _ _ _) as [[[[[s2 f2] sc2] gs2] rt2]| |];
      [|done..].
    run_bind. intros [= <- <- <-]. eauto.
  - intros Hno.
    destruct (collide_returns_without_food fuel g _ f sc
                (mkGameState false subj) rt Hno) as (gs2 & rt2 & ->).
    run_bind. eauto.
Qed.

Lemma C10_ticks_after_game_over_witness :
  exists G rt',
    SnakeGame.update 0
      (session (mkGrid 5 5)
         (mkSnake [(1, 2); (1, 3); (2, 3); (2, 2); (1, 2)] 0) (mkVelocity UP)
         (mkFood (mkPosition 0 0)) (mkScore 4 0%nat) (mkGameState true 1%nat)
         (Some RIGHT))
      (Runtime_init (oracle []))
    = Ok (G, rt', true).
Proof.
  refine (proj2 (proj2 (C10_ticks_after_game_over 0 (mkGrid 5 5)
            (mkSnake [(1, 2); (1, 3); (2, 3); (2, 2); (1, 2)] 0)
            (mkVelocity UP) (mkFood (mkPosition 0 0)) (mkScore 4 0%nat) 1%nat
            (Some RIGHT) (Runtime_init (oracle [])) (1, 2)
            [(1, 3); (2, 3); (2, 2); (1, 2)] _ _ _)) _);
    cbn; first [lia | done].
Defined.

(** ** Growth *)

Lemma gtb_false a : (a >? 0) = false -> a <= 0.
Proof. rewrite Z.gtb_ltb. apply Z.ltb_ge. Qed.

(** One tick of a canonical session, as far as length, growth and score go. *)
Lemma tick_growth fuel g s v f sc gs p rt G rt' b :
  0 < width g -> 0 < height g -> body s ≠ [] ->
  score_changed sc ≠ game_over_subject gs ->
  0 <= growth_pending s <= 1 ->
  SnakeGame.update fuel (session g s v f sc gs p) rt = Ok (G, rt', b) ->
  exists s' v' f' sc' gs',
    G = session g s' v' f' sc' gs' None /\
    body s' ≠ [] /\
    score_changed sc' = score_changed sc /\
    game_over_subject gs' = game_over_subject gs /\
    (is_game_over gs = true -> is_game_over gs' = true) /\
    length (body s') = (length (body s) + Z.to_nat (growth_pending s))%nat /\
    growth_pending s' = (if eats s' f then 1 else 0) /\
    value sc' = value sc + growth_pending s' /\
    emissions (score_changed sc) (trace rt')
    = (emissions (score_changed sc) (trace rt)
       + Z.to_nat (growth_pending s'))%nat.
Proof.
  intros Hw Hh Hb Hsubj Hgp H.
  rewrite SnakeGame_update_canon in H by lia || done.
  apply tick_ok in H as (s2 & f2 & sc2 & gs2 & Hc & -> & _).
  apply collide_ok in Hc
    as (Hbody & Hgrow & Hval & Hch & _ & -> & _ & _ & Htrace).
  set (m := moved g (turned p v) s) in *.
  destruct (moved_length g (turned p v) s Hb) as [Hlen Hmg]. fold m in Hlen, Hmg.
  assert (Hm0 : growth_pending m = 0).
  { rewrite Hmg. destruct (growth_pending s >? 0) eqn:E; [lia|].
    apply gtb_false in E. lia. }
  assert (Heats : eats s2 f = eats m f).
  { unfold eats. by rewrite Hbody. }
  exists s2, (turned p v), f2, sc2, (if self_hit m then ended gs else gs).
  rewrite Heats, Hgrow, Hm0, Hbody, Hlen, Htrace, !emissions_app.
  assert (Hover :
    emissions (score_changed sc)
      (if self_hit m
       then events_of (subjects rt) (game_over_subject gs) (VBool true)
       else []) = 0%nat).
  { destruct (self_hit m); [|done]. rewrite emissions_events_of.
    assert (game_over_subject gs ≠ score_changed sc) as Hne by congruence.
    by apply Nat.eqb_neq in Hne as ->. }
  rewrite Hover, Nat.add_0_r.
  repeat split; try done.
  - by apply moved_body_nonempty.
  - by destruct (self_hit m).
  - by destruct (self_hit m).
  - f_equal. destruct (growth_pending s >? 0) eqn:E.
    + apply Z.gtb_lt in E. assert (growth_pending s = 1) as -> by lia. done.
    + apply gtb_false in E.
      assert (growth_pending s = 0) as -> by lia. done.
  - f_equal. destruct (eats m f); [|done].
    by rewrite emissions_events_of, Nat.eqb_refl.
Qed.


Lemma default_channels_differ :
  Score_score_changed_default ≠ GameState_game_over_subject_default.
Proof. done. Qed.

(** One more tick of a session in play. *)
Lemma playing_tick g base fuel i G rt G' rt' b :
  0 < width g -> 0 < height g ->
  playing g base G rt ->
  SnakeGame.update fuel (steer i G) rt = Ok (G', rt', b) ->
  playing g base G' rt' /\
  exists s f gs s' gs',
    the_snake G = Ok s /\ the_food G = Ok f /\ the_game_state G = Ok gs /\
    the_snake G' = Ok s' /\ the_game_state G' = Ok gs' /\
    length (body s') = (length (body s) + Z.to_nat (growth_pending s))%nat /\
    growth_pending s' = (if eats s' f then 1 else 0) /\
    emissions Score_score_changed_default (trace rt')
    = (emissions Score_score_changed_default (trace rt)
       + Z.to_nat (growth_pending s'))%nat /\
    is_game_over gs' = is_game_over gs || self_hit s' /\
    b = is_game_over gs' /\
    emissions GameState_game_over_subject_default (trace rt')
    = (emissions GameState_game_over_subject_default (trace rt)
       + if self_hit s' then 1 else 0)%nat.
Proof.
  intros Hw Hh (s & v & f & sc & gs & p & -> & Hb & Hgp & Hch & Hov & Hlen & Hval).
  assert (Hsteer : exists p0, steer i (session g s v f sc gs p)
                              = session g s v f sc gs p0).
  { destruct i as [d|]; cbn [steer]; [rewrite set_direction_canon|]; eauto. }
  destruct Hsteer as [p0 ->]. intros H.
  assert (Hsubj : score_changed sc ≠ game_over_subject gs).
  { rewrite Hch, Hov. apply default_channels_differ. }
  pose proof H as H'.
  apply tick_growth in H
    as (s' & v' & f' & sc' & gs' & -> & Hb' & Hch' & Hov' & _ & Hlen' & Hg'
        & Hval' & Hem); try done; try lia.
  apply tick_game_over in H'
    as (s2 & gs2 & Es2 & Egs2 & _ & Hflag & -> & _ & Hgo); try done; try lia.
  rewrite the_snake_session in Es2. injection Es2 as <-.
  rewrite the_game_state_session in Egs2. injection Egs2 as <-.
  rewrite Hch in Hem. rewrite Hov in Hgo.
  assert (Hgp' : 0 <= growth_pending s' <= 1).
  { rewrite Hg'. destruct (eats s' f); lia. }
  split.
  - exists s', v', f', sc', gs', None.
    repeat split; try done; try congruence; try lia.
  - exists s, f, gs, s', gs'.
    rewrite !the_snake_session, the_food_session, !the_game_state_session.
    repeat split; done.
Qed.

Lemma drive_playing g base fuel : forall inputs G rt G' rt',
  0 < width g -> 0 < height g ->
  playing g base G rt ->
  drive fuel inputs (G, rt) = Ok (G', rt') ->
  playing g base G' rt'.
Proof.
  induction inputs as [|i rest IH]; intros G rt G' rt' Hw Hh Hp.
  - cbn. by intros [= <- <-].
  - cbn [drive fst snd].
    destruct (SnakeGame.update _ _ _) as [[[G1 rt1] b]| |] eqn:E; [|done..].
    run_bind. intros H.
    apply (IH G1 rt1); try done.
    apply (playing_tick g base fuel i G rt G1 rt1 b Hw Hh Hp E).
Qed.

Lemma init_playing fuel w h rt G rt' :
  SnakeGame.__init__ fuel w h rt = Ok (G, rt') ->
  0 < w /\ 0 < h /\
  playing (mkGrid w h) (emissions Score_score_changed_default (trace rt)) G rt'.
Proof.
  rewrite SnakeGame_init_canon.
  destruct (respawn_cell _ _ _ _) as [[c rt1]| |] eqn:E; [|done..].
  run_bind. intros [= <- <-].
  apply respawn_cell_ok in E as (_ & Hx & Hy & _ & Ht & _).
  cbn [width height] in Hx, Hy.
  split; [lia|split; [lia|]].
  eexists _, _, _, _, _, _. split; [reflexivity|].
  cbn [body growth_pending Score_new GameState_new score_changed
       game_over_subject value length].
  rewrite Ht. repeat split; try done; lia.
Qed.

Lemma length_nonempty {A : Type} (l : list A) : l ≠ [] -> (1 <= length l)%nat.
Proof. destruct l; [done|]. cbn. lia. Qed.

(** Input and collision leave the body as it is. *)
Lemma body_changes_only_in_movement fuel g s v f sc gs p :
  (forall pd, exists v',
     InputSystem.update pd (game_world g s v f sc gs p)
     = Ok (None, game_world g s v' f sc gs p)) /\
  (forall rt w' rt',
     body s ≠ [] ->
     CollisionSystem.update fuel (game_world g s v f sc gs p, rt)
     = Ok (w', rt') ->
     exists s', World.get_component w' 0 KSnake = Ok (Some (CSnake s')) /\
                body s' = body s).
Proof.
  split.
  - intros pd. rewrite InputSystem_update_canon. eauto.
  - intros rt w' rt' Hb. rewrite CollisionSystem_update_canon by done.
    destruct (collide _ _ _ _ _ _ _) as [[[[[s2 f2] sc2] gs2] rt2]| |] eqn:E;
      [|done..].
    run_bind. intros [= <- <-]. rewrite get_snake.
    apply collide_ok in E as (Hbody & _). eauto.
Qed.

(** C4 (as amended): from a fresh session (body length 1, nothing pending),
    after any number of ticks, body length plus the pending growth is 1 plus
    the number of food-eating ticks so far, and the body length itself is 1
    plus the number of food-eating ticks before the last one: a tick whose
    new head is on the food adds one to the pending growth, to the score and
    to the count, and the next movement step lengthens the body by that one
    cell.  Input and collision never change the body. *)
Theorem C4_growth (fuel : nat) (w h : Z) (rt_pre : Runtime)
    (inputs : list (option Direction)) (i : option Direction)
    (G0 : SnakeGame) (rt0 : Runtime) (G1 : SnakeGame) (rt1 : Runtime)
    (G2 : SnakeGame) (rt2 : Runtime) (b : bool) :
  SnakeGame.__init__ fuel w h rt_pre = Ok (G0, rt0) ->
  drive fuel inputs (G0, rt0) = Ok (G1, rt1) ->
  SnakeGame.update fuel (steer i G1) rt1 = Ok (G2, rt2, b) ->
  let eaten := fun rt =>
    (emissions Score_score_changed_default (trace rt)
     - emissions Score_score_changed_default (trace rt0))%nat in
  exists s0 s1 f1 s2 sc2,
    the_snake G0 = Ok s0 /\ length (body s0) = 1%nat /\
    growth_pending s0 = 0 /\
    the_snake G1 = Ok s1 /\ the_food G1 = Ok f1 /\
    the_snake G2 = Ok s2 /\ the_score G2 = Ok sc2 /\
    Z.of_nat (length (body s2)) + growth_pending s2 = 1 + Z.of_nat (eaten rt2) /\
    length (body s2) = (1 + eaten rt1)%nat /\
    growth_pending s2 = (if eats s2 f1 then 1 else 0) /\
    eaten rt2 = (eaten rt1 + if eats s2 f1 then 1 else 0)%nat /\
    value sc2 = Z.of_nat (eaten rt2) /\
    length (body s2) = (length (body s1) + Z.to_nat (growth_pending s1))%nat /\
    (forall pd g s v f sc gs p, exists v',
       InputSystem.update pd (game_world g s v f sc gs p)
       = Ok (None, game_world g s v' f sc gs p)) /\
    (forall g s v f sc gs p rt w' rt',
       body s ≠ [] ->
       CollisionSystem.update fuel (game_world g s v f sc gs p, rt)
       = Ok (w', rt') ->
       exists s', World.get_component w' 0 KSnake = Ok (Some (CSnake s')) /\
                  body s' = body s).
Proof.
  intros Hinit Hrun Hlast eaten.
  assert (Hbase : trace rt0 = trace rt_pre).
  { rewrite SnakeGame_init_canon in Hinit.
    destruct (respawn_cell _ _ _ _) as [[c rt']| |] eqn:E; [|done..].
    revert Hinit. run_bind. intros [= <- <-].
    by apply respawn_cell_ok in E as (_ & _ & _ & _ & Ht & _). }
  assert (Hs0 : the_snake G0 = Ok (mkSnake [(w `div` 2, h `div` 2)] 0)).
  { rewrite SnakeGame_init_canon in Hinit.
    destruct (respawn_cell _ _ _ _) as [[c rt']| |] eqn:E; [|done..].
    revert Hinit. run_bind. intros [= <- <-]. by rewrite the_snake_session. }
  apply init_playing in Hinit as (Hw & Hh & Hp0). rewrite <- Hbase in Hp0.
  pose proof (drive_playing (mkGrid w h) _ _ _ _ _ _ _ Hw Hh Hp0 Hrun) as Hp1.
  destruct (playing_tick (mkGrid w h) _ _ _ _ _ _ _ _ Hw Hh Hp1 Hlast)
    as (Hp2 & s1 & f1 & gs1' & s2 & gs2' & Es1 & Ef1 & _ & Es2 & _ & Hlen & Hg
        & Hem & _).
  destruct Hp1 as (s1' & v1 & f1' & sc1 & gs1 & p1 & -> & Hb1 & Hgp1 & _ & _
                   & Htally1 & _).
  rewrite the_snake_session in Es1. injection Es1 as ->.
  destruct Hp2 as (s2' & v2 & f2 & sc2 & gs2 & p2 & -> & Hb2 & Hgp2 & _ & _
                   & Htally2 & Hval2).
  rewrite the_snake_session in Es2. injection Es2 as ->.
  exists (mkSnake [(w `div` 2, h `div` 2)] 0), s1, f1, s2, sc2.
  rewrite the_snake_session, the_score_session.
  assert (Hbit : Z.to_nat (growth_pending s2) = if eats s2 f1 then 1%nat else 0%nat).
  { rewrite Hg. by destruct (eats s2 f1). }
  unfold eaten. cbn [body growth_pending length].
  apply length_nonempty in Hb1, Hb2.
  repeat split; try done; try lia.
  - intros pd g s v f sc gs p.
    apply (body_changes_only_in_movement fuel g s v f sc gs p).
  - intros g s v f sc gs p rt.
    apply (body_changes_only_in_movement fuel g s v f sc gs p).
Qed.

Lemma C4_growth_witness :
  exists s2 sc2,
    the_snake (circling_after 2) = Ok s2 /\
    the_score (circling_after 2) = Ok sc2 /\
    length (body s2) = 2%nat /\ growth_pending s2 = 1 /\ value sc2 = 2.
Proof.
  destruct (C4_growth 0 5 5 (Runtime_init (oracle circling_draws))
              [None] None
              (circling_after 0) (circling_runtime 0)
              (circling_after 1) (circling_runtime 1)
              (circling_after 2) (circling_runtime 2) false)
    as (s0 & s1 & f1 & s2 & sc2 & _ & _ & _ & _ & Hf1 & Hs2 & Hsc2 & _
        & Hlen & Hg & _ & Hval & _);
    [vm_compute; reflexivity..|].
  exists s2, sc2. unfold circling_after in Hf1, Hs2, Hsc2 |- *.
  rewrite the_food_session in Hf1. injection Hf1 as <-.
  pose proof Hs2 as Hs2'. rewrite the_snake_session in Hs2'.
  injection Hs2' as <-.
  pose proof Hsc2 as Hsc2'. rewrite the_score_session in Hsc2'.
  injection Hsc2' as <-.
  repeat split; done.
Defined.

(** C4, the claim as stated fails: on a 5 x 5 grid with the first food right
    in front of the snake, the first tick eats (N = 1, F = 1, no
    self-collision) and the body still has length 1, not 1 + F = 2; after
    four ticks that all eat, the body has length 4, not 5. *)
Lemma C4_length_lags_one_tick :
  (st ← play 0 5 5 circling_draws [None]; snapshot st)
  = Ok ([(3, 2)], 1, 1, false, [Emitted 0%nat (VInt 1)]) /\
  (st ← play 0 5 5 circling_draws [None];
   s ← the_snake (fst st);
   Ok (length (body s),
       emissions Score_score_changed_default (trace (snd st)),
       emissions GameState_game_over_subject_default (trace (snd st))))
  = Ok (1, 1, 0)%nat /\
  (st ← play 0 5 5 circling_draws [None; None; None; None];
   s ← the_snake (fst st);
   Ok (length (body s),
       emissions Score_score_changed_default (trace (snd st)),
       emissions GameState_game_over_subject_default (trace (snd st))))
  = Ok (4, 4, 0)%nat /\
  (1 ≠ 1 + 1)%nat.
Proof. repeat split; try (vm_compute; reflexivity). lia. Qed.

(** ** Channels *)

(** Every session's score and game-state components refer to the same two
    [Subject] objects. *)
Lemma sessions_share_channels fuel w h rt G rt' :
  SnakeGame.__init__ fuel w h rt = Ok (G, rt') ->
  the_score G = Ok (mkScore 0 Score_score_changed_default) /\
  the_game_state G = Ok (mkGameState false GameState_game_over_subject_default).
Proof.
  rewrite SnakeGame_init_canon.
  destruct (respawn_cell _ _ _ _) as [[c rt1]| |]; [|done..].
  run_bind. intros [= <- <-].
  by rewrite the_score_session, the_game_state_session.
Qed.

(** C9 fails on the code: two sessions are constructed in one process,
    observer 7 subscribes to the score channel reached through the first
    session, and the second session eats on its first tick.  Both sessions
    hold the same channel, and the observer of the first receives the score
    of the second (the first session's own score is still 0). *)
Lemma C9_event_crosses_sessions :
  ('(a, b, rt) ← two_sessions 0 [3; 2; 3; 2] 7%nat [None];
   score_a ← the_score a;
   score_b ← the_score b;
   Ok (value score_a, value score_b,
       score_changed score_a, score_changed score_b,
       received 7%nat (trace rt), trace rt))
  = Ok (0, 1, 0%nat, 0%nat, [VInt 1],
        [Emitted 0%nat (VInt 1); Delivered 0%nat 7%nat (VInt 1)]).
Proof. vm_compute. reflexivity. Qed.

(** ** Game over, along a play *)

(** C1 (as amended): in every tick of a session, the collision system emits
    the game-over notification once if the new head is among the other body
    cells and not at all otherwise; such a tick sets the flag, which is
    never reset, and the tick reports the flag.  (There is no once-only
    guard: a later tick whose body is again self-intersecting emits
    again.) *)
Theorem C1_game_over_per_tick (fuel : nat) (w h : Z) (rt_pre : Runtime)
    (inputs : list (option Direction)) (i : option Direction)
    (G0 : SnakeGame) (rt0 : Runtime) (G1 : SnakeGame) (rt1 : Runtime)
    (G2 : SnakeGame) (rt2 : Runtime) (b : bool) :
  SnakeGame.__init__ fuel w h rt_pre = Ok (G0, rt0) ->
  drive fuel inputs (G0, rt0) = Ok (G1, rt1) ->
  SnakeGame.update fuel (steer i G1) rt1 = Ok (G2, rt2, b) ->
  exists gs1 gs2 s2,
    the_game_state G1 = Ok gs1 /\ the_game_state G2 = Ok gs2 /\
    the_snake G2 = Ok s2 /\
    is_game_over gs2 = is_game_over gs1 || self_hit s2 /\
    b = is_game_over gs2 /\
    emissions GameState_game_over_subject_default (trace rt2)
    = (emissions GameState_game_over_subject_default (trace rt1)
       + if self_hit s2 then 1 else 0)%nat.
Proof.
  intros Hinit Hrun Hlast.
  apply init_playing in Hinit as (Hw & Hh & Hp0).
  pose proof (drive_playing (mkGrid w h) _ _ _ _ _ _ _ Hw Hh Hp0 Hrun) as Hp1.
  destruct (playing_tick (mkGrid w h) _ _ _ _ _ _ _ _ Hw Hh Hp1 Hlast)
    as (_ & s1 & f1 & gs1 & s2 & gs2 & _ & _ & Egs1 & Es2 & Egs2 & _ & _ & _
        & Hflag & Hb & Hgo).
  exists gs1, gs2, s2. repeat split; done.
Qed.

Lemma C1_game_over_per_tick_witness :
  exists gs1 gs2 s2,
    the_game_state (circling_after 8) = Ok gs1 /\
    the_game_state (circling_after 9) = Ok gs2 /\
    the_snake (circling_after 9) = Ok s2 /\
    is_game_over gs2 = is_game_over gs1 || self_hit s2 /\
    true = is_game_over gs2 /\
    emissions GameState_game_over_subject_default (trace (circling_runtime 9))
    = (emissions GameState_game_over_subject_default
         (trace (circling_runtime 8))
       + if self_hit s2 then 1 else 0)%nat.
Proof.
  apply (C1_game_over_per_tick 0 5 5 (Runtime_init (oracle circling_draws))
           (firstn 8 circling_inputs) (Some RIGHT)
           (circling_after 0) (circling_runtime 0));
    vm_compute; reflexivity.
Defined.

(** * Further properties of the code *)

(** ** The entity registry and the component stores *)

Lemma assoc_set_keys k v d :
  (assoc_set k v d).*1 = if decide (k ∈ d.*1) then d.*1 else d.*1 ++ [k].
Proof.
  induction d as [|[k' v'] d IH]; cbn [assoc_set].
  - rewrite decide_False; [done|]. cbn. by intros ?%elem_of_nil.
  - destruct (k' =? k) eqn:E.
    + apply Z.eqb_eq in E as ->. cbn. rewrite decide_True; [done|]. by left.
    + apply Z.eqb_neq in E. cbn. rewrite IH.
      destruct (decide (k ∈ d.*1)) as [Hin|Hin].
      * rewrite decide_True; [done|]. by right.
      * rewrite decide_False; [done|].
        intros [Heq|Hin']%elem_of_cons; [congruence|done].
Qed.

Lemma assoc_set_elem k v d j c :
  NoDup d.*1 ->
  (j, c) ∈ assoc_set k v d <-> (j = k /\ c = v) \/ (j ≠ k /\ (j, c) ∈ d).
Proof.
  induction d as [|[k' v'] d IH]; cbn [assoc_set]; intros Hnd.
  - rewrite list_elem_of_singleton. split.
    + intros [= -> ->]. by left.
    + intros [[-> ->]|[_ H%elem_of_nil]]; done.
  - cbn in Hnd. apply NoDup_cons in Hnd as [Hk' Hnd].
    destruct (k' =? k) eqn:E.
    + apply Z.eqb_eq in E as ->. rewrite !elem_of_cons. split.
      * intros [[= -> ->]|Hin]; [by left|]. right. split; [|by right].
        intros ->. apply Hk'. apply list_elem_of_fmap. by exists (k, c).
      * intros [[-> ->]|[Hne [[= ? ?]|Hin]]]; [by left|done|by right].
    + apply Z.eqb_neq in E. rewrite !elem_of_cons, IH by done. split.
      * intros [[= -> ->]|[[-> ->]|[Hne Hin]]];
          [right; split; [done|by left]|by left|right; split; [done|by right]].
      * intros [[-> ->]|[Hne [[= -> ->]|Hin]]];
          [right; by left|by left|right; right; by split].
Qed.

Lemma get_component_mutate_ne w entity_id c j k :
  j ≠ entity_id ->
  World.get_component (mutate w entity_id c) j k = World.get_component w j k.
Proof.
  intros Hj. unfold World.get_component, mutate. cbn [entities].
  by rewrite lookup_alter_ne.
Qed.

Lemma ids_below_built w : built w -> ids_below w.
Proof.
  induction 1 as [|w Hb IH|w i c w' Hb IH Hadd|w s Hb IH|w i s Hb IH
                  |w i c c0 Hb IH Hget]; intros j.
  - cbn. rewrite lookup_empty. by intros [? [=]].
  - cbn. destruct (decide (next_entity_id w = j)) as [<-|Hne]; [lia|].
    rewrite lookup_insert_ne by done. intros Hj. specialize (IH j Hj). lia.
  - unfold World.add_component in Hadd.
    destruct (entities w !! i) as [e|] eqn:E; [|done].
    injection Hadd as <-. cbn.
    destruct (decide (i = j)) as [<-|Hne].
    + intros _. apply IH. by rewrite E.
    + rewrite lookup_insert_ne by done. apply IH.
  - cbn. apply IH.
  - cbn. apply IH.
  - cbn. intros Hj. apply IH.
    destruct (decide (i = j)) as [<-|Hne].
    + rewrite lookup_alter_eq in Hj. by apply fmap_is_Some in Hj.
    + by rewrite lookup_alter_ne in Hj.
Qed.

Lemma alter_as_insert `{FinMap K M} {A} (f : A -> A) (m : M A) i a :
  m !! i = Some a -> alter f i m = <[i := f a]> m.
Proof.
  intros Hi. apply map_eq. intros j. destruct (decide (i = j)) as [<-|Hne].
  - by rewrite lookup_alter_eq, lookup_insert_eq, Hi.
  - by rewrite lookup_alter_ne, lookup_insert_ne.
Qed.

(** Assigning to an attached component is what attaching the new state
    would do. *)
Lemma mutate_is_add_component w entity_id c e d :
  entities w !! entity_id = Some e ->
  store w !! type c = Some d ->
  World.add_component w entity_id c = Ok (mutate w entity_id c).
Proof.
  intros He Hd. unfold World.add_component, mutate. rewrite He, Hd. cbn.
  by rewrite (alter_as_insert _ _ _ _ He), (alter_as_insert _ _ _ _ Hd).
Qed.

Lemma indexed_add_component w entity_id c w' :
  indexed w -> World.add_component w entity_id c = Ok w' -> indexed w'.
Proof.
  intros (Hnd & Hiff & Hid). unfold World.add_component.
  destruct (entities w !! entity_id) as [e|] eqn:He; [|done].
  intros [= <-]. split; [|split]; cbn [entities store].
  - intros k. destruct (decide (type c = k)) as [<-|Hk].
    + rewrite lookup_insert_eq. cbn. rewrite assoc_set_keys.
      case_decide as Hin; [apply Hnd|].
      apply NoDup_app. split; [apply Hnd|split].
      * intros j Hj ->%list_elem_of_singleton. done.
      * apply NoDup_singleton.
    + rewrite lookup_insert_ne by done. apply Hnd.
  - intros k j c'. destruct (decide (type c = k)) as [<-|Hk].
    + rewrite lookup_insert_eq. cbn. rewrite assoc_set_elem by apply Hnd.
      destruct (decide (entity_id = j)) as [<-|Hj].
      * rewrite lookup_insert_eq. split.
        -- intros [[_ ->]|[? _]]; [|done]. eexists. split; [done|].
           cbn. by rewrite lookup_insert_eq.
        -- intros (e' & [= <-] & He'). cbn in He'.
           rewrite lookup_insert_eq in He'. left. by injection He' as <-.
      * rewrite lookup_insert_ne by done. rewrite <- Hiff. split.
        -- intros [[-> _]|[_ ?]]; done.
        -- intros ?. right. split; [congruence|done].
    + rewrite lookup_insert_ne by done. rewrite Hiff.
      destruct (decide (entity_id = j)) as [<-|Hj].
      * rewrite lookup_insert_eq, He. split.
        -- intros (e' & [= <-] & He'). eexists. split; [done|].
           cbn. by rewrite lookup_insert_ne.
        -- intros (e' & [= <-] & He'). cbn in He'.
           rewrite lookup_insert_ne in He' by done. eauto.
      * by rewrite lookup_insert_ne.
  - intros j e'. destruct (decide (entity_id = j)) as [<-|Hj].
    + rewrite lookup_insert_eq. intros [= <-]. cbn. by apply Hid.
    + rewrite lookup_insert_ne by done. apply Hid.
Qed.

Lemma indexed_built w : built w -> indexed w.
Proof.
  induction 1 as [|w Hb IH|w i c w' Hb IH Hadd|w s Hb IH|w i s Hb IH
                  |w i c c0 Hb IH Hget].
  - split; [|split]; cbn.
    + intros k. rewrite lookup_empty. cbn. apply NoDup_nil_2.
    + intros k j c. rewrite !lookup_empty. cbn. split.
      * by intros ?%elem_of_nil.
      * by intros (e & [=] & _).
    + intros j e. by rewrite lookup_empty.
  - destruct IH as (Hnd & Hiff & Hid).
    pose proof (ids_below_built w Hb (next_entity_id w)) as Hfresh.
    assert (Hnone : entities w !! next_entity_id w = None).
    { destruct (entities w !! next_entity_id w) eqn:E; [|done].
      assert (next_entity_id w < next_entity_id w) by (apply Hfresh; eauto).
      lia. }
    split; [|split]; cbn [World.create_entity fst entities store].
    + apply Hnd.
    + intros k j c. rewrite Hiff.
      destruct (decide (next_entity_id w = j)) as [<-|Hj].
      * rewrite lookup_insert_eq, Hnone. split.
        -- by intros (e & [=] & _).
        -- intros (e & [= <-] & He). cbn in He. by rewrite lookup_empty in He.
      * by rewrite lookup_insert_ne.
    + intros j e. destruct (decide (next_entity_id w = j)) as [<-|Hj].
      * rewrite lookup_insert_eq. by intros [= <-].
      * rewrite lookup_insert_ne by done. apply Hid.
  - by apply (indexed_add_component w i c w').
  - exact IH.
  - exact IH.
  - unfold World.get_component in Hget.
    destruct (entities w !! i) as [e|] eqn:He; [|done].
    injection Hget as Hc.
    assert (Hin : (i, c0) ∈ default [] (store w !! type c)).
    { apply IH. eauto. }
    destruct (store w !! type c) as [d|] eqn:Hd;
      [|by apply elem_of_nil in Hin].
    apply (indexed_add_component w i c); [done|].
    by apply (mutate_is_add_component w i c e d).
Qed.

(** X1: in a world built through the interface, [create_entity] hands out
    an id that is not in use, one more than the previous one; the new entity
    has no component, every other lookup is as before, and the ids not yet
    handed out raise [KeyError]. *)
Theorem X1_create_entity_fresh (w : World) :
  built w ->
  entities w !! (World.create_entity w).2 = None /\
  (forall k, World.get_component (World.create_entity w).1
               (World.create_entity w).2 k = Ok None) /\
  (forall j k, j ≠ (World.create_entity w).2 ->
     World.get_component (World.create_entity w).1 j k
     = World.get_component w j k) /\
  (forall k, World.get_entities_with_component (World.create_entity w).1 k
             = World.get_entities_with_component w k) /\
  (World.create_entity (World.create_entity w).1).2
  = (World.create_entity w).2 + 1 /\
  (forall j k c, next_entity_id w <= j ->
     World.get_component w j k = Raise KeyError /\
     World.add_component w j c = Raise KeyError).
Proof.
  intros Hb. pose proof (ids_below_built w Hb) as Hbelow.
  assert (Hnone : forall j, next_entity_id w <= j -> entities w !! j = None).
  { intros j Hj. destruct (entities w !! j) eqn:E; [|done].
    assert (j < next_entity_id w) by (apply Hbelow; eauto). lia. }
  cbn [World.create_entity fst snd next_entity_id].
  split; [|split; [|split; [|split; [|split]]]].
  - apply Hnone. lia.
  - intros k. unfold World.get_component. cbn. by rewrite lookup_insert_eq.
  - intros j k Hj. unfold World.get_component. cbn.
    by rewrite lookup_insert_ne.
  - done.
  - done.
  - intros j k c Hj. unfold World.get_component, World.add_component.
    by rewrite (Hnone j Hj).
Qed.

Lemma X1_create_entity_fresh_witness :
  entities World.__init__ !! 0 = None /\
  World.get_component (World.create_entity World.__init__).1 0 KSnake = Ok None /\
  (World.create_entity (World.create_entity World.__init__).1).2 = 1 /\
  World.add_component World.__init__ 0 (CGrid (mkGrid 5 5)) = Raise KeyError.
Proof.
  destruct (X1_create_entity_fresh World.__init__ built_init)
    as (H1 & H2 & _ & _ & H5 & H6).
  split; [exact H1|split; [exact (H2 KSnake)|split; [exact H5|]]].
  apply (H6 0 KGrid). cbn. lia.
Defined.

(** X2: [add_component] on an entity that exists overwrites what the entity
    held under the component's class (last write wins) and changes no other
    lookup, neither another kind of that entity nor any kind of another
    entity; ids in use, next id and systems stay as they are. *)
Theorem X2_add_component_frame (w : World) (entity_id : Z) (c : Component)
    (w' : World) :
  World.add_component w entity_id c = Ok w' ->
  World.get_component w' entity_id (type c) = Ok (Some c) /\
  (forall k, k ≠ type c ->
     World.get_component w' entity_id k = World.get_component w entity_id k) /\
  (forall j k, j ≠ entity_id ->
     World.get_component w' j k = World.get_component w j k) /\
  (forall c2 w2, type c2 = type c ->
     World.add_component w' entity_id c2 = Ok w2 ->
     World.get_component w2 entity_id (type c) = Ok (Some c2)) /\
  next_entity_id w' = next_entity_id w /\ systems w' = systems w /\
  (forall j, is_Some (entities w' !! j) <-> is_Some (entities w !! j)).
Proof.
  unfold World.add_component at 1.
  destruct (entities w !! entity_id) as [e|] eqn:He; [|done].
  intros [= <-].
  assert (Hsame : forall w0 i c0 w1,
            World.add_component w0 i c0 = Ok w1 ->
            World.get_component w1 i (type c0) = Ok (Some c0)).
  { intros w0 i c0 w1. unfold World.add_component, World.get_component.
    destruct (entities w0 !! i); [|done]. intros [= <-]. cbn.
    rewrite lookup_insert_eq. cbn. by rewrite lookup_insert_eq. }
  unfold World.get_component. cbn [entities next_entity_id systems].
  split; [|split; [|split; [|split; [|split; [|split]]]]]; try done.
  - rewrite lookup_insert_eq. cbn. by rewrite lookup_insert_eq.
  - intros k Hk. rewrite lookup_insert_eq, He. cbn.
    by rewrite lookup_insert_ne.
  - intros j k Hj. by rewrite lookup_insert_ne.
  - intros c2 w2 Hty Hadd. rewrite <- Hty. by apply (Hsame _ _ _ _ Hadd).
  - intros j. destruct (decide (entity_id = j)) as [<-|Hj].
    + rewrite lookup_insert_eq, He. split; eauto.
    + by rewrite lookup_insert_ne.
Qed.

Lemma X2_add_component_frame_witness :
  World.get_component
    (game_world (mkGrid 5 5) (mkSnake [(2, 2)] 0) (mkVelocity UP)
       (mkFood (mkPosition 0 0)) Score_new GameState_new None)
    0 KVelocity = Ok (Some (CVelocity (mkVelocity UP))).
Proof.
  refine (proj1 (X2_add_component_frame
            (game_world (mkGrid 5 5) (mkSnake [(2, 2)] 0) (mkVelocity RIGHT)
               (mkFood (mkPosition 0 0)) Score_new GameState_new None)
            0 (CVelocity (mkVelocity UP)) _ _)).
  vm_compute. reflexivity.
Defined.

(** X3: [get_entities_with_component] lists the ids in the order in which
    they were first given a component of the kind: [add_component] appends
    the id at the end if it is not listed yet and otherwise leaves the list
    as it is, and the lists of the other kinds are unchanged. *)
Theorem X3_entities_listed_in_insertion_order (w : World) (entity_id : Z)
    (c : Component) (w' : World) :
  World.add_component w entity_id c = Ok w' ->
  World.get_entities_with_component w' (type c)
  = (if decide (entity_id ∈ World.get_entities_with_component w (type c))
     then World.get_entities_with_component w (type c)
     else World.get_entities_with_component w (type c) ++ [entity_id]) /\
  (forall k, k ≠ type c ->
     World.get_entities_with_component w' k
     = World.get_entities_with_component w k).
Proof.
  unfold World.add_component.
  destruct (entities w !! entity_id) as [e|]; [|done].
  intros [= <-]. unfold World.get_entities_with_component. cbn [store].
  split.
  - rewrite lookup_insert_eq. cbn. apply assoc_set_keys.
  - intros k Hk. by rewrite lookup_insert_ne.
Qed.

Lemma X3_entities_listed_in_insertion_order_witness :
  World.get_entities_with_component
    (game_world (mkGrid 5 5) (mkSnake [(2, 2)] 0) (mkVelocity UP)
       (mkFood (mkPosition 0 0)) Score_new GameState_new None)
    KVelocity = [0].
Proof.
  refine (eq_trans (proj1 (X3_entities_listed_in_insertion_order
            (game_world (mkGrid 5 5) (mkSnake [(2, 2)] 0) (mkVelocity RIGHT)
               (mkFood (mkPosition 0 0)) Score_new GameState_new None)
            0 (CVelocity (mkVelocity UP)) _ _)) _);
    vm_compute; reflexivity.
Defined.

(** X4: in a world built through the interface the two dictionaries agree:
    [get_entities_with_component] lists an id for a kind exactly when
    [get_component] returns a component of that kind for the id, it lists no
    id twice, and the lookup of a listed id never raises. *)
Theorem X4_stores_agree (w : World) (entity_id : Z) (k : Kind) :
  built w ->
  (entity_id ∈ World.get_entities_with_component w k <->
   exists c, World.get_component w entity_id k = Ok (Some c)) /\
  NoDup (World.get_entities_with_component w k).
Proof.
  intros Hb. destruct (indexed_built w Hb) as (Hnd & Hiff & _).
  split; [|apply Hnd].
  unfold World.get_entities_with_component, World.get_component.
  rewrite list_elem_of_fmap. split.
  - intros ([j c] & Heq & Hin). cbn in Heq. subst j.
    apply Hiff in Hin as (e & -> & Hc). rewrite Hc. eauto.
  - intros (c & Hc). destruct (entities w !! entity_id) as [e|] eqn:He; [|done].
    injection Hc as Hc. exists (entity_id, c). split; [done|].
    apply Hiff. eauto.
Qed.

Lemma X4_stores_agree_witness :
  (0 ∈ World.get_entities_with_component
         (World.create_entity World.__init__).1 KSnake <->
   exists c, World.get_component (World.create_entity World.__init__).1 0 KSnake
             = Ok (Some c)) /\
  NoDup (World.get_entities_with_component
           (World.create_entity World.__init__).1 KSnake).
Proof.
  apply X4_stores_agree. apply built_create_entity, built_init.
Defined.

(** ** The systems on any world *)

Lemma well_keyed_built w : built w -> well_keyed w.
Proof.
  revert w.
  assert (Hadd : forall w i c w',
            well_keyed w -> World.add_component w i c = Ok w' -> well_keyed w').
  { intros w i c w' Hk. unfold World.add_component.
    destruct (entities w !! i) as [e|] eqn:He; [|done]. intros [= <-].
    intros j e' k c'. cbn [entities].
    destruct (decide (i = j)) as [<-|Hj].
    - rewrite lookup_insert_eq. intros [= <-]. cbn.
      destruct (decide (type c = k)) as [<-|Hne].
      + rewrite lookup_insert_eq. by intros [= <-].
      + rewrite lookup_insert_ne by done. by apply (Hk i e).
    - rewrite lookup_insert_ne by done. apply Hk. }
  intros w.
  induction 1 as [|w Hb IH|w i c w' Hb IH Ha|w s Hb IH|w i s Hb IH
                  |w i c c0 Hb IH Hget].
  - intros j e k c. cbn. by rewrite lookup_empty.
  - intros j e k c. cbn [World.create_entity fst entities].
    destruct (decide (next_entity_id w = j)) as [<-|Hj].
    + rewrite lookup_insert_eq. intros [= <-]. cbn. by rewrite lookup_empty.
    + rewrite lookup_insert_ne by done. apply IH.
  - by apply (Hadd w i c w').
  - exact IH.
  - exact IH.
  - pose proof (indexed_built w Hb) as (_ & Hiff & _).
    unfold World.get_component in Hget.
    destruct (entities w !! i) as [e|] eqn:He; [|done].
    injection Hget as Hc.
    assert (Hin : (i, c0) ∈ default [] (store w !! type c))
      by (apply Hiff; eauto).
    destruct (store w !! type c) as [d|] eqn:Hd;
      [|by apply elem_of_nil in Hin].
    apply (Hadd w i c); [done|].
    by apply (mutate_is_add_component w i c e d).
Qed.

Lemma touches_only_refl kinds w : touches_only kinds w w.
Proof. by repeat split. Qed.

Lemma touches_only_trans kinds a b c :
  touches_only kinds a b -> touches_only kinds b c -> touches_only kinds a c.
Proof.
  intros (H1 & H2 & H3 & H4) (H1' & H2' & H3' & H4'). repeat split.
  - intros j k Hk. by rewrite H1', H1.
  - intros H. by apply H2, H2'.
  - intros H. by apply H2', H2.
  - congruence.
  - congruence.
Qed.

Lemma touches_only_mutate kinds w entity_id c :
  type c ∈ kinds -> touches_only kinds w (mutate w entity_id c).
Proof.
  intros Hin. repeat split; cbn [mutate entities next_entity_id systems].
  - intros j k Hk. destruct (decide (j = entity_id)) as [->|Hj].
    + apply get_component_mutate_other. by intros ->.
    + by apply get_component_mutate_ne.
  - destruct (decide (entity_id = j)) as [<-|Hj].
    + rewrite lookup_alter_eq. by intros ?%fmap_is_Some.
    + by rewrite lookup_alter_ne.
  - destruct (decide (entity_id = j)) as [<-|Hj].
    + rewrite lookup_alter_eq. intros ?. by apply fmap_is_Some.
    + by rewrite lookup_alter_ne.
Qed.

(** A loop whose every pass keeps a preorder keeps it. *)
Lemma for_each_preserves {S : Type} (R : S -> S -> Prop)
    (f : Z -> S -> Outcome S) :
  (forall s, R s s) -> (forall a b c, R a b -> R b c -> R a c) ->
  (forall i s s', f i s = Ok s' -> R s s') ->
  forall xs s s', for_each xs f s = Ok s' -> R s s'.
Proof.
  intros Hrefl Htrans Hstep. induction xs as [|i xs IH]; intros s s'.
  - cbn. by intros [= <-].
  - cbn [for_each]. destruct (f i s) as [s1| |] eqn:E; [|done..].
    run_bind. intros H. apply (Htrans _ s1); [by apply (Hstep i)|by apply IH].
Qed.



(** The world of a session is built through the interface. *)
Lemma built_game_world g s v f sc gs p : built (game_world g s v f sc gs p).
Proof.
  pose proof built_init as H.
  apply (built_add_system _ (InputSystem p)) in H.
  apply (built_add_system _ MovementSystem) in H.
  apply (built_add_system _ CollisionSystem) in H.
  apply built_create_entity in H.
  eapply (built_add_component _ 0 (CGrid g)) in H; [|vm_compute; reflexivity].
  eapply (built_add_component _ 0 (CSnake s)) in H; [|vm_compute; reflexivity].
  eapply (built_add_component _ 0 (CVelocity v)) in H; [|vm_compute; reflexivity].
  eapply (built_add_component _ 0 (CFood f)) in H; [|vm_compute; reflexivity].
  eapply (built_add_component _ 0 (CScore sc)) in H; [|vm_compute; reflexivity].
  eapply (built_add_component _ 0 (CGameState gs)) in H; [|vm_compute; reflexivity].
  exact H.
Qed.

Lemma built_for_each (f : Z -> World -> Outcome World) :
  (forall i w w', built w -> f i w = Ok w' -> built w') ->
  forall xs w w', built w -> for_each xs f w = Ok w' -> built w'.
Proof.
  intros Hstep. induction xs as [|i xs IH]; intros w w' Hb.
  - cbn. by intros [= <-].
  - cbn [for_each]. destruct (f i w) as [w1| |] eqn:E; [|done..].
    run_bind. apply IH. by apply (Hstep i w).
Qed.




Lemma input_loop d ids : forall w,
  NoDup ids ->
  (forall entity_id, entity_id ∈ ids ->
     exists v, World.get_component w entity_id KVelocity
               = Ok (Some (CVelocity v))) ->
  exists w',
    for_each ids (InputSystem.update_entity d) w = Ok w' /\
    (forall entity_id v,
       entity_id ∈ ids ->
       World.get_component w entity_id KVelocity = Ok (Some (CVelocity v)) ->
       World.get_component w' entity_id KVelocity
       = Ok (Some (CVelocity (turned (Some d) v)))) /\
    (forall j k, j ∉ ids ->
       World.get_component w' j k = World.get_component w j k) /\
    touches_only [KVelocity] w w'.
Proof.
  induction ids as [|i ids IH]; intros w Hnd Hall.
  - exists w. cbn. repeat split; try done. by intros ? ? ?%elem_of_nil.
  - apply NoDup_cons in Hnd as [Hi Hnd].
    destruct (Hall i) as (v & Hv); [by left|].
    set (w1 := if InputSystem.turn_allowed d (direction v)
               then mutate w i (CVelocity (mkVelocity d)) else w).
    assert (Hstep : InputSystem.update_entity d i w = Ok w1).
    { unfold InputSystem.update_entity, w1. rewrite Hv. run_bind.
      by destruct (InputSystem.turn_allowed d (direction v)). }
    assert (Hframe : forall j k, j ≠ i ->
              World.get_component w1 j k = World.get_component w j k).
    { intros j k Hj. unfold w1.
      destruct (InputSystem.turn_allowed d (direction v)); [|done].
      by apply get_component_mutate_ne. }
    assert (Hown : World.get_component w1 i KVelocity
                   = Ok (Some (CVelocity (turned (Some d) v)))).
    { unfold w1, turned.
      destruct (InputSystem.turn_allowed d (direction v)); [|done].
      apply (get_component_mutate_same w i (CVelocity _)).
      by apply (get_component_is_Some _ _ _ _ Hv). }
    assert (Htouch1 : touches_only [KVelocity] w w1).
    { unfold w1. destruct (InputSystem.turn_allowed d (direction v)).
      - apply touches_only_mutate. by left.
      - apply touches_only_refl. }
    destruct (IH w1 Hnd) as (w' & Hrun & Hturned & Hout & Htouch).
    { intros j Hj. destruct (Hall j) as (v0 & Hv0); [by right|].
      exists v0. rewrite Hframe; [done|]. by intros ->. }
    exists w'. cbn [for_each]. rewrite Hstep. run_bind.
    split; [done|split; [|split]].
    + intros j v0 [->|Hj]%elem_of_cons Hv0.
      * rewrite Hout by done. assert (v0 = v) as -> by congruence. done.
      * apply Hturned; [done|]. rewrite Hframe; [done|]. by intros ->.
    + intros j k Hj. apply not_elem_of_cons in Hj as [Hji Hj].
      rewrite Hout by done. by apply Hframe.
    + by apply (touches_only_trans _ w w1).
Qed.

(** The ids a built world lists for a kind hold a component of that class. *)
Lemma listed_velocity w entity_id :
  built w ->
  entity_id ∈ World.get_entities_with_component w KVelocity ->
  exists v, World.get_component w entity_id KVelocity
            = Ok (Some (CVelocity v)).
Proof.
  intros Hb Hin. destruct (indexed_built w Hb) as (_ & Hiff & _).
  unfold World.get_entities_with_component in Hin.
  apply list_elem_of_fmap in Hin as ([j c] & Heq & Hin). cbn in Heq. subst j.
  apply Hiff in Hin as (e & He & Hc).
  pose proof (well_keyed_built w Hb _ _ _ _ He Hc) as Hty.
  unfold World.get_component. rewrite He, Hc.
  destruct c; try done. eauto.
Qed.

(** X6: on every world built through the interface [InputSystem.update]
    returns, with the pending slot cleared; with a pending direction, every
    entity that has a velocity takes it unless it is the reverse of its own
    current direction, and nothing but velocities changes; with no pending
    direction the world is left as it is. *)
Theorem X6_input_turns_every_velocity (w : World) (p : option Direction) :
  built w ->
  exists w',
    InputSystem.update p w = Ok (None, w') /\
    (forall entity_id v,
       World.get_component w entity_id KVelocity = Ok (Some (CVelocity v)) ->
       World.get_component w' entity_id KVelocity
       = Ok (Some (CVelocity (turned p v)))) /\
    touches_only [KVelocity] w w' /\
    (p = None -> w' = w) /\ built w'.
Proof.
  intros Hb. destruct p as [d|].
  2:{ exists w. cbn. repeat split; done. }
  destruct (indexed_built w Hb) as (Hnd & Hiff & _). specialize (Hnd KVelocity).
  destruct (input_loop d (World.get_entities_with_component w KVelocity) w Hnd)
    as (w' & Hrun & Hturned & Hout & Htouch).
  { intros j Hj. by apply listed_velocity. }
  exists w'. unfold InputSystem.update. rewrite Hrun. run_bind.
  split; [done|split; [|split; [done|split; [done|]]]].
  - intros j v Hv. apply Hturned; [|done].
    unfold World.get_entities_with_component. apply list_elem_of_fmap.
    exists (j, CVelocity v). split; [done|]. apply Hiff.
    unfold World.get_component in Hv.
    destruct (entities w !! j) as [e|]; [|done]. injection Hv as Hv. eauto.
  - revert Hrun. apply built_for_each; [|done].
    intros i w0 w1 Hb0. unfold InputSystem.update_entity.
    destruct (World.get_component w0 i KVelocity) as [[[|?|v| | |]|]| |] eqn:E;
      try done.
    run_bind. destruct (InputSystem.turn_allowed d (direction v));
      intros [= <-]; [|done].
    by apply (built_mutate w0 i (CVelocity _) (CVelocity v)).
Qed.

Lemma X6_input_turns_every_velocity_witness :
  exists w',
    InputSystem.update (Some DOWN)
      (game_world (mkGrid 5 5) (mkSnake [(2, 2)] 0) (mkVelocity RIGHT)
         (mkFood (mkPosition 0 0)) Score_new GameState_new (Some DOWN))
    = Ok (None, w') /\
    World.get_component w' 0 KVelocity = Ok (Some (CVelocity (mkVelocity DOWN))).
Proof.
  destruct (X6_input_turns_every_velocity
              (game_world (mkGrid 5 5) (mkSnake [(2, 2)] 0) (mkVelocity RIGHT)
                 (mkFood (mkPosition 0 0)) Score_new GameState_new (Some DOWN))
              (Some DOWN) (built_game_world _ _ _ _ _ _ _))
    as (w' & Hrun & Hturned & _).
  exists w'. split; [exact Hrun|].
  apply (Hturned 0 (mkVelocity RIGHT)). reflexivity.
Defined.

(** ** What the systems raise *)

(** X7: what [MovementSystem.update] raises on the first entity that has a
    snake.  An empty body raises [IndexError] (before velocity or grid are
    looked at); with a body, a missing velocity or a missing grid raises
    [AttributeError]; with all three, a zero grid height raises
    [ZeroDivisionError] when heading Up or Down, and a zero width when
    heading Left or Right. *)
Theorem X7_movement_raises (w : World) (entity_id : Z) (rest : list Z)
    (s : Snake) (vo go : option Component) :
  World.get_entities_with_component w KSnake = entity_id :: rest ->
  World.get_component w entity_id KSnake = Ok (Some (CSnake s)) ->
  World.get_component w entity_id KVelocity = Ok vo ->
  World.get_component w entity_id KGrid = Ok go ->
  (body s = [] -> MovementSystem.update w = Raise IndexError) /\
  (body s ≠ [] -> vo = None ->
   MovementSystem.update w = Raise AttributeError) /\
  (forall v, body s ≠ [] -> vo = Some (CVelocity v) -> go = None ->
   MovementSystem.update w = Raise AttributeError) /\
  (forall v g, body s ≠ [] -> vo = Some (CVelocity v) -> go = Some (CGrid g) ->
   (direction v = UP \/ direction v = DOWN -> height g = 0 ->
    MovementSystem.update w = Raise ZeroDivisionError) /\
   (direction v = LEFT \/ direction v = RIGHT -> width g = 0 ->
    MovementSystem.update w = Raise ZeroDivisionError)).
Proof.
  intros Hids Hs Hv Hg. unfold MovementSystem.update. rewrite Hids.
  cbn [for_each]. unfold MovementSystem.update_entity.
  rewrite Hs, Hv, Hg. run_bind. unfold body_head.
  split; [|split; [|split]].
  - by intros ->.
  - intros Hb ->. by destruct (body s).
  - intros v Hb -> ->. destruct (body s); [done|]. run_bind.
    unfold MovementSystem.new_head. run_bind. by destruct (direction v).
  - intros v g Hb -> ->. destruct (body s) as [|h t]; [done|]. run_bind.
    unfold MovementSystem.new_head, pymod. run_bind.
    split; intros [Hd|Hd] Hz; rewrite Hd, Hz; reflexivity.
Qed.

Lemma X7_movement_raises_witness :
  MovementSystem.update
    (game_world (mkGrid 5 0) (mkSnake [(2, 0)] 0) (mkVelocity UP)
       (mkFood (mkPosition 0 0)) Score_new GameState_new None)
  = Raise ZeroDivisionError /\
  MovementSystem.update
    (game_world (mkGrid 5 5) (mkSnake [] 0) (mkVelocity UP)
       (mkFood (mkPosition 0 0)) Score_new GameState_new None)
  = Raise IndexError.
Proof.
  split.
  - refine (proj1 (proj2 (proj2 (proj2 (X7_movement_raises
              (game_world (mkGrid 5 0) (mkSnake [(2, 0)] 0) (mkVelocity UP)
                 (mkFood (mkPosition 0 0)) Score_new GameState_new None)
              0 [] (mkSnake [(2, 0)] 0) (Some (CVelocity (mkVelocity UP)))
              (Some (CGrid (mkGrid 5 0))) _ _ _ _)))
              (mkVelocity UP) (mkGrid 5 0) _ _ _) _ _);
      first [reflexivity | done | by left].
  - refine (proj1 (X7_movement_raises
              (game_world (mkGrid 5 5) (mkSnake [] 0) (mkVelocity UP)
                 (mkFood (mkPosition 0 0)) Score_new GameState_new None)
              0 [] (mkSnake [] 0) (Some (CVelocity (mkVelocity UP)))
              (Some (CGrid (mkGrid 5 5))) _ _ _ _) _); reflexivity.
Defined.

(** X8: what [CollisionSystem.update] raises on the first entity that has a
    snake, and what it lets pass.  An empty body raises [IndexError]; a
    missing food raises [AttributeError]; a missing score is only noticed on
    a tick whose head is on the food, and a missing game state only on a
    tick whose head is on the body ([AttributeError] both); on a tick with
    neither, the pass changes nothing and needs neither of them. *)
Theorem X8_collision_raises (fuel : nat) (w : World) (rt : Runtime)
    (entity_id : Z) (rest : list Z) (s : Snake)
    (fo sco gso : option Component) :
  World.get_entities_with_component w KSnake = entity_id :: rest ->
  World.get_component w entity_id KSnake = Ok (Some (CSnake s)) ->
  World.get_component w entity_id KFood = Ok fo ->
  World.get_component w entity_id KScore = Ok sco ->
  World.get_component w entity_id KGameState = Ok gso ->
  (body s = [] -> CollisionSystem.update fuel (w, rt) = Raise IndexError) /\
  (body s ≠ [] -> fo = None ->
   CollisionSystem.update fuel (w, rt) = Raise AttributeError) /\
  (forall f, fo = Some (CFood f) -> eats s f = true -> sco = None ->
   CollisionSystem.update fuel (w, rt) = Raise AttributeError) /\
  (forall f, fo = Some (CFood f) -> eats s f = false -> self_hit s = true ->
   gso = None ->
   CollisionSystem.update fuel (w, rt) = Raise AttributeError) /\
  (forall f, body s ≠ [] -> fo = Some (CFood f) -> eats s f = false ->
   self_hit s = false ->
   CollisionSystem.update_entity fuel entity_id (w, rt) = Ok (w, rt)).
Proof.
  intros Hids Hs Hf Hsc Hgs. unfold CollisionSystem.update. cbn [fst].
  rewrite Hids. cbn [for_each]. unfold CollisionSystem.update_entity.
  rewrite Hs, Hf, Hsc, Hgs. run_bind. unfold body_head, eats, self_hit.
  split; [|split; [|split; [|split]]].
  - by intros ->.
  - intros Hb ->. by destruct (body s).
  - intros f -> He ->. destruct (body s) as [|h t]; [done|]. run_bind.
    change (x (position f), y (position f)) with (food_cell f).
    by rewrite He.
  - intros f -> He Hh ->. destruct (body s) as [|h t] eqn:E; [done|].
    run_bind. change (x (position f), y (position f)) with (food_cell f).
    rewrite He. run_bind. rewrite E. run_bind. cbn [tail]. by rewrite Hh.
  - intros f Hb -> He Hh. destruct (body s) as [|h t] eqn:E; [done|].
    run_bind. change (x (position f), y (position f)) with (food_cell f).
    rewrite He. run_bind. rewrite E. run_bind. cbn [tail]. by rewrite Hh.
Qed.

Lemma lone_snake_built s f :
  (w ← World.add_component (World.create_entity World.__init__).1 0 (CSnake s);
   World.add_component w 0 (CFood f)) = Ok (lone_snake s f).
Proof. vm_compute. reflexivity. Qed.

Lemma X8_collision_raises_witness :
  CollisionSystem.update 0
    (lone_snake (mkSnake [(2, 2); (2, 1); (2, 2)] 0) (mkFood (mkPosition 0 0)),
     Runtime_init (oracle []))
  = Raise AttributeError /\
  CollisionSystem.update_entity 0 0
    (lone_snake (mkSnake [(2, 2); (2, 1)] 0) (mkFood (mkPosition 0 0)),
     Runtime_init (oracle []))
  = Ok (lone_snake (mkSnake [(2, 2); (2, 1)] 0) (mkFood (mkPosition 0 0)),
        Runtime_init (oracle [])).
Proof.
  split.
  - refine (proj1 (proj2 (proj2 (proj2 (X8_collision_raises 0
              (lone_snake (mkSnake [(2, 2); (2, 1); (2, 2)] 0)
                 (mkFood (mkPosition 0 0)))
              (Runtime_init (oracle [])) 0 []
              (mkSnake [(2, 2); (2, 1); (2, 2)] 0)
              (Some (CFood (mkFood (mkPosition 0 0)))) None None
              _ _ _ _ _))))
              (mkFood (mkPosition 0 0)) _ _ _ _); reflexivity.
  - refine (proj2 (proj2 (proj2 (proj2 (X8_collision_raises 0
              (lone_snake (mkSnake [(2, 2); (2, 1)] 0)
                 (mkFood (mkPosition 0 0)))
              (Runtime_init (oracle [])) 0 []
              (mkSnake [(2, 2); (2, 1)] 0)
              (Some (CFood (mkFood (mkPosition 0 0)))) None None
              _ _ _ _ _))))
              (mkFood (mkPosition 0 0)) _ _ _ _); first [reflexivity | done].
Defined.

(** ** More on the food respawn *)






(** X11: when the body covers the whole grid the respawn never returns and
    never raises, whatever the random source: every pass draws a body cell.
    A tick in which the snake eats while its body covers the grid therefore
    never returns either. *)
Theorem X11_respawn_hangs_on_full_grid (fuel : nat) (w : World)
    (entity_id : Z) (rt : Runtime) (s : Snake) (f : Food) (g : Grid) :
  World.get_component w entity_id KSnake = Ok (Some (CSnake s)) ->
  World.get_component w entity_id KFood = Ok (Some (CFood f)) ->
  World.get_component w entity_id KGrid = Ok (Some (CGrid g)) ->
  0 < width g -> 0 < height g ->
  (forall cx cy, 0 <= cx < width g -> 0 <= cy < height g ->
                 cell_in (cx, cy) (body s) = true) ->
  CollisionSystem._respawn_food fuel w entity_id rt = Diverge /\
  (forall s0 v sc gs p,
     body s0 ≠ [] ->
     body (moved g (turned p v) s0) = body s ->
     eats (moved g (turned p v) s0) f = true ->
     SnakeGame.update fuel (session g s0 v f sc gs p) rt = Diverge).
Proof.
  intros Hs Hf Hg Hw Hh Hfull. split.
  - unfold CollisionSystem._respawn_food. rewrite Hs, Hf, Hg. run_bind.
    rewrite respawn_loop_cell. by rewrite respawn_cell_full.
  - intros s0 v sc gs p Hb Hbody Heats.
    rewrite SnakeGame_update_canon by lia || done.
    unfold tick, collide. rewrite Heats, Hbody.
    by rewrite respawn_cell_full.
Qed.

Lemma X11_respawn_hangs_on_full_grid_witness :
  SnakeGame.update 7
    (session (mkGrid 2 1) (mkSnake [(0, 0)] 1) (mkVelocity RIGHT)
       (mkFood (mkPosition 1 0)) Score_new GameState_new None)
    (Runtime_init (oracle [1; 0; 0; 0]))
  = Diverge.
Proof.
  refine (proj2 (X11_respawn_hangs_on_full_grid 7
            (game_world (mkGrid 2 1) (mkSnake [(1, 0); (0, 0)] 0)
               (mkVelocity RIGHT) (mkFood (mkPosition 1 0)) Score_new
               GameState_new None)
            0 (Runtime_init (oracle [1; 0; 0; 0]))
            (mkSnake [(1, 0); (0, 0)] 0) (mkFood (mkPosition 1 0)) (mkGrid 2 1)
            _ _ _ _ _ _)
          (mkSnake [(0, 0)] 1) (mkVelocity RIGHT) Score_new GameState_new None
          _ _ _); try reflexivity; try done.
  intros cx cy Hx Hy. cbn in Hx, Hy.
  assert (cy = 0) as -> by lia.
  assert (cx = 0 \/ cx = 1) as [-> | ->] by lia; reflexivity.
Defined.

(** ** The cells of a session, along a play *)

Lemma Forall_removelast {A : Type} (P : A -> Prop) (l : list A) :
  Forall P l -> Forall P (removelast l).
Proof.
  induction l as [|a l IH]; [done|]. intros [Ha Hl]%Forall_cons.
  destruct l as [|b l]; [constructor|].
  change (removelast (a :: b :: l)) with (a :: removelast (b :: l)).
  constructor; [done|by apply IH].
Qed.

Lemma In_removelast {A : Type} (a : A) (l : list A) :
  In a (removelast l) -> In a l.
Proof.
  induction l as [|b l IH]; [done|]. destruct l as [|c l]; [done|].
  change (removelast (b :: c :: l)) with (b :: removelast (c :: l)).
  intros [->|H]; [by left|right; by apply IH].
Qed.

Lemma NoDup_removelast {A : Type} (l : list A) :
  NoDup l -> NoDup (removelast l).
Proof.
  induction l as [|b l IH]; [done|]. intros [Hb Hl]%NoDup_cons.
  destruct l as [|c l]; [constructor|].
  change (removelast (b :: c :: l)) with (b :: removelast (c :: l)).
  apply NoDup_cons. split; [|by apply IH].
  intros Hin%list_elem_of_In%In_removelast. by apply Hb, list_elem_of_In.
Qed.

Lemma cell_in_false c cells : cell_in c cells = false <-> ~ In c cells.
Proof.
  rewrite <- cell_in_spec. by destruct (cell_in c cells).
Qed.

(** The body after the movement system: the new head, then the old body,
    without its last cell unless growth was pending. *)
Lemma moved_body g v s h t :
  body s = h :: t ->
  body (moved g v s)
  = step_cell (direction v) g h
      :: (if growth_pending s >? 0 then h :: t else removelast (h :: t)).
Proof.
  unfold moved. intros ->. by destruct (growth_pending s >? 0).
Qed.

Lemma tidy_tick g fuel i G rt G' rt' b :
  0 < width g -> 0 < height g ->
  tidy g G ->
  SnakeGame.update fuel (steer i G) rt = Ok (G', rt', b) ->
  tidy g G'.
Proof.
  intros Hw Hh (s & v & f & sc & gs & p & -> & Hb & Hin & Hfood & Hoff & Hnd).
  assert (Hsteer : exists p0, steer i (session g s v f sc gs p)
                              = session g s v f sc gs p0).
  { destruct i as [d|]; cbn [steer]; [rewrite set_direction_canon|]; eauto. }
  destruct Hsteer as [p0 ->]. intros H.
  rewrite SnakeGame_update_canon in H by lia || done.
  apply tick_ok in H as (s2 & f2 & sc2 & gs2 & Hc & -> & _).
  apply collide_ok in Hc as (Hbody & _ & _ & _ & Hf2 & -> & _).
  set (v1 := turned p0 v) in *. set (m := moved g v1 s) in *.
  destruct (body s) as [|h t] eqn:E; [done|].
  pose proof (moved_body g v1 s h t E) as Hm. fold m in Hm.
  set (rest := if growth_pending s >? 0 then h :: t else removelast (h :: t))
    in *.
  assert (Hrest_in : forall c, In c rest -> In c (h :: t)).
  { intros c. unfold rest. destruct (growth_pending s >? 0); [done|].
    apply In_removelast. }
  assert (Hhead : in_grid g (step_cell (direction v1) g h)).
  { apply Forall_cons in Hin as [[Hx Hy] _]. destruct h as [hx hy].
    by apply step_cell_in_grid. }
  assert (Hrest_grid : Forall (in_grid g) rest).
  { unfold rest. destruct (growth_pending s >? 0); [done|].
    by apply Forall_removelast. }
  exists s2, v1, f2, sc2, (if self_hit m then ended gs else gs), None.
  rewrite Hbody, Hm.
  split; [done|split; [done|split; [|split; [|split]]]].
  - by constructor.
  - destruct (eats m f); [|by subst f2].
    destruct Hf2 as (_ & Hx & Hy). by split.
  - destruct (eats m f) eqn:Heats.
    + destruct Hf2 as (Hoff2 & _). by rewrite Hm in Hoff2.
    + subst f2. unfold eats in Heats. rewrite Hm in Heats.
      intros [Heq|Hr].
      * rewrite Heq in Heats. unfold Cell_eqb in Heats.
        by rewrite !Z.eqb_refl in Heats.
      * by apply Hoff, Hrest_in.
  - unfold self_hit. rewrite Hm.
    destruct (cell_in (step_cell (direction v1) g h) rest) eqn:Ehit; [done|].
    intros Hlive. apply NoDup_cons. split.
    + intros Hin'%list_elem_of_In. by apply cell_in_false in Ehit.
    + unfold rest. specialize (Hnd Hlive).
      destruct (growth_pending s >? 0); [done|]. by apply NoDup_removelast.
Qed.

Lemma tidy_drive g fuel : forall inputs G rt G' rt',
  0 < width g -> 0 < height g ->
  tidy g G -> drive fuel inputs (G, rt) = Ok (G', rt') -> tidy g G'.
Proof.
  induction inputs as [|i rest IH]; intros G rt G' rt' Hw Hh Ht.
  - cbn. by intros [= <- <-].
  - cbn [drive fst snd].
    destruct (SnakeGame.update _ _ _) as [[[G1 rt1] b]| |] eqn:E; [|done..].
    run_bind. apply IH; try done.
    by apply (tidy_tick g fuel i G rt G1 rt1 b).
Qed.

Lemma tidy_init fuel w h rt G rt' :
  SnakeGame.__init__ fuel w h rt = Ok (G, rt') ->
  0 < w /\ 0 < h /\ tidy (mkGrid w h) G.
Proof.
  rewrite SnakeGame_init_canon.
  destruct (respawn_cell _ _ _ _) as [[c rt1]| |] eqn:E; [|done..].
  run_bind. intros [= <- <-].
  apply respawn_cell_ok in E as (Hfree & Hx & Hy & _).
  cbn [width height] in Hx, Hy.
  split; [lia|split; [lia|]].
  eexists _, _, _, _, _, _. split; [reflexivity|].
  cbn [body]. rewrite food_cell_food_at.
  split; [done|split; [|split; [by split|split]]].
  - constructor; [|constructor]. split; cbn.
    + split; [apply Z.div_pos; lia|apply Z.div_lt_upper_bound; lia].
    + split; [apply Z.div_pos; lia|apply Z.div_lt_upper_bound; lia].
  - by apply cell_in_false.
  - intros _. apply NoDup_singleton.
Qed.

(** What is known of a session after any play from its construction. *)
Lemma play_invariants fuel w h rt_pre inputs G0 rt0 G rt :
  SnakeGame.__init__ fuel w h rt_pre = Ok (G0, rt0) ->
  drive fuel inputs (G0, rt0) = Ok (G, rt) ->
  0 < w /\ 0 < h /\ tidy (mkGrid w h) G /\
  playing (mkGrid w h)
    (emissions Score_score_changed_default (trace rt_pre)) G rt.
Proof.
  intros Hinit Hrun.
  pose proof (tidy_init _ _ _ _ _ _ Hinit) as (Hw & Hh & Ht0).
  pose proof (init_playing _ _ _ _ _ _ Hinit) as (_ & _ & Hp0).
  split; [done|split; [done|split]].
  - by apply (tidy_drive (mkGrid w h) fuel inputs G0 rt0 G rt).
  - by apply (drive_playing (mkGrid w h) _ fuel inputs G0 rt0 G rt).
Qed.

(** X12: after any play from its construction, a session's body is not
    empty, and every cell of the body and the food cell lie inside the grid
    the session was constructed with. *)
Theorem X12_cells_stay_in_grid (fuel : nat) (w h : Z) (rt_pre : Runtime)
    (inputs : list (option Direction)) (G0 : SnakeGame) (rt0 : Runtime)
    (G : SnakeGame) (rt : Runtime) :
  SnakeGame.__init__ fuel w h rt_pre = Ok (G0, rt0) ->
  drive fuel inputs (G0, rt0) = Ok (G, rt) ->
  exists s f,
    the_grid G = Ok (mkGrid w h) /\ the_snake G = Ok s /\ the_food G = Ok f /\
    body s ≠ [] /\
    (forall c, In c (body s) -> 0 <= fst c < w /\ 0 <= snd c < h) /\
    0 <= x (position f) < w /\ 0 <= y (position f) < h.
Proof.
  intros Hinit Hrun.
  destruct (play_invariants _ _ _ _ _ _ _ _ _ Hinit Hrun)
    as (_ & _ & (s & v & f & sc & gs & p & -> & Hb & Hin & Hfood & _) & _).
  exists s, f. rewrite the_grid_session, the_snake_session, the_food_session.
  split; [done|split; [done|split; [done|split; [done|split]]]].
  - intros c Hc. rewrite Forall_forall in Hin.
    apply (Hin c). by apply list_elem_of_In.
  - apply Hfood.
Qed.

Lemma X12_cells_stay_in_grid_witness :
  exists s f,
    the_grid (circling_after 2) = Ok (mkGrid 5 5) /\
    the_snake (circling_after 2) = Ok s /\ the_food (circling_after 2) = Ok f /\
    body s ≠ [] /\
    (forall c, In c (body s) -> 0 <= fst c < 5 /\ 0 <= snd c < 5) /\
    0 <= x (position f) < 5 /\ 0 <= y (position f) < 5.
Proof.
  apply (X12_cells_stay_in_grid 0 5 5 (Runtime_init (oracle circling_draws))
           [None; None] (circling_after 0) (circling_runtime 0)
           (circling_after 2) (circling_runtime 2));
    vm_compute; reflexivity.
Defined.

(** X13: after any play from its construction, the food of a session is on
    no cell of the snake's body: a head that reaches the food eats it in
    that tick, and the respawn puts the new food off the body. *)
Theorem X13_food_never_under_the_snake (fuel : nat) (w h : Z)
    (rt_pre : Runtime) (inputs : list (option Direction)) (G0 : SnakeGame)
    (rt0 : Runtime) (G : SnakeGame) (rt : Runtime) :
  SnakeGame.__init__ fuel w h rt_pre = Ok (G0, rt0) ->
  drive fuel inputs (G0, rt0) = Ok (G, rt) ->
  exists s f,
    the_snake G = Ok s /\ the_food G = Ok f /\
    ~ In (x (position f), y (position f)) (body s).
Proof.
  intros Hinit Hrun.
  destruct (play_invariants _ _ _ _ _ _ _ _ _ Hinit Hrun)
    as (_ & _ & (s & v & f & sc & gs & p & -> & _ & _ & _ & Hoff & _) & _).
  exists s, f. by rewrite the_snake_session, the_food_session.
Qed.

Lemma X13_food_never_under_the_snake_witness :
  exists s f,
    the_snake (circling_after 9) = Ok s /\ the_food (circling_after 9) = Ok f /\
    ~ In (x (position f), y (position f)) (body s).
Proof.
  apply (X13_food_never_under_the_snake 0 5 5
           (Runtime_init (oracle circling_draws)) circling_inputs
           (circling_after 0) (circling_runtime 0)
           (circling_after 9) (circling_runtime 9));
    vm_compute; reflexivity.
Defined.

(** X14: after any play from its construction, as long as the game-over
    flag is clear no cell occurs twice in the snake's body. *)
Theorem X14_no_overlap_until_game_over (fuel : nat) (w h : Z)
    (rt_pre : Runtime) (inputs : list (option Direction)) (G0 : SnakeGame)
    (rt0 : Runtime) (G : SnakeGame) (rt : Runtime) :
  SnakeGame.__init__ fuel w h rt_pre = Ok (G0, rt0) ->
  drive fuel inputs (G0, rt0) = Ok (G, rt) ->
  exists s gs,
    the_snake G = Ok s /\ the_game_state G = Ok gs /\
    (is_game_over gs = false -> NoDup (body s)).
Proof.
  intros Hinit Hrun.
  destruct (play_invariants _ _ _ _ _ _ _ _ _ Hinit Hrun)
    as (_ & _ & (s & v & f & sc & gs & p & -> & _ & _ & _ & _ & Hnd) & _).
  exists s, gs. by rewrite the_snake_session, the_game_state_session.
Qed.

Lemma X14_no_overlap_until_game_over_witness :
  exists s gs,
    the_snake (circling_after 2) = Ok s /\
    the_game_state (circling_after 2) = Ok gs /\
    (is_game_over gs = false -> NoDup (body s)).
Proof.
  apply (X14_no_overlap_until_game_over 0 5 5
           (Runtime_init (oracle circling_draws)) [None; None]
           (circling_after 0) (circling_runtime 0)
           (circling_after 2) (circling_runtime 2));
    vm_compute; reflexivity.
Defined.

(** ** Ticks of a session *)

Lemma respawn_cell_never_raises g cells : forall fuel rt e,
  0 < width g -> 0 < height g ->
  respawn_cell fuel g cells rt ≠ Raise e.
Proof.
  induction fuel as [|fuel IH]; intros rt e Hw Hh;
    cbn [respawn_cell]; run_bind;
    rewrite (randint_below _ _ Hw); run_bind;
    rewrite (randint_below _ _ Hh); run_bind;
    (destruct (cell_in _ cells); cbn [negb]; [|done]).
  - done.
  - by apply IH.
Qed.

Lemma tick_never_raises fuel g s v f sc gs p rt e :
  0 < width g -> 0 < height g ->
  tick fuel g s v f sc gs p rt ≠ Raise e.
Proof.
  intros Hw Hh. unfold tick, collide.
  destruct (eats _ f).
  - pose proof (respawn_cell_never_raises g (body (moved g (turned p v) s))
                  fuel (on_next (score_changed sc) (VInt (value sc + 1)) rt))
      as Hr.
    destruct (respawn_cell _ _ _ _) as [[c rt1]| |] eqn:E.
    + run_bind. by destruct (self_hit _).
    + by destruct (Hr e0).
    + done.
  - run_bind. by destruct (self_hit _).
Qed.

(** X15: a session that was constructed never raises when driven: after any
    play, a further tick (with or without a new direction) either returns
    or hangs in the respawn; it returns whenever the new head is not on the
    food. *)
Theorem X15_ticks_never_raise (fuel : nat) (w h : Z) (rt_pre : Runtime)
    (inputs : list (option Direction)) (G0 : SnakeGame) (rt0 : Runtime) :
  SnakeGame.__init__ fuel w h rt_pre = Ok (G0, rt0) ->
  (forall e, drive fuel inputs (G0, rt0) ≠ Raise e) /\
  (forall G rt i,
     drive fuel inputs (G0, rt0) = Ok (G, rt) ->
     (forall e, SnakeGame.update fuel (steer i G) rt ≠ Raise e) /\
     (forall s v f p,
        the_snake G = Ok s -> the_velocity G = Ok v -> the_food G = Ok f ->
        the_pending (steer i G) = Ok p ->
        eats (moved (mkGrid w h) (turned p v) s) f = false ->
        exists G' rt' b, SnakeGame.update fuel (steer i G) rt = Ok (G', rt', b))).
Proof.
  intros Hinit.
  pose proof (tidy_init _ _ _ _ _ _ Hinit) as (Hw & Hh & Ht0).
  assert (Hstep : forall G rt i e,
            tidy (mkGrid w h) G ->
            SnakeGame.update fuel (steer i G) rt ≠ Raise e).
  { intros G rt i e (s & v & f & sc & gs & p & -> & Hb & _).
    destruct i as [d|]; cbn [steer]; [rewrite set_direction_canon|];
      rewrite SnakeGame_update_canon by (cbn; lia || done);
      by apply tick_never_raises. }
  assert (Hdrive : forall ins G rt e,
            tidy (mkGrid w h) G -> drive fuel ins (G, rt) ≠ Raise e).
  { induction ins as [|i ins IH]; intros G rt e Ht; [done|].
    cbn [drive fst snd].
    destruct (SnakeGame.update fuel (steer i G) rt) as [[[G1 rt1] b]|e1|] eqn:E.
    - run_bind. apply IH.
      by apply (tidy_tick (mkGrid w h) fuel i G rt G1 rt1 b).
    - by destruct (Hstep G rt i e1 Ht).
    - done. }
  split.
  - intros e. by apply Hdrive.
  - intros G rt i Hrun.
    pose proof (tidy_drive (mkGrid w h) fuel inputs G0 rt0 G rt Hw Hh Ht0 Hrun)
      as Ht.
    split; [intros e; by apply Hstep|].
    destruct Ht as (s & v & f & sc & gs & p & -> & Hb & _).
    assert (Hsteer : exists p0, steer i (session (mkGrid w h) s v f sc gs p)
                                = session (mkGrid w h) s v f sc gs p0).
    { destruct i as [d|]; cbn [steer]; [rewrite set_direction_canon|]; eauto. }
    destruct Hsteer as [p0 ->].
    intros s' v' f' p'.
    rewrite the_snake_session, the_food_session, the_velocity_session,
      the_pending_session.
    intros [= <-] [= <-] [= <-] [= <-] Hno.
    rewrite SnakeGame_update_canon by (cbn; lia || done). unfold tick.
    destruct (collide_returns_without_food fuel (mkGrid w h)
                (moved (mkGrid w h) (turned p0 v) s) f sc gs rt Hno)
      as (gs2 & rt2 & ->).
    run_bind. eauto.
Qed.

Lemma X15_ticks_never_raise_witness :
  ~ (exists e, drive 0 circling_inputs (circling_after 0, circling_runtime 0)
               = Raise e).
Proof.
  intros [e He].
  refine (proj1 (X15_ticks_never_raise 0 5 5
            (Runtime_init (oracle circling_draws))
            circling_inputs (circling_after 0) (circling_runtime 0) _) e He).
  vm_compute. reflexivity.
Defined.

(** X16: a direction that is not the reverse of the current heading is
    applied by the next tick, also when another direction had been set
    before it since the last tick (the last one set wins): after the tick
    the velocity is that direction, the slot is empty, and the head is one
    cell further in that direction from the old head. *)
Theorem X16_turn_is_applied (fuel : nat) (w h : Z) (rt_pre : Runtime)
    (inputs : list (option Direction)) (G0 : SnakeGame) (rt0 : Runtime)
    (G1 : SnakeGame) (rt1 : Runtime) (earlier : option Direction)
    (d : Direction) (v : Velocity) (s1 : Snake) (hd : Cell) (t : list Cell)
    (G2 : SnakeGame) (rt2 : Runtime) (b : bool) :
  SnakeGame.__init__ fuel w h rt_pre = Ok (G0, rt0) ->
  drive fuel inputs (G0, rt0) = Ok (G1, rt1) ->
  the_velocity G1 = Ok v -> the_snake G1 = Ok s1 -> body s1 = hd :: t ->
  d ≠ opposite (direction v) ->
  SnakeGame.update fuel (SnakeGame.set_direction (steer earlier G1) d) rt1
  = Ok (G2, rt2, b) ->
  the_velocity G2 = Ok (mkVelocity d) /\ the_pending G2 = Ok None /\
  exists s2 t',
    the_snake G2 = Ok s2 /\ body s2 = step_cell d (mkGrid w h) hd :: t'.
Proof.
  intros Hinit Hrun Hv Hs Hbody Hd.
  destruct (play_invariants _ _ _ _ _ _ _ _ _ Hinit Hrun)
    as (Hw & Hh & (s & v0 & f & sc & gs & p & -> & Hb & _) & _).
  rewrite the_velocity_session in Hv. injection Hv as ->.
  rewrite the_snake_session in Hs. injection Hs as ->.
  assert (Hsteer : exists p0, steer earlier (session (mkGrid w h) s1 v f sc gs p)
                              = session (mkGrid w h) s1 v f sc gs p0).
  { destruct earlier; cbn [steer]; [rewrite set_direction_canon|]; eauto. }
  destruct Hsteer as [p0 ->]. rewrite set_direction_canon.
  rewrite SnakeGame_update_canon by (cbn; lia || done). intros H.
  apply tick_ok in H as (s2 & f2 & sc2 & gs2 & Hc & -> & _).
  apply collide_ok in Hc as (Hbody2 & _).
  assert (Hturn : turned (Some d) v = mkVelocity d).
  { unfold turned. by apply turn_allowed_iff in Hd as ->. }
  rewrite Hturn in *.
  rewrite the_velocity_session, the_pending_session, the_snake_session.
  split; [done|split; [done|]].
  destruct (moved_head (mkGrid w h) (mkVelocity d) s1 hd t Hbody) as [t' Ht'].
  exists s2, t'. by rewrite Hbody2.
Qed.

Lemma X16_turn_is_applied_witness :
  the_velocity
    (session (mkGrid 5 5) (mkSnake [(2, 3)] 0) (mkVelocity DOWN)
       (food_at (3, 2)) Score_new GameState_new None)
  = Ok (mkVelocity DOWN) /\
  the_pending
    (session (mkGrid 5 5) (mkSnake [(2, 3)] 0) (mkVelocity DOWN)
       (food_at (3, 2)) Score_new GameState_new None)
  = Ok None /\
  exists s2 t',
    the_snake
      (session (mkGrid 5 5) (mkSnake [(2, 3)] 0) (mkVelocity DOWN)
         (food_at (3, 2)) Score_new GameState_new None) = Ok s2 /\
    body s2 = step_cell DOWN (mkGrid 5 5) (2, 2) :: t'.
Proof.
  apply (X16_turn_is_applied 0 5 5 (Runtime_init (oracle circling_draws)) []
           (circling_after 0) (circling_runtime 0)
           (circling_after 0) (circling_runtime 0) (Some UP) DOWN
           (mkVelocity RIGHT) (mkSnake [(2, 2)] 0) (2, 2) []
           _ (circling_runtime 0) false);
    first [done | vm_compute; reflexivity].
Defined.

(** ** Notifications *)

Lemma received_app o a b :
  received o (a ++ b) = received o a ++ received o b.
Proof.
  induction a as [|[s v|s o' v] a IH]; cbn; [done|done|].
  destruct (Nat.eqb o' o); cbn; by rewrite IH.
Qed.

Lemma received_events_of o subs s v :
  received o (events_of subs s v)
  = repeat v (length (filter (fun o' => o' = o) (default [] (subs !! s)))).
Proof.
  unfold events_of. cbn [received].
  induction (default [] (subs !! s)) as [|o' obs IH]; [done|].
  cbn [map received]. rewrite filter_cons.
  destruct (decide (o' = o)) as [->|Hne].
  - rewrite Nat.eqb_refl. cbn. by rewrite IH.
  - apply Nat.eqb_neq in Hne as ->. done.
Qed.

(** X17: what a tick of a session emits.  Subscriptions are left as they
    are.  If the new head is on the food, the score channel emits the new
    score; then, if the new head is on the body, the game-over channel emits
    [True]; nothing else is emitted.  Each emission is delivered at once to
    the observers subscribed to its channel, in subscription order, so an
    observer receives the value as often as it is subscribed. *)
Theorem X17_tick_notifications (fuel : nat) (w h : Z) (rt_pre : Runtime)
    (inputs : list (option Direction)) (i : option Direction)
    (G0 : SnakeGame) (rt0 : Runtime) (G1 : SnakeGame) (rt1 : Runtime)
    (G2 : SnakeGame) (rt2 : Runtime) (b : bool) :
  SnakeGame.__init__ fuel w h rt_pre = Ok (G0, rt0) ->
  drive fuel inputs (G0, rt0) = Ok (G1, rt1) ->
  SnakeGame.update fuel (steer i G1) rt1 = Ok (G2, rt2, b) ->
  exists f1 s2 sc2,
    the_food G1 = Ok f1 /\ the_snake G2 = Ok s2 /\ the_score G2 = Ok sc2 /\
    subjects rt2 = subjects rt1 /\
    trace rt2
    = trace rt1
      ++ (if eats s2 f1
          then events_of (subjects rt1) Score_score_changed_default
                 (VInt (value sc2))
          else [])
      ++ (if self_hit s2
          then events_of (subjects rt1) GameState_game_over_subject_default
                 (VBool true)
          else []) /\
    forall o,
      received o (trace rt2)
      = received o (trace rt1)
        ++ (if eats s2 f1
            then repeat (VInt (value sc2))
                   (length (filter (fun o' => o' = o)
                      (default [] (subjects rt1 !! Score_score_changed_default))))
            else [])
        ++ (if self_hit s2
            then repeat (VBool true)
                   (length (filter (fun o' => o' = o)
                      (default []
                         (subjects rt1 !! GameState_game_over_subject_default))))
            else []).
Proof.
  intros Hinit Hrun.
  destruct (play_invariants _ _ _ _ _ _ _ _ _ Hinit Hrun)
    as (Hw & Hh & _ & (s & v & f & sc & gs & p & -> & Hb & _ & Hch & Hov & _)).
  assert (Hsteer : exists p0, steer i (session (mkGrid w h) s v f sc gs p)
                              = session (mkGrid w h) s v f sc gs p0).
  { destruct i; cbn [steer]; [rewrite set_direction_canon|]; eauto. }
  destruct Hsteer as [p0 ->].
  rewrite SnakeGame_update_canon by (cbn; lia || done). intros H.
  apply tick_ok in H as (s2 & f2 & sc2 & gs2 & Hc & -> & _).
  apply collide_ok in Hc
    as (Hbody & _ & Hval & _ & _ & _ & Hsubj & _ & Htrace).
  set (m := moved (mkGrid w h) (turned p0 v) s) in *.
  assert (He : eats s2 f = eats m f) by (unfold eats; by rewrite Hbody).
  assert (Hh2 : self_hit s2 = self_hit m) by (unfold self_hit; by rewrite Hbody).
  exists f, s2, sc2.
  rewrite the_food_session, the_snake_session, the_score_session, He, Hh2.
  rewrite Hch, Hov in Htrace.
  assert (Hv2 : eats m f = true -> value sc2 = value sc + 1).
  { intros E. rewrite Hval, E. done. }
  split; [done|split; [done|split; [done|split; [done|split]]]].
  - rewrite Htrace. destruct (eats m f); [|done]. by rewrite Hv2.
  - intros o. rewrite Htrace, !received_app. f_equal. f_equal.
    + destruct (eats m f); [|done]. by rewrite received_events_of, Hv2.
    + destruct (self_hit m); [|done]. by rewrite received_events_of.
Qed.

Lemma X17_tick_notifications_witness :
  exists f1 s2 sc2,
    the_food (circling_after 0) = Ok f1 /\
    the_snake (circling_after 1) = Ok s2 /\
    the_score (circling_after 1) = Ok sc2 /\
    [[7%nat]; []] = [[7%nat]; []] /\
    [Emitted 0%nat (VInt 1); Delivered 0%nat 7%nat (VInt 1)]
    = []
      ++ (if eats s2 f1
          then events_of [[7%nat]; []] Score_score_changed_default
                 (VInt (value sc2))
          else [])
      ++ (if self_hit s2
          then events_of [[7%nat]; []] GameState_game_over_subject_default
                 (VBool true)
          else []) /\
    forall o,
      received o [Emitted 0%nat (VInt 1); Delivered 0%nat 7%nat (VInt 1)]
      = received o []
        ++ (if eats s2 f1
            then repeat (VInt (value sc2))
                   (length (filter (fun o' => o' = o)
                      (default []
                         ([[7%nat]; []] !! Score_score_changed_default))))
            else [])
        ++ (if self_hit s2
            then repeat (VBool true)
                   (length (filter (fun o' => o' = o)
                      (default []
                         ([[7%nat]; []] !! GameState_game_over_subject_default))))
            else []).
Proof.
  apply (X17_tick_notifications 0 5 5
           (subscribe Score_score_changed_default 7%nat
              (Runtime_init (oracle circling_draws)))
           [] None
           (circling_after 0)
           (mkRuntime [[7%nat]; []] [] (oracle circling_draws) 2)
           (circling_after 0)
           (mkRuntime [[7%nat]; []] [] (oracle circling_draws) 2)
           (circling_after 1)
           (mkRuntime [[7%nat]; []]
              [Emitted 0%nat (VInt 1); Delivered 0%nat 7%nat (VInt 1)]
              (oracle circling_draws) 4)
           false);
    vm_compute; reflexivity.
Defined.

(** ** Rendering *)

Lemma py_index_in_range len i :
  0 <= i < Z.of_nat len -> py_index len i = Ok (Z.to_nat i).
Proof.
  intros H. unfold py_index.
  assert ((0 <=? i) = true) as -> by (apply Z.leb_le; lia).
  assert ((i <? Z.of_nat len) = true) as -> by (apply Z.ltb_lt; lia).
  done.
Qed.

Lemma Cell_eqb_eq a b : Cell_eqb a b = true <-> a = b.
Proof.
  unfold Cell_eqb. rewrite andb_true_iff, !Z.eqb_eq.
  destruct a, b; cbn. split; [intros [-> ->]; done|intros [= -> ->]; done].
Qed.

Lemma shows_paint w h grid pic c ch :
  shows w h grid pic ->
  0 <= fst c < Z.of_nat w -> 0 <= snd c < Z.of_nat h ->
  exists grid',
    paint grid c ch = Ok grid' /\
    shows w h grid' (fun c' => if Cell_eqb c' c then ch else pic c').
Proof.
  intros [Hlen Hrows] Hx Hy. unfold paint, getitem, setitem.
  rewrite Hlen, (py_index_in_range h) by done. run_bind.
  destruct (lookup_lt_is_Some_2 grid (Z.to_nat (snd c))) as [row Hrow]; [lia|].
  rewrite Hrow. run_bind.
  destruct (Hrows _ _ Hrow) as [Hw Hcells].
  rewrite Hw, (py_index_in_range w) by done. run_bind.
  eexists. split; [reflexivity|]. split.
  - by rewrite length_insert.
  - intros y row'. destruct (decide (y = Z.to_nat (snd c))) as [->|Hne].
    + rewrite list_lookup_insert_eq by lia. intros [= <-].
      split; [by rewrite length_insert|].
      intros x Hxw. destruct (decide (x = Z.to_nat (fst c))) as [->|Hnx].
      * rewrite list_lookup_insert_eq by lia.
        assert (Cell_eqb (Z.of_nat (Z.to_nat c.1), Z.of_nat (Z.to_nat c.2)) c
                = true) as ->; [|done].
        apply Cell_eqb_eq. destruct c; cbn in *. f_equal; lia.
      * rewrite list_lookup_insert_ne by done. rewrite (Hcells x Hxw).
        destruct (Cell_eqb _ c) eqn:E; [|done].
        apply Cell_eqb_eq in E. destruct c; cbn in *.
        injection E as E1 E2. lia.
    + rewrite list_lookup_insert_ne by done. intros Hrow'.
      destruct (Hrows _ _ Hrow') as [Hw' Hcells'].
      split; [done|]. intros x Hxw. rewrite (Hcells' x Hxw).
      destruct (Cell_eqb _ c) eqn:E; [|done].
      apply Cell_eqb_eq in E. destruct c; cbn in *.
      injection E as E1 E2. lia.
Qed.

Lemma shows_ext w h grid pic pic' :
  (forall c, pic c = pic' c) -> shows w h grid pic -> shows w h grid pic'.
Proof.
  intros Hext [Hlen Hrows]. split; [done|].
  intros y row Hrow. destruct (Hrows y row Hrow) as [Hw Hcells].
  split; [done|]. intros x Hx. by rewrite <- Hext, Hcells.
Qed.

Lemma shows_paint_all w h ch : forall cells grid pic,
  shows w h grid pic ->
  Forall (fun c => 0 <= fst c < Z.of_nat w /\ 0 <= snd c < Z.of_nat h) cells ->
  exists grid',
    paint_all grid cells ch = Ok grid' /\
    shows w h grid' (fun c => if cell_in c cells then ch else pic c).
Proof.
  induction cells as [|c cells IH]; intros grid pic Hs Hin.
  - exists grid. by split.
  - apply Forall_cons in Hin as [[Hx Hy] Hin].
    destruct (shows_paint w h grid pic c ch Hs Hx Hy) as (g1 & Hp & Hs1).
    destruct (IH g1 _ Hs1 Hin) as (g2 & Hp2 & Hs2).
    exists g2. cbn [paint_all]. rewrite Hp. run_bind. split; [done|].
    revert Hs2. apply shows_ext. intros c'. cbn [cell_in].
    destruct (cell_in c' cells); [by rewrite orb_true_r|].
    by rewrite orb_false_r.
Qed.

Lemma shows_blank w h :
  shows w h (replicate h (replicate w "."%char)) (fun _ => "."%char).
Proof.
  split; [by rewrite length_replicate|].
  intros y row [-> _]%lookup_replicate. split; [by rewrite length_replicate|].
  intros x Hx. by apply lookup_replicate.
Qed.

Lemma shows_rows w h grid pic :
  shows w h grid pic ->
  map String.string_of_list_ascii grid
  = screen_rows (Z.of_nat w) (Z.of_nat h) pic.
Proof.
  intros [Hlen Hrows]. unfold screen_rows.
  apply list_eq. intros y. rewrite !list_lookup_fmap.
  destruct (decide (y < h)%nat) as [Hy|Hy].
  - destruct (lookup_lt_is_Some_2 grid y) as [row Hrow]; [lia|].
    rewrite Hrow, lookup_seqZ_lt by lia. cbn. f_equal. f_equal.
    destruct (Hrows y row Hrow) as [Hw Hcells].
    apply list_eq. intros x. rewrite list_lookup_fmap.
    destruct (decide (x < w)%nat) as [Hx|Hx].
    + rewrite (Hcells x Hx), lookup_seqZ_lt by lia. cbn.
      by rewrite !Z.add_0_l.
    + rewrite lookup_seqZ_ge by lia. cbn. apply lookup_ge_None. lia.
  - rewrite lookup_seqZ_ge by lia. cbn.
    rewrite (proj2 (lookup_ge_None grid y)); [done|lia].
Qed.

Lemma render_canon g s v f sc gs p (w h : Z) :
  body s ≠ [] ->
  Forall (fun c => 0 <= fst c < w /\ 0 <= snd c < h) (body s) ->
  0 <= x (position f) < w -> 0 <= y (position f) < h ->
  SnakeGameUI.render (mkSnakeGameUI (session g s v f sc gs p) w h)
  = Ok (Clear
          :: Print ("Score: " +:+ pretty (value sc))
          :: map Print (screen_rows w h (glyph s f))).
Proof.
  intros Hb Hin Hfx Hfy. unfold SnakeGameUI.render.
  cbn [game ui_width ui_height session world].
  rewrite get_snake, get_food, get_score. run_bind.
  assert (Hw : w = Z.of_nat (Z.to_nat w)) by lia.
  assert (Hh : h = Z.of_nat (Z.to_nat h)) by lia.
  set (W := Z.to_nat w) in *. set (H := Z.to_nat h) in *.
  rewrite Hw in Hfx. rewrite Hh in Hfy. rewrite Hw, Hh in Hin.
  destruct (shows_paint_all W H "O"%char (body s) _ _ (shows_blank W H) Hin)
    as (g1 & -> & Hs1).
  run_bind. unfold body_head.
  destruct (body s) as [|hd t] eqn:E; [done|]. run_bind.
  apply Forall_cons in Hin as [[Hhx Hhy] _].
  destruct (shows_paint W H g1 _ hd "@"%char Hs1 Hhx Hhy) as (g2 & -> & Hs2).
  run_bind.
  destruct (shows_paint W H g2 _ (x (position f), y (position f)) "F"%char
              Hs2 Hfx Hfy) as (g3 & -> & Hs3).
  run_bind. do 3 f_equal.
  rewrite <- (map_map String.string_of_list_ascii Print).
  f_equal. rewrite Hw, Hh. apply shows_rows.
  revert Hs3. apply shows_ext. intros c. unfold glyph. rewrite E.
  fold (food_cell f). destruct (Cell_eqb c (food_cell f)); [done|].
  destruct (Cell_eqb c hd); [done|]. done.
Qed.

(** X18: what [render] shows of a session after any play from the
    construction of the UI: it clears the terminal, prints the score, and
    prints one row per grid line, top line first, each a string of one
    character per column: [F] on the food, else [@] on the head, else [O]
    on the rest of the body, else a dot.  It never raises there. *)
Theorem X18_render_shows_the_game (fuel : nat) (w h : Z) (rt_pre : Runtime)
    (inputs : list (option Direction)) (ui0 : SnakeGameUI) (rt0 : Runtime)
    (G : SnakeGame) (rt : Runtime) :
  SnakeGameUI.__init__ fuel w h rt_pre = Ok (ui0, rt0) ->
  drive fuel inputs (game ui0, rt0) = Ok (G, rt) ->
  exists s f sc,
    the_snake G = Ok s /\ the_food G = Ok f /\ the_score G = Ok sc /\
    SnakeGameUI.render (mkSnakeGameUI G (ui_width ui0) (ui_height ui0))
    = Ok (Clear
            :: Print ("Score: " +:+ pretty (value sc))
            :: map Print (screen_rows w h (glyph s f))) /\
    length (screen_rows w h (glyph s f)) = Z.to_nat h /\
    forall row, In row (screen_rows w h (glyph s f)) ->
                String.length row = Z.to_nat w.
Proof.
  unfold SnakeGameUI.__init__.
  destruct (SnakeGame.__init__ fuel w h rt_pre) as [[G0 rt0']| |] eqn:Hinit;
    [|done..].
  run_bind. intros [= <- <-]. cbn [game ui_width ui_height]. intros Hrun.
  destruct (play_invariants _ _ _ _ _ _ _ _ _ Hinit Hrun)
    as (Hw & Hh & (s & v & f & sc & gs & p & -> & Hb & Hin & Hfood & _) & _).
  exists s, f, sc.
  rewrite the_snake_session, the_food_session, the_score_session.
  split; [done|split; [done|split; [done|split; [|split]]]].
  - apply render_canon; try done; apply Hfood.
  - unfold screen_rows. by rewrite length_map, length_seqZ.
  - intros row. unfold screen_rows. rewrite in_map_iff.
    intros (y & <- & _).
    assert (Hlen : forall l, String.length (String.string_of_list_ascii l)
                             = length l).
    { induction l as [|a l IH]; [done|]. cbn. by rewrite IH. }
    by rewrite Hlen, length_map, length_seqZ.
Qed.

Lemma X18_render_shows_the_game_witness :
  exists s f sc,
    the_snake (circling_after 9) = Ok s /\
    the_food (circling_after 9) = Ok f /\
    the_score (circling_after 9) = Ok sc /\
    SnakeGameUI.render (mkSnakeGameUI (circling_after 9) 5 5)
    = Ok (Clear
            :: Print ("Score: " +:+ pretty (value sc))
            :: map Print (screen_rows 5 5 (glyph s f))) /\
    length (screen_rows 5 5 (glyph s f)) = Z.to_nat 5 /\
    forall row, In row (screen_rows 5 5 (glyph s f)) ->
                String.length row = Z.to_nat 5.
Proof.
  apply (X18_render_shows_the_game 0 5 5
           (Runtime_init (oracle circling_draws)) circling_inputs
           (mkSnakeGameUI (circling_after 0) 5 5) (circling_runtime 0)
           (circling_after 9) (circling_runtime 9));
    vm_compute; reflexivity.
Defined.

(** The screen of that play after its ninth tick. *)
Example render_after_nine_ticks :
  SnakeGameUI.render (mkSnakeGameUI (circling_after 9) 5 5)
  = Ok [Clear; Print "Score: 4"; Print "F...."; Print "....."; Print ".O@..";
        Print ".OO.."; Print "....."].
Proof. vm_compute. reflexivity. Qed.


(** ** The game UI's loop *)

Lemma printed_app line a b :
  printed line (a ++ b) = (printed line a + printed line b)%nat.
Proof.
  induction a as [|[|s|s] a IH]; cbn; [done|done| |done].
  destruct (String.eqb s line); cbn; by rewrite IH.
Qed.

(** No row of a screen reads [Game Over!]. *)
Lemma printed_rows w h s f :
  printed "Game Over!" (map Print (screen_rows w h (glyph s f))) = 0%nat.
Proof.
  unfold screen_rows. induction (seqZ 0 h) as [|y ys IH]; [done|].
  cbn [map printed]. rewrite IH.
  destruct (seqZ 0 w) as [|x0 xs]; [done|]. cbn [map String.string_of_list_ascii].
  assert (Hg : forall c, glyph s f c = "F"%char \/ glyph s f c = "@"%char \/
                         glyph s f c = "O"%char \/ glyph s f c = "."%char).
  { intros c. unfold glyph. destruct (Cell_eqb c (food_cell f)); [by left|].
    destruct (match body s with [] => false | hd :: _ => Cell_eqb c hd end);
      [by right; left|].
    destruct (cell_in c (body s)); [by right; right; left|by right; right; right]. }
  by destruct (Hg (x0, y)) as [->|[->|[->| ->]]].
Qed.

Lemma playing_tick_trace g base fuel i G rt G' rt' b :
  0 < width g -> 0 < height g ->
  playing g base G rt ->
  SnakeGame.update fuel (steer i G) rt = Ok (G', rt', b) ->
  exists f s' sc',
    the_food G = Ok f /\ the_snake G' = Ok s' /\ the_score G' = Ok sc' /\
    subjects rt' = subjects rt /\
    trace rt'
    = trace rt
      ++ (if eats s' f
          then events_of (subjects rt) Score_score_changed_default
                 (VInt (value sc'))
          else [])
      ++ (if self_hit s'
          then events_of (subjects rt) GameState_game_over_subject_default
                 (VBool true)
          else []).
Proof.
  intros Hw Hh (s & v & f & sc & gs & p & -> & Hb & _ & Hch & Hov & _).
  assert (Hsteer : exists p0, steer i (session g s v f sc gs p)
                              = session g s v f sc gs p0).
  { destruct i; cbn [steer]; [rewrite set_direction_canon|]; eauto. }
  destruct Hsteer as [p0 ->].
  rewrite SnakeGame_update_canon by (lia || done). intros H.
  apply tick_ok in H as (s2 & f2 & sc2 & gs2 & Hc & -> & _).
  apply collide_ok in Hc
    as (Hbody & _ & Hval & _ & _ & _ & Hsubj & _ & Htrace).
  set (m := moved g (turned p0 v) s) in *.
  assert (He : eats s2 f = eats m f) by (unfold eats; by rewrite Hbody).
  assert (Hh2 : self_hit s2 = self_hit m) by (unfold self_hit; by rewrite Hbody).
  exists f, s2, sc2.
  rewrite the_food_session, the_snake_session, the_score_session, He, Hh2.
  rewrite Hch, Hov in Htrace.
  split; [done|split; [done|split; [done|split; [done|]]]].
  rewrite Htrace. destruct (eats m f); [|done]. by rewrite Hval.
Qed.

(** A tick under the UI: the score observer prints the new score when the
    snake eats, then the game-over observer prints its line when the snake
    hits itself. *)
Lemma update_in_playing g base fuel i G p G' p' b :
  0 < width g -> 0 < height g ->
  playing g base G (runtime p) ->
  callbacks p = [PrintScore; PrintGameOver] ->
  subjects (runtime p) = [[0%nat]; [1%nat]] ->
  update_in fuel (steer i G) p = Ok (G', p', b) ->
  SnakeGame.update fuel (steer i G) (runtime p) = Ok (G', runtime p', b) /\
  callbacks p' = callbacks p /\ keys p' = keys p /\ typed p' = typed p /\
  exists f s' sc',
    the_food G = Ok f /\ the_snake G' = Ok s' /\ the_score G' = Ok sc' /\
    stdout p'
    = stdout p
      ++ (if eats s' f then [Print ("Score: " +:+ pretty (value sc'))] else [])
      ++ (if self_hit s' then [Print "Game Over!"] else []).
Proof.
  intros Hw Hh Hp Hcb Hsub. unfold update_in.
  destruct (SnakeGame.update _ _ _) as [[[G1 rt1] b1]| |] eqn:E; [|done..].
  run_bind. intros [= <- <- <-].
  cbn [runtime callbacks keys typed stdout emit with_runtime].
  split; [done|split; [done|split; [done|split; [done|]]]].
  destruct (playing_tick_trace g base fuel i G _ G1 rt1 b1 Hw Hh Hp E)
    as (f & s' & sc' & Ef & Es & Esc & _ & Ht).
  exists f, s', sc'. split; [done|split; [done|split; [done|]]].
  f_equal. rewrite Ht, drop_app_length, Hcb, Hsub.
  by destruct (eats s' f), (self_hit s').
Qed.

Lemma render_tidy w h G :
  tidy (mkGrid w h) G ->
  exists s f sc,
    the_snake G = Ok s /\ the_food G = Ok f /\ the_score G = Ok sc /\
    SnakeGameUI.render (mkSnakeGameUI G w h)
    = Ok (Clear :: Print ("Score: " +:+ pretty (value sc))
            :: map Print (screen_rows w h (glyph s f))).
Proof.
  intros (s & v & f & sc & gs & p & -> & Hb & Hin & Hfood & _).
  exists s, f, sc.
  rewrite the_snake_session, the_food_session, the_score_session.
  split; [done|split; [done|split; [done|]]].
  apply render_canon; try done; apply Hfood.
Qed.

(** [render] prints no [Game Over!] line. *)
Lemma render_printed w h G out :
  tidy (mkGrid w h) G ->
  SnakeGameUI.render (mkSnakeGameUI G w h) = Ok out ->
  printed "Game Over!" out = 0%nat.
Proof.
  intros Ht. destruct (render_tidy w h G Ht) as (s & f & sc & _ & _ & _ & ->).
  intros [= <-]. cbn [printed]. apply printed_rows.
Qed.


(** One round of the loop on a session in play. *)
Lemma loop_round w h base fuel G p :
  in_play w h base G p ->
  exists screen,
    SnakeGameUI.render (mkSnakeGameUI G w h) = Ok screen /\
    printed "Game Over!" screen = 0%nat /\
    forall rounds,
    UI.loop (S rounds) fuel (mkSnakeGameUI G w h) p
    = if String.eqb (lower (keys p (typed p))) "q"
      then Ok (mkSnakeGameUI G w h, prompted p screen)
      else
        '(g, p1, is_game_over) ←
          update_in fuel (steer (key_direction (lower (keys p (typed p)))) G)
            (prompted p screen);
        if is_game_over : bool then
          out ← SnakeGameUI.render (mkSnakeGameUI g w h);
          Ok (mkSnakeGameUI g w h, emit (emit p1 out) [Print "Game Over!"])
        else UI.loop rounds fuel (mkSnakeGameUI g w h) p1.
Proof.
  intros (Ht & _). destruct (render_tidy w h G Ht) as (s & f & sc & _ & _ & _ & E).
  eexists. split; [exact E|]. split; [by apply (render_printed w h G)|].
  intros rounds. cbn [UI.loop]. rewrite E. run_bind. done.
Qed.

(** One tick of a session in play under the UI. *)
Lemma in_play_tick w h base fuel i G p G1 p1 b :
  0 < w -> 0 < h ->
  in_play w h base G p ->
  update_in fuel (steer i G) p = Ok (G1, p1, b) ->
  SnakeGame.update fuel (steer i G) (runtime p) = Ok (G1, runtime p1, b) /\
  keys p1 = keys p /\ typed p1 = typed p /\
  tidy (mkGrid w h) G1 /\ playing (mkGrid w h) base G1 (runtime p1) /\
  callbacks p1 = [PrintScore; PrintGameOver] /\
  subjects (runtime p1) = [[0%nat]; [1%nat]] /\
  (exists gs1, the_game_state G1 = Ok gs1 /\ is_game_over gs1 = b) /\
  emissions GameState_game_over_subject_default (trace (runtime p1))
  = (emissions GameState_game_over_subject_default (trace (runtime p))
     + if b then 1 else 0)%nat /\
  exists news,
    stdout p1 = stdout p ++ news ++ (if b then [Print "Game Over!"] else []) /\
    printed "Game Over!" news = 0%nat.
Proof.
  intros Hw Hh (Ht & Hp & (gs & Egs & Hflag) & Hcb & Hsub) H.
  destruct (update_in_playing (mkGrid w h) base fuel i G p G1 p1 b
              Hw Hh Hp Hcb Hsub H)
    as (E & Hcb1 & Hk & Hty & f & s' & sc' & Ef & Es & Esc & Hout).
  destruct (playing_tick (mkGrid w h) base fuel i G _ G1 _ b Hw Hh Hp E)
    as (Hp1 & s0 & f0 & gs0 & s1 & gs1 & _ & _ & Egs0 & Es1 & Egs1 & _ & _ & _
        & Hf1 & Hb & Hgo).
  destruct (playing_tick_trace (mkGrid w h) base fuel i G _ G1 _ b Hw Hh Hp E)
    as (_ & _ & _ & _ & _ & _ & Hsub1 & _).
  rewrite Egs in Egs0. injection Egs0 as <-.
  rewrite Es in Es1. injection Es1 as <-.
  rewrite Hflag in Hf1. cbn [orb] in Hf1.
  assert (Hhit : self_hit s' = b) by congruence.
  rewrite Hhit in Hgo, Hout.
  split; [done|split; [done|split; [done|split]]].
  { by apply (tidy_tick (mkGrid w h) fuel i G (runtime p) G1 (runtime p1) b). }
  split; [done|split; [congruence|split; [congruence|split]]].
  { exists gs1. split; [done|congruence]. }
  split; [done|].
  eexists. split; [exact Hout|]. by destruct (eats s' f).
Qed.


Lemma in_play_prompted w h base G p screen :
  in_play w h base G p -> in_play w h base G (prompted p screen).
Proof. intros (Ht & Hp & Hgs & Hcb & Hsub). by repeat split. Qed.

Lemma typed_inputs_S keys from n :
  typed_inputs keys from (S n)
  = key_direction (lower (keys from)) :: typed_inputs keys (S from) n.
Proof. done. Qed.

(** What a loop that returns has done. *)
Lemma loop_returns w h base fuel :
  0 < w -> 0 < h ->
  forall rounds G p ui' p',
    in_play w h base G p ->
    UI.loop rounds fuel (mkSnakeGameUI G w h) p = Ok (ui', p') ->
    exists n gs,
      (n <= rounds)%nat /\
      drive fuel (typed_inputs (keys p) (typed p) n) (G, runtime p)
      = Ok (game ui', runtime p') /\
      (forall k, (k < n)%nat -> lower (keys p (typed p + k)) ≠ "q") /\
      (forall k Gk rtk, (k < n)%nat ->
         drive fuel (typed_inputs (keys p) (typed p) k) (G, runtime p)
         = Ok (Gk, rtk) ->
         exists gsk, the_game_state Gk = Ok gsk /\ is_game_over gsk = false) /\
      the_game_state (game ui') = Ok gs /\
      emissions GameState_game_over_subject_default (trace (runtime p'))
      = (emissions GameState_game_over_subject_default (trace (runtime p))
         + if is_game_over gs then 1 else 0)%nat /\
      printed "Game Over!" (stdout p')
      = (printed "Game Over!" (stdout p)
         + if is_game_over gs then 2 else 0)%nat /\
      if is_game_over gs
      then typed p' = (typed p + n)%nat /\ (0 < n)%nat /\
           exists pre screen,
             SnakeGameUI.render ui' = Ok screen /\
             stdout p' = pre ++ Print "Game Over!" :: screen
                             ++ [Print "Game Over!"]
      else typed p' = S (typed p + n) /\
           lower (keys p (typed p + n)) = "q" /\
           exists pre, stdout p' = pre ++ [Prompt prompt].
Proof.
  intros Hw Hh. induction rounds as [|rounds IH]; intros G p ui' p' Hin H;
    [done|].
  destruct (loop_round w h base fuel G p Hin)
    as (screen & Er & Hs0 & Heq).
  rewrite Heq in H. clear Heq.
  pose proof Hin as (Ht & Hp & (gs & Egs & Hflag) & Hcb & Hsub).
  destruct (String.eqb _ "q") eqn:Eq.
  - (* the line is q *)
    injection H as <- <-. apply String.eqb_eq in Eq.
    exists 0%nat, gs. cbn [game runtime prompted stdout typed keys].
    rewrite Hflag, !Nat.add_0_r.
    split; [lia|]. split; [done|]. split; [lia|]. split; [lia|].
    split; [done|]. split; [done|]. split.
    { rewrite !printed_app, Hs0. cbn. lia. }
    split; [done|]. split; [done|]. by eexists.
  - apply String.eqb_neq in Eq.
    set (i := key_direction (lower (keys p (typed p)))) in *.
    pose proof (in_play_prompted w h base G p screen Hin) as Hin0.
    destruct (update_in _ _ _) as [[[G1 p1] b]| |] eqn:EU; [|done..].
    cbn [mbind Outcome_bind] in H.
    destruct (in_play_tick w h base fuel i G _ G1 p1 b Hw Hh Hin0 EU)
      as (E & Hk1 & Hty1 & Ht1 & Hp1 & Hcb1 & Hsub1 & (gs1 & Egs1 & Hf1) & Hgo
          & news & Hout & Hnews).
    cbn [runtime prompted keys typed stdout] in E, Hk1, Hty1, Hgo, Hout.
    assert (Hfirst : forall k Gk rtk, (k < 1)%nat ->
              drive fuel (typed_inputs (keys p) (typed p) k) (G, runtime p)
              = Ok (Gk, rtk) ->
              exists gsk, the_game_state Gk = Ok gsk /\ is_game_over gsk = false).
    { intros k Gk rtk Hk. replace k with 0%nat by lia. intros [= <- <-]. eauto. }
    destruct b.
    + (* the tick reports game over *)
      destruct (render_tidy w h G1 Ht1) as (s1 & f1 & sc1 & _ & _ & _ & Er1).
      rewrite Er1 in H. cbn [mbind Outcome_bind] in H. injection H as <- <-.
      exists 1%nat, gs1. cbn [game runtime emit stdout typed keys].
      rewrite Hf1.
      split; [lia|]. split.
      { rewrite typed_inputs_S. cbn [drive fst snd]. fold i. rewrite E. done. }
      split.
      { intros k Hk. replace k with 0%nat by lia. by rewrite Nat.add_0_r. }
      split; [done|]. split; [done|]. split; [done|]. split.
      { rewrite Hout, !printed_app, Hs0, Hnews.
        rewrite (render_printed w h G1 _ Ht1 Er1). cbn. lia. }
      split; [lia|]. split; [lia|].
      eexists (((stdout p ++ screen) ++ [Prompt prompt]) ++ news), _.
      split; [exact Er1|]. rewrite Hout, <- !app_assoc. done.
    + (* the game goes on *)
      assert (Hin1 : in_play w h base G1 p1).
      { split; [done|]. split; [done|]. split; [eauto|]. done. }
      destruct (IH G1 p1 ui' p' Hin1 H)
        as (n & gs' & Hn & Hd & Hq & Hpre & Egs' & Hgo' & Hpr' & Hend).
      rewrite Hk1, Hty1 in Hd, Hq, Hpre, Hend.
      exists (S n), gs'.
      split; [lia|]. split.
      { rewrite typed_inputs_S. cbn [drive fst snd]. fold i. rewrite E.
        run_bind. done. }
      split.
      { intros [|k] Hk; [by rewrite Nat.add_0_r|].
        replace (typed p + S k)%nat with (S (typed p) + k)%nat by lia.
        apply Hq. lia. }
      split.
      { intros [|k] Gk rtk Hk; [apply Hfirst; lia|].
        rewrite typed_inputs_S. cbn [drive fst snd]. fold i. rewrite E.
        run_bind. apply Hpre. lia. }
      split; [done|]. split; [rewrite Hgo', Hgo; lia|]. split.
      { rewrite Hpr', Hout, !printed_app, Hs0, Hnews. cbn. lia. }
      replace (typed p + S n)%nat with (S (typed p) + n)%nat by lia.
      destruct (is_game_over gs'); [|done].
      destruct Hend as (? & ? & ?). split; [done|]. split; [lia|done].
Qed.


(** [start] in a new process: the session is constructed, the observers
    are subscribed, and the loop is entered. *)
Lemma run_start rounds fuel w h draws keys :
  UI.run rounds fuel w h draws keys
  = '(G0, rt0) ← SnakeGame.__init__ fuel w h (Runtime_init draws);
    UI.loop rounds fuel (mkSnakeGameUI G0 w h) (started rt0 keys).
Proof.
  unfold UI.run, SnakeGameUI.__init__. rewrite SnakeGame_init_canon.
  destruct (respawn_cell _ _ _ _) as [[c rt1]| |]; [|done..].
  run_bind. unfold UI.start. cbn [game world session].
  rewrite get_score, get_game_state. run_bind. done.
Qed.

Lemma init_in_play fuel w h draws keys G0 rt0 :
  SnakeGame.__init__ fuel w h (Runtime_init draws) = Ok (G0, rt0) ->
  0 < w /\ 0 < h /\ in_play w h 0 G0 (started rt0 keys) /\ trace rt0 = [].
Proof.
  intros Hinit.
  pose proof (tidy_init _ _ _ _ _ _ Hinit) as (Hw & Hh & Ht0).
  pose proof (init_playing _ _ _ _ _ _ Hinit) as (_ & _ & Hp0).
  rewrite SnakeGame_init_canon in Hinit.
  destruct (respawn_cell _ _ _ _) as [[c rt1]| |] eqn:E; [|done..].
  cbn [mbind Outcome_bind] in Hinit. injection Hinit as <- <-.
  apply respawn_cell_ok in E as (_ & _ & _ & Hs & Htr & _).
  cbn in Hs, Htr.
  split; [done|]. split; [done|]. split; [|done].
  split; [done|]. split; [exact Hp0|]. split.
  { exists GameState_new. by rewrite the_game_state_session. }
  split; [done|]. cbn. by rewrite Hs.
Qed.

(** A session that is over stays over. *)
Lemma drive_over_stays g base fuel : forall inputs G rt Gn rtn gs,
  0 < width g -> 0 < height g ->
  playing g base G rt ->
  the_game_state G = Ok gs -> is_game_over gs = true ->
  drive fuel inputs (G, rt) = Ok (Gn, rtn) ->
  exists gsn, the_game_state Gn = Ok gsn /\ is_game_over gsn = true.
Proof.
  induction inputs as [|i rest IH]; intros G rt Gn rtn gs Hw Hh Hp Egs Hf.
  - cbn. intros [= <- <-]. eauto.
  - cbn [drive fst snd].
    destruct (SnakeGame.update _ _ _) as [[[G1 rt1] b]| |] eqn:E; [|done..].
    run_bind.
    destruct (playing_tick g base fuel i G rt G1 rt1 b Hw Hh Hp E)
      as (Hp1 & s0 & f0 & gs0 & s1 & gs1 & _ & _ & Egs0 & _ & Egs1 & _ & _ & _
          & Hf1 & _).
    rewrite Egs in Egs0. injection Egs0 as <-. rewrite Hf in Hf1.
    apply (IH G1 rt1 Gn rtn gs1); done.
Qed.

(** The loop after [n] ticks that did not end the game, on lines that are
    not [q]. *)
Lemma loop_reaches w h base fuel :
  0 < w -> 0 < h ->
  forall n G p Gn rtn,
    in_play w h base G p ->
    drive fuel (typed_inputs (keys p) (typed p) n) (G, runtime p)
    = Ok (Gn, rtn) ->
    (exists gs, the_game_state Gn = Ok gs /\ is_game_over gs = false) ->
    (forall k, (k < n)%nat -> lower (keys p (typed p + k)) ≠ "q") ->
    exists pn,
      in_play w h base Gn pn /\ runtime pn = rtn /\ keys pn = keys p /\
      typed pn = (typed p + n)%nat /\
      forall r, UI.loop (n + r) fuel (mkSnakeGameUI G w h) p
                = UI.loop r fuel (mkSnakeGameUI Gn w h) pn.
Proof.
  intros Hw Hh. induction n as [|n IH]; intros G p Gn rtn Hin Hd Hgs Hq.
  - injection Hd as <- <-. exists p. by rewrite Nat.add_0_r.
  - rewrite typed_inputs_S in Hd. cbn [drive fst snd] in Hd.
    set (i := key_direction (lower (keys p (typed p)))) in *.
    destruct (SnakeGame.update _ _ _) as [[[G1 rt1] b]| |] eqn:E; [|done..].
    cbn [mbind Outcome_bind] in Hd.
    destruct (loop_round w h base fuel G p Hin) as (screen & _ & _ & Hl0).
    pose proof (in_play_prompted w h base G p screen Hin) as Hin0.
    assert (EU : exists p1, update_in fuel (steer i G) (prompted p screen)
                            = Ok (G1, p1, b)).
    { unfold update_in. cbn [runtime prompted]. rewrite E. run_bind. eauto. }
    destruct EU as [p1 EU].
    destruct (in_play_tick w h base fuel i G _ G1 p1 b Hw Hh Hin0 EU)
      as (E' & Hk1 & Hty1 & Ht1 & Hp1 & Hcb1 & Hsub1 & (gs1 & Egs1 & Hf1) & _).
    cbn [runtime prompted keys typed] in E', Hk1, Hty1.
    rewrite E in E'. injection E' as Hrt1.
    destruct b.
    { destruct Hgs as (gs & Egs & Hf). rewrite Hrt1 in Hd.
      destruct (drive_over_stays (mkGrid w h) base fuel _ G1 _ Gn rtn gs1
                  Hw Hh Hp1 Egs1 Hf1 Hd) as (gsn & Egsn & Hfn).
      congruence. }
    assert (Hin1 : in_play w h base G1 p1).
    { split; [done|]. split; [done|]. split; [eauto|]. done. }
    rewrite Hrt1, <- Hk1, <- Hty1 in Hd.
    destruct (IH G1 p1 Gn rtn Hin1 Hd Hgs) as (pn & Hinn & Hrtn & Hkn & Htyn & Hl).
    { intros k Hk. rewrite Hk1, Hty1.
      replace (S (typed p) + k)%nat with (typed p + S k)%nat by lia.
      apply Hq. lia. }
    exists pn. split; [done|]. split; [done|]. split; [congruence|].
    split; [lia|]. intros r. cbn [Nat.add]. rewrite Hl0.
    assert (Hnq : lower (keys p (typed p)) ≠ "q").
    { specialize (Hq 0%nat). rewrite Nat.add_0_r in Hq. apply Hq. lia. }
    apply String.eqb_neq in Hnq. rewrite Hnq. fold i. rewrite EU.
    run_bind. apply Hl.
Qed.


Lemma update_never_raises_playing g base fuel i G rt e :
  0 < width g -> 0 < height g ->
  playing g base G rt ->
  SnakeGame.update fuel (steer i G) rt ≠ Raise e.
Proof.
  intros Hw Hh (s & v & f & sc & gs & p & -> & Hb & _).
  assert (Hsteer : exists p0, steer i (session g s v f sc gs p)
                              = session g s v f sc gs p0).
  { destruct i; cbn [steer]; [rewrite set_direction_canon|]; eauto. }
  destruct Hsteer as [p0 ->].
  rewrite SnakeGame_update_canon by (lia || done).
  by apply tick_never_raises.
Qed.

Lemma loop_never_raises w h base fuel :
  0 < w -> 0 < h ->
  forall rounds G p e,
    in_play w h base G p ->
    UI.loop rounds fuel (mkSnakeGameUI G w h) p ≠ Raise e.
Proof.
  intros Hw Hh. induction rounds as [|rounds IH]; intros G p e Hin; [done|].
  destruct (loop_round w h base fuel G p Hin) as (screen & _ & _ & ->).
  destruct (String.eqb _ "q"); [done|].
  pose proof (in_play_prompted w h base G p screen Hin) as Hin0.
  destruct (update_in _ _ _) as [[[G1 p1] b]|e0|] eqn:EU; [| |done].
  - run_bind.
    destruct (in_play_tick w h base fuel _ G _ G1 p1 b Hw Hh Hin0 EU)
      as (_ & _ & _ & Ht1 & Hp1 & Hcb1 & Hsub1 & (gs1 & Egs1 & Hf1) & _).
    destruct b.
    + destruct (render_tidy w h G1 Ht1) as (s1 & f1 & sc1 & _ & _ & _ & ->).
      done.
    + apply IH. split; [done|]. split; [done|]. split; [eauto|]. done.
  - exfalso. unfold update_in in EU.
    destruct Hin0 as (_ & Hp0 & _).
    destruct (SnakeGame.update _ _ _) as [[[G1 rt1] b]|e1|] eqn:E; [done| |done].
    revert E. by apply (update_never_raises_playing (mkGrid w h) base).
Qed.

(** X19: what [start] has done when it returns, in a process that had only
    imported the module: it has read some lines, lowered them, and played
    them on the session it constructed, one tick per line, a line [w], [a],
    [s] or [d] setting the direction Up, Left, Down or Right before the
    tick and any other line ticking without a new direction.  It returns
    either at the first line [q], without a tick for that line, or after
    the first tick that reports game over; no earlier line was [q] and no
    earlier tick reported game over. *)
Theorem X19_start_plays_the_typed_lines (rounds fuel : nat) (w h : Z)
    (draws : nat -> Z) (lines : nat -> string) (ui : SnakeGameUI)
    (p : Process) :
  UI.run rounds fuel w h draws lines = Ok (ui, p) ->
  exists G0 rt0 n gs,
    SnakeGame.__init__ fuel w h (Runtime_init draws) = Ok (G0, rt0) /\
    (n <= rounds)%nat /\
    drive fuel (typed_inputs lines 0 n) (G0, subscribed rt0)
    = Ok (game ui, runtime p) /\
    (forall k, (k < n)%nat -> lower (lines k) ≠ "q") /\
    (forall k Gk rtk, (k < n)%nat ->
       drive fuel (typed_inputs lines 0 k) (G0, subscribed rt0) = Ok (Gk, rtk) ->
       exists gsk, the_game_state Gk = Ok gsk /\ is_game_over gsk = false) /\
    the_game_state (game ui) = Ok gs /\
    if is_game_over gs
    then typed p = n /\ (0 < n)%nat
    else typed p = S n /\ lower (lines n) = "q".
Proof.
  rewrite run_start.
  destruct (SnakeGame.__init__ _ _ _ _) as [[G0 rt0]| |] eqn:Hinit; [|done..].
  run_bind. intros H.
  destruct (init_in_play fuel w h draws lines G0 rt0 Hinit)
    as (Hw & Hh & Hin & _).
  destruct (loop_returns w h 0 fuel Hw Hh rounds G0 _ ui p Hin H)
    as (n & gs & Hn & Hd & Hq & Hpre & Egs & _ & _ & Hend).
  cbn [started keys typed runtime Nat.add] in Hd, Hq, Hpre, Hend.
  exists G0, rt0, n, gs.
  split; [done|]. split; [done|]. split; [done|]. split; [done|].
  split; [done|]. split; [done|].
  destruct (is_game_over gs).
  - by destruct Hend as (? & ? & _).
  - by destruct Hend as (? & ? & _).
Qed.

Lemma X19_start_plays_the_typed_lines_witness :
  exists ui p,
    UI.run 20 0 5 5 (oracle circling_draws) (typing circling_lines)
    = Ok (ui, p) /\
    exists G0 rt0 n gs,
      SnakeGame.__init__ 0 5 5 (Runtime_init (oracle circling_draws))
      = Ok (G0, rt0) /\
      (n <= 20)%nat /\
      drive 0 (typed_inputs (typing circling_lines) 0 n) (G0, subscribed rt0)
      = Ok (game ui, runtime p) /\
      (forall k, (k < n)%nat -> lower (typing circling_lines k) ≠ "q") /\
      (forall k Gk rtk, (k < n)%nat ->
         drive 0 (typed_inputs (typing circling_lines) 0 k)
           (G0, subscribed rt0) = Ok (Gk, rtk) ->
         exists gsk, the_game_state Gk = Ok gsk /\ is_game_over gsk = false) /\
      the_game_state (game ui) = Ok gs /\
      if is_game_over gs
      then typed p = n /\ (0 < n)%nat
      else typed p = S n /\ lower (typing circling_lines n) = "q".
Proof.
  destruct (UI.run 20 0 5 5 (oracle circling_draws) (typing circling_lines))
    as [[ui p]| |] eqn:E; [|by vm_compute in E..].
  exists ui, p. split; [done|].
  exact (X19_start_plays_the_typed_lines 20 0 5 5 (oracle circling_draws)
           (typing circling_lines) ui p E).
Defined.

(** X20: under [start] the game-over channel emits once when the game
    ends, and never otherwise (the loop stops ticking there).  When the
    game ends, [Game Over!] is printed twice: by the observer during the
    last tick, then, after the last screen, by the loop, which is the last
    thing printed.  When the user quits, it is not printed at all, and the
    last thing printed is the prompt. *)
Theorem X20_game_over_is_announced_once (rounds fuel : nat) (w h : Z)
    (draws : nat -> Z) (lines : nat -> string) (ui : SnakeGameUI)
    (p : Process) :
  UI.run rounds fuel w h draws lines = Ok (ui, p) ->
  exists gs,
    the_game_state (game ui) = Ok gs /\
    emissions GameState_game_over_subject_default (trace (runtime p))
    = (if is_game_over gs then 1 else 0)%nat /\
    printed "Game Over!" (stdout p) = (if is_game_over gs then 2 else 0)%nat /\
    if is_game_over gs
    then exists pre screen,
           SnakeGameUI.render ui = Ok screen /\
           stdout p = pre ++ Print "Game Over!" :: screen
                          ++ [Print "Game Over!"]
    else exists pre, stdout p = pre ++ [Prompt prompt].
Proof.
  rewrite run_start.
  destruct (SnakeGame.__init__ _ _ _ _) as [[G0 rt0]| |] eqn:Hinit; [|done..].
  run_bind. intros H.
  destruct (init_in_play fuel w h draws lines G0 rt0 Hinit)
    as (Hw & Hh & Hin & Htr).
  destruct (loop_returns w h 0 fuel Hw Hh rounds G0 _ ui p Hin H)
    as (n & gs & _ & _ & _ & _ & Egs & Hgo & Hpr & Hend).
  cbn [started keys typed runtime stdout subscribed subscribe trace printed]
    in Hgo, Hpr, Hend.
  rewrite Htr in Hgo. cbn [emissions] in Hgo.
  exists gs. split; [done|]. split; [done|]. split; [done|].
  destruct (is_game_over gs).
  - by destruct Hend as (_ & _ & ?).
  - by destruct Hend as (_ & _ & ?).
Qed.

Lemma X20_game_over_is_announced_once_witness :
  exists ui p,
    UI.run 20 0 5 5 (oracle circling_draws) (typing circling_lines)
    = Ok (ui, p) /\
    exists gs,
      the_game_state (game ui) = Ok gs /\
      emissions GameState_game_over_subject_default (trace (runtime p))
      = (if is_game_over gs then 1 else 0)%nat /\
      printed "Game Over!" (stdout p)
      = (if is_game_over gs then 2 else 0)%nat /\
      if is_game_over gs
      then exists pre screen,
             SnakeGameUI.render ui = Ok screen /\
             stdout p = pre ++ Print "Game Over!" :: screen
                            ++ [Print "Game Over!"]
      else exists pre, stdout p = pre ++ [Prompt prompt].
Proof.
  destruct (UI.run 20 0 5 5 (oracle circling_draws) (typing circling_lines))
    as [[ui p]| |] eqn:E; [|by vm_compute in E..].
  exists ui, p. split; [done|].
  exact (X20_game_over_is_announced_once 20 0 5 5 (oracle circling_draws)
           (typing circling_lines) ui p E).
Defined.

(** X21: [start] in a new process raises only if the width or the height
    is not positive, and then it is the [ValueError] of the construction:
    once the session exists, neither [render] nor a tick raises, whatever
    is typed.  (Every [input] call is taken to return a line.) *)
Theorem X21_start_raises_only_on_bad_size (rounds fuel : nat) (w h : Z)
    (draws : nat -> Z) (lines : nat -> string) (e : Exception) :
  UI.run rounds fuel w h draws lines = Raise e
  <-> e = ValueError /\ (w <= 0 \/ h <= 0).
Proof.
  rewrite run_start.
  destruct (decide (w <= 0 \/ h <= 0)) as [Hbad|Hok].
  - rewrite SnakeGame_init_canon, respawn_cell_nonpositive by done.
    cbn [mbind Outcome_bind]. split; [by intros [= <-]|by intros [-> _]].
  - assert (Hw : 0 < w) by lia. assert (Hh : 0 < h) by lia.
    split; [|by intros [_ ?]]. intros H. exfalso.
    destruct (SnakeGame.__init__ _ _ _ _) as [[G0 rt0]|e0|] eqn:Hinit;
      [| |done].
    + destruct (init_in_play fuel w h draws lines G0 rt0 Hinit)
        as (_ & _ & Hin & _).
      by apply (loop_never_raises w h 0 fuel Hw Hh rounds G0 _ e Hin).
    + rewrite SnakeGame_init_canon in Hinit.
      destruct (respawn_cell _ _ _ _) as [[c rt1]|e1|] eqn:E; [done| |done].
      by apply (respawn_cell_never_raises (mkGrid w h) _ fuel _ e1 Hw Hh) in E.
Qed.

(** X22: [start] returns.  If the first [n] lines are not [q] and their
    ticks return without ending the game, then: if the next line is [q]
    (in either case), [start] returns at once with the session as it is;
    if not, and the tick for that line returns and reports game over,
    [start] returns with the session after that tick.  ([rounds] bounds the
    rounds of the loop that are followed.) *)
Theorem X22_start_returns (rounds fuel : nat) (w h : Z) (draws : nat -> Z)
    (lines : nat -> string) (n : nat) (G0 : SnakeGame) (rt0 : Runtime)
    (G : SnakeGame) (rt : Runtime) (gs : GameState) :
  SnakeGame.__init__ fuel w h (Runtime_init draws) = Ok (G0, rt0) ->
  drive fuel (typed_inputs lines 0 n) (G0, subscribed rt0) = Ok (G, rt) ->
  the_game_state G = Ok gs -> is_game_over gs = false ->
  (forall k, (k < n)%nat -> lower (lines k) ≠ "q") ->
  (n < rounds)%nat ->
  (lower (lines n) = "q" ->
   exists p, UI.run rounds fuel w h draws lines = Ok (mkSnakeGameUI G w h, p) /\
             runtime p = rt /\ typed p = S n) /\
  (forall G' rt',
     lower (lines n) ≠ "q" ->
     SnakeGame.update fuel (steer (key_direction (lower (lines n))) G) rt
     = Ok (G', rt', true) ->
     exists p, UI.run rounds fuel w h draws lines = Ok (mkSnakeGameUI G' w h, p) /\
               runtime p = rt' /\ typed p = S n).
Proof.
  intros Hinit Hd Egs Hf Hq Hn. rewrite run_start, Hinit. run_bind.
  destruct (init_in_play fuel w h draws lines G0 rt0 Hinit)
    as (Hw & Hh & Hin & _).
  destruct (loop_reaches w h 0 fuel Hw Hh n G0 (started rt0 lines) G rt Hin)
    as (pn & Hinn & Hrtn & Hkn & Htyn & Hl); [done|eauto|done|].
  cbn [started keys typed Nat.add] in Hkn, Htyn.
  replace rounds with (n + S (rounds - S n))%nat by lia. rewrite Hl.
  destruct (loop_round w h 0 fuel G pn Hinn) as (screen & _ & _ & ->).
  rewrite Hkn, Htyn. split.
  - intros Hquit. apply String.eqb_eq in Hquit. rewrite Hquit.
    eexists. split; [done|]. cbn [runtime prompted typed]. split; [done|lia].
  - intros G' rt' Hnq E. apply String.eqb_neq in Hnq. rewrite Hnq.
    unfold update_in at 1. cbn [runtime prompted]. rewrite Hrtn, E. run_bind.
    assert (Ht' : tidy (mkGrid w h) G').
    { destruct Hinn as (Ht & _).
      by apply (tidy_tick (mkGrid w h) fuel
                  (key_direction (lower (lines n))) G rt G' rt' true). }
    destruct (render_tidy w h G' Ht') as (s1 & f1 & sc1 & _ & _ & _ & ->).
    run_bind. eexists. split; [done|].
    cbn [runtime emit with_runtime prompted typed]. split; [done|lia].
Qed.

Lemma X22_start_returns_witness :
  exists p,
    UI.run 5 0 5 5 (oracle circling_draws) (typing [""; "Q"])
    = Ok (mkSnakeGameUI (circling_after 1) 5 5, p) /\
    runtime p
    = mkRuntime [[0%nat]; [1%nat]]
        [Emitted 0%nat (VInt 1); Delivered 0%nat 0%nat (VInt 1)]
        (oracle circling_draws) 4 /\
    typed p = 2%nat.
Proof.
  refine (proj1 (X22_start_returns 5 0 5 5 (oracle circling_draws)
                   (typing [""; "Q"]) 1 (circling_after 0) (circling_runtime 0)
                   (circling_after 1) _ GameState_new _ _ _ _ _ _) _);
    try (vm_compute; reflexivity).
  - intros k Hk. replace k with 0%nat by lia. vm_compute. discriminate.
  - lia.
Defined.
